(** * claude-devstudio: the skill installer and uninstaller

    A shallow embedding of [install.py] and [uninstall.py].  Both scripts
    are sequences of file-system calls, prompts and prints, so the model
    is a state-and-exception monad over a small world: two directory
    trees (the directory of the script and the home directory of the
    user), the lines waiting on the terminal and the lines printed so
    far.

    Scope of the model.
    - A directory is an association list in the order [iterdir] yields
      it; a regular file is its content.  Symbolic links, permission
      bits and timestamps are not represented.
    - The directory of the script and the home directory are separate
      trees: the installer never copies a file onto itself.
    - An input/output error that does not follow from the shape of the
      tree (a read-only file, a full disk) is given by the oracle
      [io_error], which says for a path of the home directory that
      writing or deleting the entry there is refused, and with which
      message.  A copy or an [os.remove] that is refused leaves the
      tree as it was.  [shutil.rmtree] deletes entry by entry and stops
      at the first one that is refused: what it deleted before is gone.
    - The oracle is the same all through a run, and a file has no mode:
      [shutil.copy2] is the copy of the content.  That it hands the mode
      of a read-only source file on to the copy, which then cannot be
      written a second time, is outside the model; the statements about
      a second installation take its success as a hypothesis.
    - The terminal takes every string that is printed, and the interrupt
      key is pressed at a prompt or not at all.

    The file has the model first ([Install], [Uninstall]), then the
    relations the statements are written with, then the lemmas, and in
    section [Claims] one theorem for each claim C1 to C10 about the two
    scripts, followed by the same statements at concrete worlds. *)

From Stdlib Require Import List String Ascii Bool Arith Lia DecimalString.
Import ListNotations.
Open Scope string_scope.
Set Warnings "-register-all".

(** ** Directory trees *)

Inductive node : Type :=
| File (data : string)
| Dir (entries : list (string * node)).

Definition dirents := list (string * node).
Definition path := list string.

Fixpoint lookup (x : string) (es : dirents) : option node :=
  match es with
  | [] => None
  | (y, n) :: es' => if String.eqb x y then Some n else lookup x es'
  end.

(** [update] replaces the entry in place, or appends a new one. *)
Fixpoint update (x : string) (n : node) (es : dirents) : dirents :=
  match es with
  | [] => [(x, n)]
  | (y, m) :: es' =>
      if String.eqb x y then (y, n) :: es' else (y, m) :: update x n es'
  end.

Definition unlink (x : string) (es : dirents) : dirents :=
  filter (fun e => negb (String.eqb x (fst e))) es.

Definition names (es : dirents) : list string := map fst es.

Fixpoint get (p : path) (n : node) : option node :=
  match p with
  | [] => Some n
  | x :: p' =>
      match n with
      | File _ => None
      | Dir es =>
          match lookup x es with
          | Some c => get p' c
          | None => None
          end
      end
  end.

Definition is_some {A} (o : option A) : bool :=
  match o with Some _ => true | None => false end.

Definition node_is_dir (o : option node) : bool :=
  match o with Some (Dir _) => true | _ => false end.

Definition node_is_file (o : option node) : bool :=
  match o with Some (File _) => true | _ => false end.

Inductive errno : Type := ENOENT | EEXIST | ENOTDIR | EISDIR.

(** [Path.mkdir(parents=True, exist_ok=True)]: missing directories along
    the path are created; a regular file in the way is an error, EEXIST
    when it is the path itself and ENOTDIR when it is one of its
    parents. *)
Fixpoint mkdir_p (p : path) (n : node) : node + errno :=
  match n with
  | File _ => inr (match p with [] => EEXIST | _ :: _ => ENOTDIR end)
  | Dir es =>
      match p with
      | [] => inl n
      | x :: p' =>
          let child := match lookup x es with Some c => c | None => Dir [] end in
          match mkdir_p p' child with
          | inl c' => inl (Dir (update x c' es))
          | inr e => inr e
          end
      end
  end.

(** [put p new n] stores [new] at [p] when the parent of [p] is a
    directory of [n]; otherwise [n] is returned as it is. *)
Fixpoint put (p : path) (new : node) (n : node) : node :=
  match p with
  | [] => new
  | x :: p' =>
      match n with
      | File _ => n
      | Dir es =>
          match p' with
          | [] => Dir (update x new es)
          | _ :: _ =>
              match lookup x es with
              | Some c => Dir (update x (put p' new c) es)
              | None => n
              end
          end
      end
  end.

(** [del p n] removes the entry at [p], with everything below it. *)
Fixpoint del (p : path) (n : node) : node :=
  match p with
  | [] => n
  | x :: p' =>
      match n with
      | File _ => n
      | Dir es =>
          match p' with
          | [] => Dir (unlink x es)
          | _ :: _ =>
              match lookup x es with
              | Some c => Dir (update x (del p' c) es)
              | None => n
              end
          end
      end
  end.

Definition parent (p : path) : path := removelast p.
Definition basename (p : path) : string := last p EmptyString.

(** ** The world, exceptions and the monad *)

Inductive tty : Type :=
| Line (s : string)      (* a line typed at the prompt *)
| CtrlC.                 (* the interrupt key *)

Inductive root : Type := ScriptDir | Home.

Record world : Type := mkWorld {
  script_dir : node;
  home : node;
  script_dir_name : string;           (* str(script_dir), absolute *)
  home_name : string;                 (* str(Path.home()), absolute *)
  io_error : path -> option string;   (* refusals under home *)
  stdin : list tty;
  stdout : list string
}.

Definition set_home (h : node) (w : world) : world :=
  mkWorld (script_dir w) h (script_dir_name w) (home_name w)
          (io_error w) (stdin w) (stdout w).

Definition set_stdin (i : list tty) (w : world) : world :=
  mkWorld (script_dir w) (home w) (script_dir_name w) (home_name w)
          (io_error w) i (stdout w).

Definition set_stdout (o : list string) (w : world) : world :=
  mkWorld (script_dir w) (home w) (script_dir_name w) (home_name w)
          (io_error w) (stdin w) o.

Definition tree (r : root) (w : world) : node :=
  match r with ScriptDir => script_dir w | Home => home w end.

Inductive pyexn : Type :=
| SystemExit (code : nat)
| KeyboardInterrupt
| Exception (msg : string).   (* any subclass of Exception, as str(e) *)

Definition M (A : Type) : Type := world -> world * (A + pyexn).

Definition ret {A} (a : A) : M A := fun w => (w, inl a).

Definition bind {A B} (m : M A) (k : A -> M B) : M B :=
  fun w =>
    match m w with
    | (w', inl a) => k a w'
    | (w', inr e) => (w', inr e)
    end.

Definition raise {A} (e : pyexn) : M A := fun w => (w, inr e).

Definition gets {A} (f : world -> A) : M A := fun w => (w, inl (f w)).

Notation "x <- c1 ;; c2" := (bind c1 (fun x => c2))
  (at level 61, c1 at next level, right associativity).
Notation "c1 ;; c2" := (bind c1 (fun _ => c2))
  (at level 61, right associativity).

(** [try: ... except Exception as e: ...]: SystemExit and
    KeyboardInterrupt are not subclasses of Exception and pass through. *)
Definition try_except {A} (m : M A) (handler : string -> M A) : M A :=
  fun w =>
    match m w with
    | (w', inr (Exception msg)) => handler msg w'
    | r => r
    end.

Definition print (s : string) : M unit :=
  fun w => (set_stdout (stdout w ++ [s]) w, inl tt).

Definition sys_exit {A} (code : nat) : M A := raise (SystemExit code).

(** [input(prompt)]: the prompt is written, then a line is read.  The
    interrupt key raises KeyboardInterrupt, a closed terminal EOFError. *)
Definition input (prompt : string) : M string :=
  fun w =>
    let w' := set_stdout (stdout w ++ [prompt]) w in
    match stdin w with
    | [] => (w', inr (Exception "EOF when reading a line"))
    | Line s :: rest => (set_stdin rest w', inl s)
    | CtrlC :: rest => (set_stdin rest w', inr KeyboardInterrupt)
    end.

Fixpoint for_each {A} (l : list A) (body : A -> M unit) : M unit :=
  match l with
  | [] => ret tt
  | x :: l' => body x ;; for_each l' body
  end.

(** ** Strings *)

Definition lower_ascii (c : ascii) : ascii :=
  let n := nat_of_ascii c in
  if Nat.leb 65 n && Nat.leb n 90 then ascii_of_nat (n + 32) else c.

Fixpoint lower (s : string) : string :=
  match s with
  | EmptyString => EmptyString
  | String c s' => String (lower_ascii c) (lower s')
  end.

Definition str_nat (n : nat) : string :=
  NilZero.string_of_uint (Nat.to_uint n).

Fixpoint str_repeat (s : string) (n : nat) : string :=
  match n with
  | O => EmptyString
  | S n' => s ++ str_repeat s n'
  end.

(** [base / name] on absolute POSIX paths. *)
Definition joinpath (base name : string) : string :=
  if String.eqb base "/" then "/" ++ name else base ++ "/" ++ name.

Definition root_name (r : root) (w : world) : string :=
  match r with ScriptDir => script_dir_name w | Home => home_name w end.

Definition show_path (r : root) (p : path) (w : world) : string :=
  fold_left joinpath p (root_name r w).

Definition strerror (e : errno) : string :=
  match e with
  | ENOENT => "[Errno 2] No such file or directory"
  | EEXIST => "[Errno 17] File exists"
  | ENOTDIR => "[Errno 20] Not a directory"
  | EISDIR => "[Errno 21] Is a directory"
  end.

(** str(e) of an OSError raised for one path. *)
Definition os_error {A} (e : errno) (r : root) (p : path) : M A :=
  fun w => (w, inr (Exception (strerror e ++ ": '" ++ show_path r p w ++ "'"))).

(** ** File-system calls *)

Definition path_exists (r : root) (p : path) : M bool :=
  gets (fun w => is_some (get p (tree r w))).

Definition is_dir (r : root) (p : path) : M bool :=
  gets (fun w => node_is_dir (get p (tree r w))).

Definition is_file (r : root) (p : path) : M bool :=
  gets (fun w => node_is_file (get p (tree r w))).

(** [Path.iterdir()], as the names of the entries in listing order. *)
Definition iterdir (r : root) (p : path) : M (list string) :=
  fun w =>
    match get p (tree r w) with
    | Some (Dir es) => (w, inl (names es))
    | Some (File _) => os_error ENOTDIR r p w
    | None => os_error ENOENT r p w
    end.

Definition mkdir (p : path) : M unit :=
  fun w =>
    match mkdir_p p (home w) with
    | inl h => (set_home h w, inl tt)
    | inr e => os_error e Home p w
    end.

(** [shutil.copy2(src, dst)] from the script directory into the home
    directory.  A destination that is a directory receives the file
    under its own name.  The copy is the copy of the content: a file has
    no mode in this model, and a write that the oracle refuses is
    refused when the target is opened, before anything is written. *)
Definition copy2 (src dst : path) : M unit :=
  fun w =>
    match get src (script_dir w) with
    | None => os_error ENOENT ScriptDir src w
    | Some (Dir _) => os_error EISDIR ScriptDir src w
    | Some (File data) =>
        let dst' :=
          if node_is_dir (get dst (home w)) then (dst ++ [basename src])%list else dst in
        match get (parent dst') (home w) with
        | None => os_error ENOENT Home dst' w
        | Some (File _) => os_error ENOTDIR Home dst' w
        | Some (Dir _) =>
            if node_is_dir (get dst' (home w)) then os_error EISDIR Home dst' w
            else
              match io_error w dst' with
              | Some msg => (w, inr (Exception msg))
              | None => (set_home (put dst' (File data) (home w)) w, inl tt)
              end
        end
    end.

(** What [shutil.rmtree] does below and at the entry [n] that stands at
    [p]: the entries of a directory are deleted in the order of the
    listing, a directory after what it holds.  The first deletion that
    the oracle refuses ends the walk: the result is then the message and
    what is left of [n], in which everything deleted before the refusal
    is gone.  [None] says that the entry was deleted altogether. *)
Fixpoint wipe (io : path -> option string) (p : path) (n : node)
  : option (string * node) :=
  match n with
  | File _ =>
      match io p with
      | Some msg => Some (msg, n)
      | None => None
      end
  | Dir es =>
      let fix walk (es : dirents) : option (string * dirents) :=
        match es with
        | [] => None
        | (x, c) :: es' =>
            match wipe io (p ++ [x])%list c with
            | Some (msg, c') => Some (msg, (x, c') :: es')
            | None => walk es'
            end
        end in
      match walk es with
      | Some (msg, rest) => Some (msg, Dir rest)
      | None =>
          match io p with
          | Some msg => Some (msg, Dir [])
          | None => None
          end
      end
  end.

(** [shutil.rmtree(p)] under the home directory, [p] a [Path].  An error
    is raised as it comes, with what was deleted before it gone; for a
    regular file the error carries the [Path] itself, which str(e) shows
    as PosixPath('...'). *)
Definition rmtree (p : path) : M unit :=
  fun w =>
    match get p (home w) with
    | None => os_error ENOENT Home p w
    | Some (File _) =>
        (w, inr (Exception (strerror ENOTDIR ++ ": PosixPath('"
                              ++ show_path Home p w ++ "')")))
    | Some (Dir es) =>
        match wipe (io_error w) p (Dir es) with
        | Some (msg, rest) =>
            (set_home (put p rest (home w)) w, inr (Exception msg))
        | None => (set_home (del p (home w)) w, inl tt)
        end
    end.

(** [os.remove(p)] under the home directory. *)
Definition os_remove (p : path) : M unit :=
  fun w =>
    match get p (home w) with
    | None => os_error ENOENT Home p w
    | Some (Dir _) => os_error EISDIR Home p w
    | Some (File _) =>
        match io_error w p with
        | Some msg => (w, inr (Exception msg))
        | None => (set_home (del p (home w)) w, inl tt)
        end
    end.

(** How the interpreter ends: an exit status, or an exception that
    nobody caught, which the interpreter reports with a traceback. *)
Inductive ending : Type :=
| Exit (code : nat)
| Traceback (e : pyexn).

(** What the interpreter does with the module-level code of a script:
    falling off the end is status 0, [sys.exit(n)] is status [n], any
    other exception reaches the interpreter uncaught. *)
Definition interpreter (script : M unit) (w : world) : world * ending :=
  match script w with
  | (w', inl _) => (w', Exit 0)
  | (w', inr (SystemExit code)) => (w', Exit code)
  | (w', inr e) => (w', Traceback e)
  end.

Fixpoint filter_m {A} (keep : A -> M bool) (l : list A) : M (list A) :=
  match l with
  | [] => ret []
  | x :: l' =>
      b <- keep x ;;
      rest <- filter_m keep l' ;;
      ret (if b then x :: rest else rest)
  end.

Definition nl : string := String (ascii_of_nat 10) EmptyString.

(** ** install.py *)

Module Install.

Definition skills_source : path := ["skills"].         (* script_dir / "skills" *)
Definition claude_dir : path := [".claude"].           (* Path.home() / ".claude" *)
Definition skills_dest : path := [".claude"; "skills"].

(** The body of the installation loop (lines 61-77); [true] when the
    skill was counted as installed. *)
Definition install_skill (skill_dir : string) : M bool :=
  let src := (skills_source ++ [skill_dir])%list in
  has_skill_file <- path_exists ScriptDir (src ++ ["SKILL.md"])%list ;;
  if negb has_skill_file then
    print ("  ⚠ Skipping " ++ skill_dir ++ " (no SKILL.md)") ;;
    ret false
  else
    let dest_skill_dir := (skills_dest ++ [skill_dir])%list in
    mkdir dest_skill_dir ;;
    files <- iterdir ScriptDir src ;;
    for_each files (fun file =>
      regular <- is_file ScriptDir (src ++ [file])%list ;;
      if regular
      then copy2 (src ++ [file])%list (dest_skill_dir ++ [file])%list
      else ret tt) ;;
    print ("  + " ++ skill_dir) ;;
    ret true.

Fixpoint install_loop (skill_dirs : list string) (installed_count : nat)
  : M nat :=
  match skill_dirs with
  | [] => ret installed_count
  | skill_dir :: rest =>
      installed <- install_skill skill_dir ;;
      install_loop rest (if installed then S installed_count else installed_count)
  end.

(** Lines 46-57: the overwrite prompt. *)
Definition confirm_overwrite (existing_skills : list string) : M unit :=
  match existing_skills with
  | [] => ret tt
  | _ :: _ =>
      print (nl ++ "[WARNING] Found " ++ str_nat (List.length existing_skills)
                ++ " existing skills:") ;;
      for_each (firstn 10 existing_skills)
               (fun skill => print ("  ! " ++ skill)) ;;
      (if Nat.ltb 10 (List.length existing_skills)
       then print ("  ... and " ++ str_nat (List.length existing_skills - 10)
                       ++ " more")
       else ret tt) ;;
      response <- input (nl ++ "Overwrite existing skills? (y/N): ") ;;
      if negb (String.eqb (lower response) "y") then
        print "[CANCELLED] Installation cancelled." ;;
        print "Tip: Use uninstall script first to remove old skills." ;;
        sys_exit 0
      else ret tt
  end.

(** Lines 59-84: the loop and the closing messages. *)
Definition install_all (skill_dirs : list string) : M unit :=
  print (nl ++ "[INSTALL] Installing " ++ str_nat (List.length skill_dirs)
            ++ " skills:") ;;
  installed_count <- install_loop skill_dirs 0 ;;
  print (nl ++ "[SUCCESS] Installation complete! Installed "
            ++ str_nat installed_count ++ " skills.") ;;
  print (nl ++ "Usage:") ;;
  print "  1. Open Claude Code CLI" ;;
  print "  2. Type / to see available skills" ;;
  print "  3. Use /tdd-red-green, /ci-setup, /api-test-generate, etc." ;;
  print (nl ++ "Tip: With 46+ professional skills, Claude DevStudio will save you 8-10 hours per week!").

(** Lines 21-57: everything before the loop; the result is [skill_dirs]. *)
Definition plan : M (list string) :=
  print "Claude DevStudio Installer" ;;
  print (str_repeat "=" 40) ;;
  found <- path_exists ScriptDir skills_source ;;
  if negb found then
    shown <- gets (show_path ScriptDir skills_source) ;;
    print ("[ERROR] Skills directory not found at " ++ shown) ;;
    sys_exit 1
  else
    entries <- iterdir ScriptDir skills_source ;;
    skill_dirs <- filter_m (fun d => is_dir ScriptDir (skills_source ++ [d])%list)
                           entries ;;
    match skill_dirs with
    | [] =>
        shown <- gets (show_path ScriptDir skills_source) ;;
        print ("[ERROR] No skill directories found in " ++ shown) ;;
        sys_exit 1
    | _ :: _ =>
        mkdir skills_dest ;;
        shown <- gets (show_path Home skills_dest) ;;
        print ("[OK] Target directory: " ++ shown) ;;
        existing_skills <-
          filter_m (fun d => path_exists Home (skills_dest ++ [d])%list)
                   skill_dirs ;;
        confirm_overwrite existing_skills ;;
        ret skill_dirs
    end.

Definition main : M unit :=
  skill_dirs <- plan ;;
  install_all skill_dirs.

(** Lines 86-91: the [__main__] block. *)
Definition dunder_main : M unit :=
  try_except main
    (fun e => print (nl ++ "[ERROR] Installation failed: " ++ e) ;; sys_exit 1).

Definition run (w : world) : world * ending := interpreter dunder_main w.

End Install.

(** ** uninstall.py *)

Module Uninstall.

Definition claude_dir : path := [".claude"].
Definition skills_dir : path := [".claude"; "skills"].
Definition commands_dir : path := [".claude"; "commands"].
Definition cache_dir : path := [".claude"; ".ccplugins_cache"].
Definition backup_dir : path := [".claude"; ".ccplugins_backups"].

Definition skills : list string :=
  [ "cleanproject"; "commit"; "contributing"; "create-todos"; "docs";
    "explain-like-senior"; "find-todos"; "fix-imports"; "fix-todos";
    "format"; "implement"; "make-it-pretty"; "predict-issues"; "refactor";
    "remove-comments"; "review"; "scaffold"; "security-scan";
    "session-current"; "session-end"; "session-help"; "session-list";
    "session-resume"; "session-start"; "session-update"; "sessions-init";
    "test"; "todos-to-issues"; "understand"; "undo" ].

Definition legacy_commands : list string :=
  List.app (map (fun skill => skill ++ ".md") skills)
           ["cleanup-types.md"; "context-cache.md"].

(** Lines 62-64 and 69-71: how many of the names exist under [dir]. *)
Fixpoint count_existing (dir : path) (l : list string) (found : nat) : M nat :=
  match l with
  | [] => ret found
  | x :: l' =>
      present <- path_exists Home (dir ++ [x])%list ;;
      count_existing dir l' (if present then S found else found)
  end.

(** Lines 93-100: one round of the loop that removes skills. *)
Definition remove_skill (skill : string) (removed_skills : nat) : M nat :=
  let skill_path := (skills_dir ++ [skill])%list in
  present <- path_exists Home skill_path ;;
  if present then
    try_except
      (rmtree skill_path ;;
       print ("  - Removed skill: " ++ skill) ;;
       ret (S removed_skills))
      (fun e =>
         print ("  ! Failed to remove skill " ++ skill ++ ": " ++ e) ;;
         ret removed_skills)
  else ret removed_skills.

Fixpoint remove_skills (l : list string) (removed_skills : nat) : M nat :=
  match l with
  | [] => ret removed_skills
  | skill :: l' =>
      n <- remove_skill skill removed_skills ;;
      remove_skills l' n
  end.

(** Lines 106-113: one round of the loop that removes legacy commands. *)
Definition remove_command (cmd : string) (removed_legacy : nat) : M nat :=
  let cmd_path := (commands_dir ++ [cmd])%list in
  present <- path_exists Home cmd_path ;;
  if present then
    try_except
      (os_remove cmd_path ;;
       print ("  - Removed legacy command: " ++ cmd) ;;
       ret (S removed_legacy))
      (fun e =>
         print ("  ! Failed to remove " ++ cmd ++ ": " ++ e) ;;
         ret removed_legacy)
  else ret removed_legacy.

Fixpoint remove_commands (l : list string) (removed_legacy : nat) : M nat :=
  match l with
  | [] => ret removed_legacy
  | cmd :: l' =>
      n <- remove_command cmd removed_legacy ;;
      remove_commands l' n
  end.

(** Lines 115-127: the cache and the backups. *)
Definition clean_cache : M unit :=
  has_cache <- path_exists Home cache_dir ;;
  has_backup <- path_exists Home backup_dir ;;
  if has_cache || has_backup then
    response <- input (nl ++ "Also remove cache and backups? (y/N): ") ;;
    if String.eqb (lower response) "y" then
      (has_cache <- path_exists Home cache_dir ;;
       if has_cache
       then rmtree cache_dir ;; print "  - Removed cache directory"
       else ret tt) ;;
      (has_backup <- path_exists Home backup_dir ;;
       if has_backup
       then rmtree backup_dir ;; print "  - Removed backups directory"
       else ret tt)
    else ret tt
  else ret tt.

(** Lines 89-131: what follows an accepted confirmation. *)
Definition remove_all : M unit :=
  removed_skills <-
    (present <- path_exists Home skills_dir ;;
     if present then remove_skills skills 0 else ret 0) ;;
  removed_legacy <-
    (present <- path_exists Home commands_dir ;;
     if present then remove_commands legacy_commands 0 else ret 0) ;;
  clean_cache ;;
  print (nl ++ "[SUCCESS] Uninstalled " ++ str_nat removed_skills
            ++ " skills and " ++ str_nat removed_legacy
            ++ " legacy commands (" ++ str_nat (removed_skills + removed_legacy)
            ++ " total)") ;;
  print "Thanks for trying Claude DevStudio!".

Definition main : M unit :=
  print "Claude DevStudio Uninstaller" ;;
  print (str_repeat "=" 40) ;;
  installed_skills <-
    (present <- path_exists Home skills_dir ;;
     if present then count_existing skills_dir skills 0 else ret 0) ;;
  installed_legacy <-
    (present <- path_exists Home commands_dir ;;
     if present then count_existing commands_dir legacy_commands 0 else ret 0) ;;
  if Nat.eqb installed_skills 0 && Nat.eqb installed_legacy 0 then
    print "[INFO] No Claude DevStudio skills or commands found."
  else
    (if Nat.ltb 0 installed_skills
     then print ("[FOUND] " ++ str_nat installed_skills
                     ++ " Claude DevStudio skills (new format)")
     else ret tt) ;;
    (if Nat.ltb 0 installed_legacy
     then print ("[FOUND] " ++ str_nat installed_legacy
                     ++ " legacy command files (old format)")
     else ret tt) ;;
    response <-
      input (nl ++ "Remove all Claude DevStudio skills and commands? (y/N): ") ;;
    if negb (String.eqb (lower response) "y") then
      print "[CANCELLED] Uninstall cancelled."
    else remove_all.

(** Lines 133-139: the [__main__] block.  Neither handler sets an exit
    status. *)
Definition dunder_main : M unit :=
  fun w =>
    match main w with
    | (w', inr KeyboardInterrupt) =>
        print (nl ++ "[CANCELLED] Uninstall cancelled.") w'
    | (w', inr (Exception e)) =>
        print (nl ++ "[ERROR] Uninstall failed: " ++ e) w'
    | r => r
    end.

Definition run (w : world) : world * ending := interpreter dunder_main w.

End Uninstall.

(** ** Sample worlds *)

Definition no_io_error : path -> option string := fun _ => None.

Definition sample_world (src target : dirents) (keys : list tty) : world :=
  mkWorld (Dir [("install.py", File "#!/usr/bin/env python3");
                ("skills", Dir src)])
          (Dir [(".claude", Dir [("skills", Dir target)])])
          "/opt/claude-devstudio" "/home/user" no_io_error keys [].

Definition abc_source (sa sb extra : string) : dirents :=
  [ ("a", Dir [("SKILL.md", File sa)]);
    ("b", Dir [("SKILL.md", File sb); ("extra.txt", File extra)]);
    ("c", Dir []) ].

(** A home directory in which one path cannot be written. *)
Definition read_only (p : path) (msg : string) : path -> option string :=
  fun q => if list_eq_dec string_dec q p then Some msg else None.

(** ** Relations between worlds *)

(** [apart p q]: the two paths leave a common directory by different
    names, so neither is above the other. *)
Definition apart (p q : path) : Prop :=
  exists c x y p' q', x <> y /\ p = (c ++ x :: p')%list /\ q = (c ++ y :: q')%list.

(** [keeps P m]: however [m] ends, the world it leaves is related by [P]
    to the world it started in. *)
Definition keeps (P : world -> world -> Prop) {A} (m : M A) : Prop :=
  forall w w' r, m w = (w', r) -> P w w'.

(** [frame keep w w']: between [w] and [w'] the script directory and the
    oracle did not change, and neither did anything under the paths of
    the home directory selected by [keep]. *)
Definition frame (keep : path -> Prop) (w w' : world) : Prop :=
  script_dir w' = script_dir w /\
  script_dir_name w' = script_dir_name w /\
  home_name w' = home_name w /\
  io_error w' = io_error w /\
  forall p, keep p -> get p (home w') = get p (home w).

(** The entries of the target that belong to other skills than [s]. *)
Definition other_skills (s : string) (p : path) : Prop :=
  exists t q, t <> s /\ p = (Install.skills_dest ++ t :: q)%list.

(** ** Stages of an installation *)

(** The world after the two opening lines of the installer. *)
Definition banner (w : world) : world :=
  set_stdout (stdout w ++ ["Claude DevStudio Installer"; str_repeat "=" 40])%list w.

(** [skill_dirs]: the entries of the source listing [es] that are
    directories, in listing order. *)
Definition source_dirs (w : world) (es : dirents) : list string :=
  filter (fun d => node_is_dir (get (Install.skills_source ++ [d])%list (script_dir w)))
         (names es).

(** The source directory of skill [s] has no entry named SKILL.md. *)
Definition lacks_skill_file (s : string) (w : world) : Prop :=
  get (Install.skills_source ++ [s; "SKILL.md"])%list (script_dir w) = None.

(** The paths of the target at or below the directory of skill [s]. *)
Definition under_skill (s : string) (p : path) : Prop :=
  exists q, p = (Install.skills_dest ++ s :: q)%list.

(** The world after the line that opens the installation loop. *)
Definition loop_header (skill_dirs : list string) (w : world) : world :=
  set_stdout
    (stdout w ++ [(nl ++ "[INSTALL] Installing "
                      ++ str_nat (List.length skill_dirs) ++ " skills:")%string])%list
    w.

(** The entries of the target that belong to skills outside [l]. *)
Definition skills_outside (l : list string) (p : path) : Prop :=
  exists t q, ~ In t l /\ p = (Install.skills_dest ++ t :: q)%list.

(** [copied dest f data before after]: file [f] of an item arrived in the
    item's directory [dest].  As [shutil.copy2] has it, a directory that
    stood under the name of the file receives the file inside it. *)
Definition copied (dest : path) (f data : string) (before after : node) : Prop :=
  if node_is_dir (get (dest ++ [f])%list before)
  then get (dest ++ [f; f])%list after = Some (File data)
  else get (dest ++ [f])%list after = Some (File data).

(** How [shutil.rmtree(p)] fares in the world [w], in the words of the
    specification: Absent when nothing is at [p], Removed when what is
    there is deleted with all it holds, Failed when the deletion raises,
    with the message of the error and what is left at [p]. *)
Inductive outcome : Type :=
| Absent
| Removed
| Failed (msg : string) (rest : node).

Definition rmtree_outcome (p : path) (w : world) : outcome :=
  match get p (home w) with
  | None => Absent
  | Some (File d) =>
      Failed (strerror ENOTDIR ++ ": PosixPath('" ++ show_path Home p w ++ "')")
             (File d)
  | Some (Dir es) =>
      match wipe (io_error w) p (Dir es) with
      | Some (msg, rest) => Failed msg rest
      | None => Removed
      end
  end.

(** What is at the path after the deletion. *)
Definition left_by (o : outcome) : option node :=
  match o with
  | Failed _ rest => Some rest
  | _ => None
  end.

(** What the loop of the uninstaller does with the name [s] in world [w]:
    the world and the count after [remove_skill s n]. *)
Definition removal (s : string) (n : nat) (w : world) : world * nat :=
  let p := (Uninstall.skills_dir ++ [s])%list in
  let say (line : string) (v : world) := set_stdout (stdout v ++ [line])%list v in
  match rmtree_outcome p w with
  | Absent => (w, n)
  | Removed =>
      (say ("  - Removed skill: " ++ s) (set_home (del p (home w)) w), S n)
  | Failed msg rest =>
      (say ("  ! Failed to remove skill " ++ s ++ ": " ++ msg)
           (set_home (put p rest (home w)) w), n)
  end.

(** The lines that the loop prints for the name [s] found in the world
    [w]: none when the name is absent. *)
Definition skill_report (s : string) (w : world) : list string :=
  match rmtree_outcome (Uninstall.skills_dir ++ [s])%list w with
  | Absent => []
  | Removed => ["  - Removed skill: " ++ s]
  | Failed msg _ => ["  ! Failed to remove skill " ++ s ++ ": " ++ msg]
  end.

(** The name [s] is there and can be deleted. *)
Definition removed (w : world) (s : string) : bool :=
  match rmtree_outcome (Uninstall.skills_dir ++ [s])%list w with
  | Removed => true
  | _ => false
  end.

(** What no round of the loop undoes for the name [t]: a name that is
    absent stays absent. *)
Definition settled (t : string) (w w' : world) : Prop :=
  let p := (Uninstall.skills_dir ++ [t])%list in
  get p (home w) = None -> get p (home w') = None.

(** How many of the names [l] the uninstaller finds under [dir]. *)
Definition installed (dir : path) (l : list string) (w : world) : nat :=
  if is_some (get dir (home w))
  then List.length (filter (fun x => is_some (get (dir ++ [x])%list (home w))) l)
  else 0.

(** The paths at or below the directory of the skills. *)
Definition in_skills_dir (p : path) : Prop :=
  exists q, p = (Uninstall.skills_dir ++ q)%list.

(** [rmtree] has nothing to delete at [p], or deletes all that is there:
    it does not raise. *)
Definition clearable (p : path) (w : world) : Prop :=
  rmtree_outcome p w = Absent \/ rmtree_outcome p w = Removed.

(** The loop of the uninstaller can remove the name [t]: it is absent,
    or a directory in which no deletion is refused. *)
Definition removable_name (t : string) (w : world) : Prop :=
  clearable (Uninstall.skills_dir ++ [t])%list w.

(** The listed names can all be removed. *)
Definition removable (w : world) : Prop :=
  forall t, In t Uninstall.skills -> removable_name t w.

(** Two complete skills; [a] is installed already and its SKILL.md in the
    target is read-only. *)
Definition stuck_world : world :=
  mkWorld (Dir [("skills", Dir [("a", Dir [("SKILL.md", File "new a")]);
                                ("b", Dir [("SKILL.md", File "new b")])])])
          (Dir [(".claude", Dir [("skills",
                   Dir [("a", Dir [("SKILL.md", File "old a")])])])])
          "/opt/claude-devstudio" "/home/user"
          (read_only [".claude"; "skills"; "a"; "SKILL.md"]
                     "[Errno 13] Permission denied: '/home/user/.claude/skills/a/SKILL.md'")
          [Line "y"] [].

(** One skill with a name the uninstaller does not list, and a target
    that holds a directory of the user under a name it does list. *)
Definition unlisted_world : world :=
  sample_world [("tdd-red-green", Dir [("SKILL.md", File "tdd")])]
               [("commit", Dir [("notes.md", File "my own")])]
               [Line "y"].

(** A skill installed earlier with a file that the source no longer has. *)
Definition stale_world : world :=
  sample_world [("a", Dir [("SKILL.md", File "new")])]
               [("a", Dir [("SKILL.md", File "old"); ("stale.txt", File "left over")])]
               [Line "y"].

(** A skill of the list is installed and the terminal is closed. *)
Definition closed_terminal_world : world :=
  sample_world [] [("commit", Dir [("SKILL.md", File "commit")])] [].

(** A skill is installed already and the user presses the interrupt key
    at the prompt. *)
Definition interrupted_world : world :=
  sample_world [("a", Dir [("SKILL.md", File "new")])]
               [("a", Dir [("SKILL.md", File "old")])]
               [CtrlC].

(** The six orders in which three entries can be listed. *)
Definition orders3 {A} (x y z : A) : list (list A) :=
  [[x; y; z]; [x; z; y]; [y; x; z]; [y; z; x]; [z; x; y]; [z; y; x]].

(** A source directory that holds a file and no skill. *)
Definition readme_world : world :=
  mkWorld (Dir [("skills", Dir [("README.md", File "soon")])])
          (Dir []) "/opt/claude-devstudio" "/home/user" no_io_error [] [].

(** A skill is installed already and the user answers n. *)
Definition declined_world : world :=
  sample_world [("a", Dir [("SKILL.md", File "new")])]
               [("a", Dir [("SKILL.md", File "old")])]
               [Line "n"].

(** A skill of the list and a directory of the user are in the target,
    and the user answers Y. *)
Definition confirmed_world : world :=
  sample_world [] [("commit", Dir [("SKILL.md", File "commit")]);
                   ("mine", Dir [("SKILL.md", File "mine")])]
               [Line "Y"].

(** The target holds a skill that can be deleted, one in which the
    deletion of a file is refused after another file has been deleted,
    and a regular file under the name of a skill. *)
Definition mixed_world : world :=
  mkWorld (Dir [])
          (Dir [(".claude",
                 Dir [("skills",
                       Dir [("commit", Dir [("SKILL.md", File "c")]);
                            ("docs", Dir [("a.txt", File "1");
                                          ("locked", Dir [("b.txt", File "2")]);
                                          ("c.txt", File "3")]);
                            ("format", File "not a directory")])])])
          "/opt/claude-devstudio" "/home/user"
          (read_only [".claude"; "skills"; "docs"; "locked"; "b.txt"]
                     "[Errno 13] Permission denied: 'b.txt'")
          [] [].

(** ** Relations for the further properties *)

(** The paths of the home directory that do not lead into the target of
    the installer, and are not on the way to it. *)
Definition outside_target (q : path) : Prop := apart Install.skills_dest q.

(** [raises E m]: every exception that leaves [m] is one of [E]. *)
Definition raises (E : pyexn -> Prop) {A} (m : M A) : Prop :=
  forall w w' e, m w = (w', inr e) -> E e.

(** The exceptions that are not [sys.exit]. *)
Definition not_exit (e : pyexn) : Prop := forall code, e <> SystemExit code.

(** The exceptions that can leave [main] of the installer. *)
Definition installer_exn (e : pyexn) : Prop :=
  match e with
  | SystemExit code => code = 0 \/ code = 1
  | KeyboardInterrupt => True
  | Exception _ => True
  end.

(** The paths of the home directory that lead to nothing the uninstaller
    deletes: not to a listed skill, not to a listed command file, not to
    the cache and not to the backups. *)
Definition spared (q : path) : Prop :=
  (forall t, In t Uninstall.skills -> apart (Uninstall.skills_dir ++ [t])%list q) /\
  (forall c, In c Uninstall.legacy_commands ->
             apart (Uninstall.commands_dir ++ [c])%list q) /\
  apart Uninstall.cache_dir q /\
  apart Uninstall.backup_dir q.

(** What the uninstaller counts before it asks (lines 59-71). *)
Definition found (w : world) : nat * nat :=
  (installed Uninstall.skills_dir Uninstall.skills w,
   installed Uninstall.commands_dir Uninstall.legacy_commands w).

(** The regular files among the entries of a directory. *)
Definition regular (es : dirents) : dirents :=
  filter (fun e => match snd e with File _ => true | Dir _ => false end) es.

(** Where [shutil.copy2] puts the file [g] of an item whose directory in
    the target is [d]: under its name, or inside the directory that
    stands under its name. *)
Definition landing (d : path) (g : string) (h : node) : path :=
  if node_is_dir (get (d ++ [g])%list h)
  then ((d ++ [g]) ++ [g])%list else (d ++ [g])%list.

(** Every regular file of [files] is in its place under [d], and writing
    it again is not refused. *)
Definition in_place (d : path) (files : dirents) (v : world) : Prop :=
  forall g data, lookup g files = Some (File data) ->
    get (landing d g (home v)) (home v) = Some (File data) /\
    io_error v (landing d g (home v)) = None.

(** The entries of the directory [d] under other names than those of [l]. *)
Definition names_outside (d : path) (l : list string) (q : path) : Prop :=
  exists g q', ~ In g l /\ q = (d ++ g :: q')%list.

(** The target directory of the installer exists in both worlds, if it
    exists in the first. *)
Definition target_stays (v v' : world) : Prop :=
  (exists es, get Install.skills_dest (home v) = Some (Dir es)) ->
  exists es', get Install.skills_dest (home v') = Some (Dir es').

(** A skill whose installation has nothing left to do: it has no
    SKILL.md, or all its regular files are in place. *)
Definition settled_item (s : string) (v : world) : Prop :=
  lacks_skill_file s v \/
  exists files,
    get (Install.skills_source ++ [s; "SKILL.md"])%list (script_dir v) <> None /\
    get (Install.skills_source ++ [s])%list (script_dir v) = Some (Dir files) /\
    (exists cur, get (Install.skills_dest ++ [s])%list (home v) = Some (Dir cur)) /\
    in_place (Install.skills_dest ++ [s])%list files v.

(** In the source no directory lists a name twice. *)
Definition unique_names (w : world) : Prop :=
  forall s files,
    get (Install.skills_source ++ [s])%list (script_dir w) = Some (Dir files) ->
    NoDup (names files).

(** What the loop over the names [l] copies from [files]: the entries of
    [l] that are regular files, in the order of [l]. *)
Definition picked (files : dirents) (l : list string) : dirents :=
  flat_map (fun g => match lookup g files with
                     | Some (File data) => [(g, File data)]
                     | _ => []
                     end) l.

(** Skill [s] of the source has a SKILL.md. *)
Definition complete (w : world) (s : string) : bool :=
  is_some (get (Install.skills_source ++ [s; "SKILL.md"])%list (script_dir w)).

(** What a first installation leaves under the name of skill [s]: the
    regular files of the source item when it has a SKILL.md, and nothing
    when it has none. *)
Definition delivered (s : string) (w w' : world) : Prop :=
  forall files,
    get (Install.skills_source ++ [s])%list (script_dir w) = Some (Dir files) ->
    get (Install.skills_dest ++ [s])%list (home w')
    = if complete w s then Some (Dir (regular files)) else None.


(** What the loop of the uninstaller does with the command file [c] in
    world [w]: the world and the count after [remove_command c n]. *)
Definition command_removal (c : string) (n : nat) (w : world) : world * nat :=
  let p := (Uninstall.commands_dir ++ [c])%list in
  let say (line : string) (v : world) := set_stdout (stdout v ++ [line])%list v in
  match get p (home w) with
  | None => (w, n)
  | Some (File _) =>
      match io_error w p with
      | None =>
          (say ("  - Removed legacy command: " ++ c)
               (set_home (del p (home w)) w), S n)
      | Some msg => (say ("  ! Failed to remove " ++ c ++ ": " ++ msg) w, n)
      end
  | Some (Dir _) =>
      (say ("  ! Failed to remove " ++ c ++ ": " ++ strerror EISDIR
              ++ ": '" ++ show_path Home p w ++ "'") w, n)
  end.

(** The paths at or below [p]. *)
Definition below (p q : path) : Prop := exists r, q = (p ++ r)%list.

(** Lines 91-100 and 104-113: the two loops with their guards. *)
Definition skills_block : M nat :=
  present <- path_exists Home Uninstall.skills_dir ;;
  if present then Uninstall.remove_skills Uninstall.skills 0 else ret 0.

Definition commands_block : M nat :=
  present <- path_exists Home Uninstall.commands_dir ;;
  if present then Uninstall.remove_commands Uninstall.legacy_commands 0 else ret 0.

(** Lines 129-131: the summary. *)
Definition farewell (removed_skills removed_legacy : nat) : M unit :=
  print (nl ++ "[SUCCESS] Uninstalled " ++ str_nat removed_skills
            ++ " skills and " ++ str_nat removed_legacy
            ++ " legacy commands (" ++ str_nat (removed_skills + removed_legacy)
            ++ " total)")%string ;;
  print "Thanks for trying Claude DevStudio!".

(** The command file [c] is out of the way or can be deleted: nothing is
    there, or a regular file that the oracle does not refuse. *)
Definition goes (c : string) (w : world) : Prop :=
  let p := (Uninstall.commands_dir ++ [c])%list in
  get p (home w) = None \/
  ((exists d, get p (home w) = Some (File d)) /\ io_error w p = None).

(** The paths at or below the cache and the backups. *)
Definition cache_paths (q : path) : Prop :=
  below Uninstall.cache_dir q \/ below Uninstall.backup_dir q.

(** The question of line 119. *)
Definition cache_prompt : string := nl ++ "Also remove cache and backups? (y/N): ".

(** The cache or the backups are there: the condition of line 118. *)
Definition has_cache (w : world) : bool :=
  is_some (get Uninstall.cache_dir (home w))
  || is_some (get Uninstall.backup_dir (home w)).

(** No name occurs twice in [l]. *)
Fixpoint distinct (l : list string) : bool :=
  match l with
  | [] => true
  | x :: l' => negb (existsb (String.eqb x) l') && distinct l'
  end.

(** A home directory with one listed skill, three files of commands, of
    which one is listed, a directory under the name of a listed command
    file, the backups, and [cache] as the cache. *)
Definition legacy_world (cache : node) (keys : list tty) : world :=
  mkWorld (Dir [])
          (Dir [(".claude",
                 Dir [("skills", Dir [("commit", Dir [("SKILL.md", File "c")])]);
                      ("commands", Dir [("commit.md", File "old");
                                        ("review.md", Dir [("x", File "1")]);
                                        ("mine.md", File "keep")]);
                      (".ccplugins_cache", cache);
                      (".ccplugins_backups", Dir [])])])
          "/opt/claude-devstudio" "/home/user" no_io_error keys [].

(** A listed skill is there, and in the cache the deletion of the file
    [b] is refused; both questions are answered y. *)
Definition locked_cache_world : world :=
  mkWorld (Dir [])
          (Dir [(".claude",
                 Dir [("skills", Dir [("commit", Dir [])]);
                      (".ccplugins_cache", Dir [("a", File "1"); ("b", File "2");
                                                ("c", File "3")]);
                      (".ccplugins_backups", Dir [("old", File "o")])])])
          "/opt/claude-devstudio" "/home/user"
          (read_only [".claude"; ".ccplugins_cache"; "b"]
                     "[Errno 13] Permission denied: 'b'")
          [Line "y"; Line "y"] [].

(** A home directory with two listed skills and one listed command
    file, and nothing else. *)
Definition plain_world (keys : list tty) : world :=
  mkWorld (Dir [])
          (Dir [(".claude",
                 Dir [("skills", Dir [("commit", Dir [("SKILL.md", File "c")]);
                                      ("undo", Dir [])]);
                      ("commands", Dir [("commit.md", File "old")])])])
          "/opt/claude-devstudio" "/home/user" no_io_error keys [].

(** ** Facts about directories *)

Section Directories.

Local Open Scope list_scope.

Lemma lookup_update_same (x : string) (n : node) (es : dirents) :
  lookup x (update x n es) = Some n.
Proof.
  induction es as [|[y m] es IH]; simpl.
  - now rewrite String.eqb_refl.
  - destruct (String.eqb x y) eqn:E; simpl; rewrite E; auto.
Qed.

Lemma lookup_update_other (x y : string) (n : node) (es : dirents) :
  x <> y -> lookup y (update x n es) = lookup y es.
Proof.
  intros Hxy. induction es as [|[z m] es IH]; simpl.
  - apply String.eqb_neq in Hxy. rewrite String.eqb_sym in Hxy. now rewrite Hxy.
  - destruct (String.eqb x z) eqn:E; simpl.
    + apply String.eqb_eq in E. subst z.
      apply String.eqb_neq in Hxy. rewrite String.eqb_sym in Hxy. now rewrite Hxy.
    + now rewrite IH.
Qed.

Lemma update_lookup_id (x : string) (n : node) (es : dirents) :
  lookup x es = Some n -> update x n es = es.
Proof.
  induction es as [|[y m] es IH]; simpl; [discriminate|].
  destruct (String.eqb x y) eqn:E; intros H.
  - now inversion H.
  - now rewrite IH.
Qed.

Lemma lookup_unlink_same (x : string) (es : dirents) :
  lookup x (unlink x es) = None.
Proof.
  induction es as [|[y m] es IH]; simpl; auto.
  destruct (String.eqb x y) eqn:E; simpl; auto. now rewrite E.
Qed.

Lemma lookup_unlink_other (x y : string) (es : dirents) :
  x <> y -> lookup y (unlink x es) = lookup y es.
Proof.
  intros Hxy. induction es as [|[z m] es IH]; simpl; auto.
  destruct (String.eqb x z) eqn:E; simpl.
  - apply String.eqb_eq in E. subst z.
    apply String.eqb_neq in Hxy. rewrite String.eqb_sym in Hxy. now rewrite Hxy.
  - now rewrite IH.
Qed.

Lemma lookup_names (x : string) (es : dirents) :
  lookup x es <> None -> In x (names es).
Proof.
  induction es as [|[y m] es IH]; simpl; [congruence|].
  destruct (String.eqb x y) eqn:E; intros H.
  - apply String.eqb_eq in E. now left.
  - right. now apply IH.
Qed.

Lemma get_app (p q : path) (n : node) :
  get (p ++ q) n = match get p n with Some m => get q m | None => None end.
Proof.
  revert n. induction p as [|x p IH]; intros n; simpl; auto.
  destruct n as [d|es]; auto.
  destruct (lookup x es); auto.
Qed.

Lemma get_cons_nil (x : string) (q : path) : get (x :: q) (Dir []) = None.
Proof. reflexivity. Qed.

(** A directory that is there already is left alone by [mkdir_p]. *)
Lemma mkdir_p_present (p : path) (n : node) (es : dirents) :
  get p n = Some (Dir es) -> mkdir_p p n = inl n.
Proof.
  revert n. induction p as [|x p IH]; intros n H; simpl in *.
  - inversion H. reflexivity.
  - destruct n as [d|fs]; [discriminate|].
    destruct (lookup x fs) as [c|] eqn:L; [|discriminate].
    rewrite (IH _ H). now rewrite update_lookup_id.
Qed.

(** Otherwise the directory it creates is empty. *)
Lemma mkdir_p_fresh (p : path) (n n' : node) :
  mkdir_p p n = inl n' ->
  (get p n <> None /\ n' = n) \/ (get p n = None /\ get p n' = Some (Dir [])).
Proof.
  revert n n'. induction p as [|x p IH]; intros n n' H.
  - destruct n; simpl in H; [discriminate|]. inversion H. left. split; simpl; congruence.
  - destruct n as [d|fs]; simpl in H; [discriminate|].
    destruct (lookup x fs) as [c|] eqn:L.
    + destruct (mkdir_p p c) as [c'|e] eqn:Hm; [|discriminate].
      inversion H; subst n'. simpl. rewrite L, lookup_update_same.
      destruct (IH _ _ Hm) as [[Hg ->]|[Hg Hg']].
      * left. split; auto. now rewrite update_lookup_id.
      * right. auto.
    + destruct (mkdir_p p (Dir [])) as [c'|e] eqn:Hm; [|discriminate].
      inversion H; subst n'. right. simpl. rewrite L, lookup_update_same.
      split; auto.
      destruct (IH _ _ Hm) as [[Hg ->]|[Hg Hg']]; auto.
      destruct p; [reflexivity|]. now rewrite get_cons_nil in Hg.
Qed.

(** What happens on one branch of the tree is not seen from another. *)
Lemma get_mkdir_p_frame (c : path) (x y : string) (p q : path) (n n' : node) :
  x <> y ->
  mkdir_p (c ++ x :: p) n = inl n' ->
  get (c ++ y :: q) n' = get (c ++ y :: q) n.
Proof.
  intros Hxy. revert n n'. induction c as [|z c IH]; intros n n' H.
  - destruct n as [d|fs]; simpl in H; [discriminate|].
    destruct (mkdir_p p _) as [c'|e]; [|discriminate].
    inversion H; subst n'. simpl. now rewrite lookup_update_other.
  - destruct n as [d|fs]; simpl in H; [discriminate|].
    destruct (mkdir_p (c ++ x :: p) _) as [c'|e] eqn:Hm; [|discriminate].
    inversion H; subst n'. simpl. rewrite lookup_update_same.
    rewrite (IH _ _ Hm).
    destruct (lookup z fs); auto.
    destruct c; reflexivity.
Qed.

Lemma put_cons (z : string) (p : path) (new : node) (fs : dirents) :
  p <> [] ->
  put (z :: p) new (Dir fs) =
  match lookup z fs with
  | Some k => Dir (update z (put p new k) fs)
  | None => Dir fs
  end.
Proof. destruct p; [congruence|reflexivity]. Qed.

Lemma del_cons (z : string) (p : path) (fs : dirents) :
  p <> [] ->
  del (z :: p) (Dir fs) =
  match lookup z fs with
  | Some k => Dir (update z (del p k) fs)
  | None => Dir fs
  end.
Proof. destruct p; [congruence|reflexivity]. Qed.

Lemma app_cons_not_nil (c : path) (x : string) (p : path) : c ++ x :: p <> [].
Proof. destruct c; discriminate. Qed.

Lemma get_put_frame (c : path) (x y : string) (p q : path) (new n : node) :
  x <> y ->
  get (c ++ y :: q) (put (c ++ x :: p) new n) = get (c ++ y :: q) n.
Proof.
  intros Hxy. revert n. induction c as [|z c IH]; intros n.
  - destruct n as [d|fs]; simpl; auto.
    destruct p; simpl.
    + now rewrite lookup_update_other.
    + destruct (lookup x fs); simpl; auto. now rewrite lookup_update_other.
  - destruct n as [d|fs]; auto.
    rewrite <- !app_comm_cons, put_cons by apply app_cons_not_nil.
    destruct (lookup z fs) as [k|] eqn:L; auto.
    simpl. now rewrite lookup_update_same, L, IH.
Qed.

Lemma get_del_frame (c : path) (x y : string) (p q : path) (n : node) :
  x <> y ->
  get (c ++ y :: q) (del (c ++ x :: p) n) = get (c ++ y :: q) n.
Proof.
  intros Hxy. revert n. induction c as [|z c IH]; intros n.
  - destruct n as [d|fs]; simpl; auto.
    destruct p; simpl.
    + now rewrite lookup_unlink_other.
    + destruct (lookup x fs); simpl; auto. now rewrite lookup_update_other.
  - destruct n as [d|fs]; auto.
    rewrite <- !app_comm_cons, del_cons by apply app_cons_not_nil.
    destruct (lookup z fs) as [k|] eqn:L; auto.
    simpl. now rewrite lookup_update_same, L, IH.
Qed.

(** A written file is found where it was put. *)
Lemma get_put_same (c : path) (x : string) (new n : node) (es : dirents) :
  get c n = Some (Dir es) ->
  get (c ++ [x]) (put (c ++ [x]) new n) = Some new.
Proof.
  revert n. induction c as [|z c IH]; intros n H.
  - simpl in H. inversion H; subst n. simpl. now rewrite lookup_update_same.
  - destruct n as [d|fs]; [discriminate|]. simpl in H.
    destruct (lookup z fs) as [k|] eqn:L; [|discriminate].
    rewrite <- !app_comm_cons, put_cons by apply app_cons_not_nil.
    rewrite L. simpl. rewrite lookup_update_same. now apply IH.
Qed.

Lemma put_same (c : path) (x : string) (new n : node) :
  get (c ++ [x]) n = Some new -> put (c ++ [x]) new n = n.
Proof.
  revert n. induction c as [|z c IH]; intros n H.
  - destruct n as [d|es]; [discriminate|]. simpl in *.
    destruct (lookup x es) as [k|] eqn:L; [|discriminate].
    inversion H; subst. now rewrite update_lookup_id.
  - destruct n as [d|es]; [discriminate|].
    rewrite <- app_comm_cons in *. rewrite put_cons by apply app_cons_not_nil.
    simpl in H. destruct (lookup z es) as [k|] eqn:L; [|discriminate].
    rewrite (IH _ H). now rewrite update_lookup_id.
Qed.

(** A deleted entry is gone. *)
Lemma get_del_same (c : path) (x : string) (q : path) (n : node) :
  get (c ++ x :: q) (del (c ++ [x]) n) = None.
Proof.
  revert n. induction c as [|z c IH]; intros n.
  - destruct n as [d|fs]; simpl; auto. now rewrite lookup_unlink_same.
  - destruct n as [d|fs]; auto.
    rewrite <- !app_comm_cons, del_cons by apply app_cons_not_nil.
    destruct (lookup z fs) as [k|] eqn:L.
    + simpl. rewrite lookup_update_same. apply IH.
    + simpl. now rewrite L.
Qed.

End Directories.

(** ** Paths that part ways *)

Section Branches.

Local Open Scope list_scope.

Lemma apart_app (p q l : path) : apart p q -> apart (p ++ l) q.
Proof.
  intros (c & x & y & p' & q' & Hxy & -> & ->).
  exists c, x, y, (p' ++ l), q'. repeat split; auto.
  now rewrite <- app_assoc.
Qed.

Lemma apart_siblings (c : path) (x y : string) (p q : path) :
  x <> y -> apart (c ++ x :: p) (c ++ y :: q).
Proof. intros H. now exists c, x, y, p, q. Qed.

Lemma get_mkdir_p_apart (p q : path) (n n' : node) :
  apart p q -> mkdir_p p n = inl n' -> get q n' = get q n.
Proof.
  intros (c & x & y & p' & q' & Hxy & -> & ->). now apply get_mkdir_p_frame.
Qed.

Lemma get_put_apart (p q : path) (new n : node) :
  apart p q -> get q (put p new n) = get q n.
Proof.
  intros (c & x & y & p' & q' & Hxy & -> & ->). now apply get_put_frame.
Qed.

Lemma get_del_apart (p q : path) (n : node) :
  apart p q -> get q (del p n) = get q n.
Proof.
  intros (c & x & y & p' & q' & Hxy & -> & ->). now apply get_del_frame.
Qed.

End Branches.

(** ** Running the monad *)

Section Running.

Context {A B : Type}.

Lemma bind_ok (m : M A) (k : A -> M B) (w w' : world) (a : A) :
  m w = (w', inl a) -> bind m k w = k a w'.
Proof. unfold bind. now intros ->. Qed.

Lemma bind_raise (m : M A) (k : A -> M B) (w w' : world) (e : pyexn) :
  m w = (w', inr e) -> bind m k w = (w', inr e).
Proof. unfold bind. now intros ->. Qed.

Lemma bind_inv (m : M A) (k : A -> M B) (w w' : world) (r : B + pyexn) :
  bind m k w = (w', r) ->
  (exists w1 a, m w = (w1, inl a) /\ k a w1 = (w', r)) \/
  (exists e, m w = (w', inr e) /\ r = inr e).
Proof.
  unfold bind. destruct (m w) as [w1 [a|e]]; intros H.
  - left. now exists w1, a.
  - right. exists e. now inversion H.
Qed.

End Running.

Lemma filter_m_gets {A} (f : A -> world -> bool) (l : list A) (w : world) :
  filter_m (fun x => gets (f x)) l w = (w, inl (filter (fun x => f x w) l)).
Proof.
  induction l as [|x l IH]; simpl; auto.
  unfold bind at 1. unfold gets at 1. unfold bind at 1. rewrite IH.
  unfold ret. now destruct (f x w).
Qed.

Lemma for_each_print (f : string -> string) (l : list string) (w : world) :
  for_each l (fun s => print (f s)) w
  = (set_stdout (stdout w ++ map f l)%list w, inl tt).
Proof.
  revert w. induction l as [|x l IH]; intros w; simpl.
  - unfold ret. rewrite app_nil_r. now destruct w.
  - unfold bind, print at 1. rewrite IH. simpl.
    unfold set_stdout. simpl. now rewrite <- app_assoc.
Qed.

(** ** Relations that a computation keeps *)

Section Keeps.

Variable P : world -> world -> Prop.
Hypothesis P_refl : forall w, P w w.
Hypothesis P_trans : forall a b c, P a b -> P b c -> P a c.
Hypothesis P_stdout : forall w o, P w (set_stdout o w).
Hypothesis P_stdin : forall w i, P w (set_stdin i w).

Lemma keeps_ret {A} (a : A) : keeps P (ret a).
Proof. intros w w' r H. inversion H. apply P_refl. Qed.

Lemma keeps_raise {A} (e : pyexn) : keeps P (@raise A e).
Proof. intros w w' r H. inversion H. apply P_refl. Qed.

Lemma keeps_gets {A} (f : world -> A) : keeps P (gets f).
Proof. intros w w' r H. inversion H. apply P_refl. Qed.

Lemma keeps_os_error {A} (e : errno) (r : root) (p : path) :
  keeps P (@os_error A e r p).
Proof. intros w w' x H. inversion H. apply P_refl. Qed.

Lemma keeps_print (s : string) : keeps P (print s).
Proof. intros w w' r H. inversion H. apply P_stdout. Qed.

Lemma keeps_input (s : string) : keeps P (input s).
Proof.
  intros w w' r H. unfold input in H.
  destruct (stdin w) as [|[l|] rest]; inversion H;
    eauto using P_trans, P_stdout, P_stdin.
Qed.

Lemma keeps_bind {A B} (m : M A) (k : A -> M B) :
  keeps P m -> (forall a, keeps P (k a)) -> keeps P (bind m k).
Proof.
  intros Hm Hk w w' r H.
  destruct (bind_inv _ _ _ _ _ H) as [(w1 & a & H1 & H2)|(e & H1 & _)].
  - eapply P_trans; [eapply Hm|eapply Hk]; eauto.
  - eapply Hm; eauto.
Qed.

Lemma keeps_try_except {A} (m : M A) (h : string -> M A) :
  keeps P m -> (forall e, keeps P (h e)) -> keeps P (try_except m h).
Proof.
  intros Hm Hh w w' r H. unfold try_except in H.
  destruct (m w) as [w1 [a|[c| |msg]]] eqn:E;
    try (inversion H; subst; eapply Hm; eauto; fail).
  eapply P_trans; [eapply Hm|eapply Hh]; eauto.
Qed.

Lemma keeps_for_each {A} (l : list A) (body : A -> M unit) :
  (forall x, In x l -> keeps P (body x)) -> keeps P (for_each l body).
Proof.
  induction l as [|x l IH]; intros Hb; simpl.
  - apply keeps_ret.
  - apply keeps_bind; [apply Hb; now left|].
    intros _. apply IH. intros y Hy. apply Hb. now right.
Qed.

Lemma keeps_filter_m {A} (f : A -> M bool) (l : list A) :
  (forall x, keeps P (f x)) -> keeps P (filter_m f l).
Proof.
  intros Hf. induction l as [|x l IH]; simpl.
  - apply keeps_ret.
  - apply keeps_bind; [apply Hf|]. intros b.
    apply keeps_bind; [apply IH|]. intros rest. apply keeps_ret.
Qed.

End Keeps.

(** ** What a run leaves alone *)

Section Frame.

Variable keep : path -> Prop.

Lemma frame_refl (w : world) : frame keep w w.
Proof. repeat split. Qed.

Lemma frame_trans (a b c : world) :
  frame keep a b -> frame keep b c -> frame keep a c.
Proof.
  intros (H1 & H2 & H3 & H4 & H5) (K1 & K2 & K3 & K4 & K5).
  repeat split; try congruence.
  intros p Hp. rewrite K5, H5; auto.
Qed.

Lemma frame_stdout (w : world) (o : list string) : frame keep w (set_stdout o w).
Proof. repeat split. Qed.

Lemma frame_stdin (w : world) (i : list tty) : frame keep w (set_stdin i w).
Proof. repeat split. Qed.

Lemma frame_mkdir (p : path) :
  (forall q, keep q -> apart p q \/ exists x q', q = (p ++ x :: q')%list) ->
  keeps (frame keep) (mkdir p).
Proof.
  intros Hp w w' r H. unfold mkdir in H.
  destruct (mkdir_p p (home w)) as [h|e] eqn:E.
  - inversion H; subst. repeat split. simpl. intros q Hq.
    destruct (Hp q Hq) as [Ha|(x & q' & ->)].
    + eapply get_mkdir_p_apart; eauto.
    + destruct (mkdir_p_fresh _ _ _ E) as [[_ ->]|[Hn Hn']]; auto.
      now rewrite !get_app, Hn, Hn'.
  - inversion H; subst. apply frame_refl.
Qed.

Lemma frame_weaken (keep' : path -> Prop) (w w' : world) :
  (forall p, keep' p -> keep p) -> frame keep w w' -> frame keep' w w'.
Proof.
  intros Hsub (H1 & H2 & H3 & H4 & H5). repeat split; auto.
Qed.

Lemma frame_copy2 (src dst : path) :
  (forall q, keep q -> apart dst q) -> keeps (frame keep) (copy2 src dst).
Proof.
  intros Hp w w' r H. unfold copy2 in H.
  destruct (get src (script_dir w)) as [[data|es]|];
    try (inversion H; subst; apply frame_refl).
  set (dst' := if node_is_dir (get dst (home w))
               then (dst ++ [basename src])%list else dst) in H.
  assert (Hd : forall q, keep q -> apart dst' q).
  { intros q Hq. unfold dst'. destruct (node_is_dir _); auto using apart_app. }
  destruct (get (parent dst') (home w)) as [[d|es]|];
    try (inversion H; subst; apply frame_refl).
  destruct (node_is_dir (get dst' (home w)));
    try (inversion H; subst; apply frame_refl).
  destruct (io_error w dst');
    try (inversion H; subst; apply frame_refl).
  inversion H; subst. repeat split. simpl. intros q Hq.
  apply get_put_apart; auto.
Qed.

Lemma frame_rmtree (p : path) :
  (forall q, keep q -> apart p q) -> keeps (frame keep) (rmtree p).
Proof.
  intros Hp w w' r H. unfold rmtree in H.
  destruct (get p (home w)) as [[d|es]|];
    try (inversion H; subst; apply frame_refl).
  destruct (wipe (io_error w) p (Dir es)) as [[msg rest]|];
    inversion H; subst; repeat split; simpl; intros q Hq.
  - apply get_put_apart; auto.
  - apply get_del_apart; auto.
Qed.

Lemma frame_os_remove (p : path) :
  (forall q, keep q -> apart p q) -> keeps (frame keep) (os_remove p).
Proof.
  intros Hp w w' r H. unfold os_remove in H.
  destruct (get p (home w)) as [[d|es]|];
    try (inversion H; subst; apply frame_refl).
  destruct (io_error w p);
    try (inversion H; subst; apply frame_refl).
  inversion H; subst. repeat split. simpl. intros q Hq.
  apply get_del_apart; auto.
Qed.

Lemma frame_iterdir (r : root) (p : path) : keeps (frame keep) (iterdir r p).
Proof.
  intros w w' x H. unfold iterdir in H.
  destruct (get p (tree r w)) as [[d|es]|]; inversion H; subst; apply frame_refl.
Qed.

End Frame.

(** One step of a proof that a computation keeps a frame. *)
Ltac frame_step :=
  lazymatch goal with
  | |- keeps _ (if ?b then _ else _) => destruct b
  | |- keeps _ (match ?l with [] => _ | _ :: _ => _ end) => destruct l
  | |- keeps _ (bind _ _) =>
      apply keeps_bind; [apply frame_trans| |intros ?]
  | |- keeps _ (try_except _ _) =>
      apply keeps_try_except; [apply frame_trans| |intros ?]
  | |- keeps _ (for_each _ _) =>
      apply keeps_for_each; [apply frame_refl|apply frame_trans|intros ? ?]
  | |- keeps _ (filter_m _ _) =>
      apply keeps_filter_m; [apply frame_refl|apply frame_trans|intros ?]
  | |- keeps _ (ret _) => apply keeps_ret, frame_refl
  | |- keeps _ (raise _) => apply keeps_raise, frame_refl
  | |- keeps _ (sys_exit _) => apply keeps_raise, frame_refl
  | |- keeps _ (gets _) => apply keeps_gets, frame_refl
  | |- keeps _ (path_exists _ _) => apply keeps_gets, frame_refl
  | |- keeps _ (is_dir _ _) => apply keeps_gets, frame_refl
  | |- keeps _ (is_file _ _) => apply keeps_gets, frame_refl
  | |- keeps _ (print _) => apply keeps_print, frame_stdout
  | |- keeps _ (input _) =>
      apply keeps_input; [apply frame_trans|apply frame_stdout|apply frame_stdin]
  | |- keeps _ (iterdir _ _) => apply frame_iterdir
  | |- keeps _ (mkdir _) => apply frame_mkdir
  | |- keeps _ (copy2 _ _) => apply frame_copy2
  | |- keeps _ (rmtree _) => apply frame_rmtree
  | |- keeps _ (os_remove _) => apply frame_os_remove
  end.

Section InstallFrames.

Local Open Scope list_scope.

Lemma install_skill_frame (s : string) :
  keeps (frame (other_skills s)) (Install.install_skill s).
Proof.
  unfold Install.install_skill. repeat frame_step.
  - intros q (t & q' & Hne & ->). left.
    apply (apart_siblings Install.skills_dest s t []). congruence.
  - intros q (t & q' & Hne & ->).
    apply (apart_siblings Install.skills_dest s t [_]). congruence.
Qed.

End InstallFrames.

(** ** Stepping through a script *)

Section Steps.

Context {B : Type}.

Lemma bind_print (s : string) (k : unit -> M B) (w : world) :
  bind (print s) k w = k tt (set_stdout (stdout w ++ [s])%list w).
Proof. reflexivity. Qed.

Lemma bind_gets {A} (f : world -> A) (k : A -> M B) (w : world) :
  bind (gets f) k w = k (f w) w.
Proof. reflexivity. Qed.

Lemma bind_ret {A} (a : A) (k : A -> M B) (w : world) : bind (ret a) k w = k a w.
Proof. reflexivity. Qed.

Lemma bind_assoc {A C} (m : M A) (k : A -> M C) (k' : C -> M B) (w : world) :
  bind (bind m k) k' w = bind m (fun a => bind (k a) k') w.
Proof. unfold bind. destruct (m w) as [w' [a|e]]; reflexivity. Qed.

End Steps.

Ltac fields :=
  cbn [banner tree set_stdout set_stdin set_home script_dir home stdout stdin
       io_error script_dir_name home_name root_name
       negb is_some node_is_dir node_is_file fst snd] in *.

Lemma set_home_same (w : world) : set_home (home w) w = w.
Proof. now destruct w. Qed.

Section PlanFacts.

Local Open Scope list_scope.

Lemma lookup_in (x : string) (n : node) (es : dirents) :
  lookup x es = Some n -> In (x, n) es.
Proof.
  induction es as [|[y m] es IH]; simpl; [discriminate|].
  destruct (String.eqb x y) eqn:E; intros H.
  - apply String.eqb_eq in E. inversion H. subst. now left.
  - right. auto.
Qed.

Lemma get_child (c : path) (x : string) (n : node) (es : dirents) :
  get c n = Some (Dir es) -> get (c ++ [x]) n = lookup x es.
Proof.
  intros H. rewrite get_app, H. simpl. now destruct (lookup x es).
Qed.

Lemma get_child_dir (c : path) (x : string) (n : node) :
  get (c ++ [x]) n <> None -> exists es, get c n = Some (Dir es).
Proof.
  rewrite get_app. destruct (get c n) as [[d|es]|]; simpl; try congruence.
  intros _. now exists es.
Qed.

Lemma mkdir_present (p : path) (w : world) (es : dirents) :
  get p (home w) = Some (Dir es) -> mkdir p w = (w, inl tt).
Proof.
  intros H. unfold mkdir. rewrite (mkdir_p_present _ _ _ H).
  now rewrite set_home_same.
Qed.

(** Lines 21-33 of the installer, when the source directory is there. *)
Lemma plan_discovers (w : world) (es : dirents) :
  get Install.skills_source (script_dir w) = Some (Dir es) ->
  Install.plan w =
  match source_dirs w es with
  | [] =>
      (set_stdout (stdout (banner w) ++
         [("[ERROR] No skill directories found in "
            ++ show_path ScriptDir Install.skills_source w)%string]) (banner w),
       inr (SystemExit 1))
  | d :: ds =>
      (mkdir Install.skills_dest ;;
       shown <- gets (show_path Home Install.skills_dest) ;;
       print ("[OK] Target directory: " ++ shown)%string ;;
       existing_skills <-
         filter_m (fun d => path_exists Home (Install.skills_dest ++ [d])) (d :: ds) ;;
       Install.confirm_overwrite existing_skills ;;
       ret (d :: ds)) (banner w)
  end.
Proof.
  intros H. unfold Install.plan, path_exists, is_dir.
  rewrite !bind_print, bind_gets. fields. rewrite H. fields.
  unfold bind at 1. unfold iterdir at 1. fields. rewrite H.
  unfold bind at 1. rewrite filter_m_gets. fields.
  fold (source_dirs w es).
  destruct (source_dirs w es) as [|d ds].
  - rewrite bind_gets, bind_print. unfold sys_exit, raise, banner. fields.
    now rewrite <- !app_assoc.
  - unfold banner. now rewrite <- app_assoc.
Qed.

Lemma source_dirs_spec (w : world) (es : dirents) (d : string) :
  get Install.skills_source (script_dir w) = Some (Dir es) ->
  In d (source_dirs w es) <-> In d (names es) /\ node_is_dir (lookup d es) = true.
Proof.
  intros H. unfold source_dirs. rewrite filter_In.
  now rewrite (get_child _ _ _ _ H).
Qed.

End PlanFacts.

Section ConfirmFacts.

Local Open Scope list_scope.

Lemma confirm_decline (existing : list string) (w : world) (r : string)
      (rest : list tty) :
  existing <> [] ->
  stdin w = Line r :: rest ->
  lower r <> "y"%string ->
  exists out,
    Install.confirm_overwrite existing w
    = (set_stdin rest (set_stdout (stdout w ++ out) w), inr (SystemExit 0)) /\
    In "[CANCELLED] Installation cancelled."%string out.
Proof.
  intros Hne Hin Hr. destruct existing as [|e0 es]; [congruence|].
  unfold Install.confirm_overwrite.
  rewrite bind_print.
  rewrite (bind_ok _ _ _ _ _ (for_each_print _ _ _)).
  set (more := if Nat.ltb 10 (List.length (e0 :: es)) then _ else _).
  assert (Hmore : exists l, forall v, more v = (set_stdout (stdout v ++ l) v, inl tt)).
  { unfold more. destruct (Nat.ltb _ _).
    - eexists [_]. reflexivity.
    - exists []. intros v. unfold ret. rewrite app_nil_r. now destruct v. }
  destruct Hmore as [l Hl].
  rewrite (bind_ok _ _ _ _ _ (Hl _)).
  unfold bind at 1. unfold input. fields. rewrite Hin.
  apply String.eqb_neq in Hr. rewrite Hr. fields.
  rewrite !bind_print. unfold sys_exit, raise. fields.
  eexists. rewrite <- !app_assoc. split; [reflexivity|].
  rewrite !in_app_iff. simpl. intuition.
Qed.

End ConfirmFacts.

Section SkipFacts.

Local Open Scope list_scope.

Variable s : string.

Lemma install_skill_skips (w : world) :
  lacks_skill_file s w ->
  Install.install_skill s w
  = (set_stdout (stdout w ++ [("  ⚠ Skipping " ++ s ++ " (no SKILL.md)")%string]) w,
     inl false).
Proof.
  unfold lacks_skill_file, Install.install_skill, path_exists. intros H.
  rewrite bind_gets. fields.
  change ((Install.skills_source ++ [s]) ++ ["SKILL.md"]%string)
    with (Install.skills_source ++ [s; "SKILL.md"%string]).
  now rewrite H.
Qed.




Lemma plan_leaves : keeps (frame (under_skill s)) Install.plan.
Proof.
  unfold Install.plan, Install.confirm_overwrite. repeat frame_step.
  intros q (q' & ->). right. now exists s, q'.
Qed.




End SkipFacts.

Section LoopFacts.

Local Open Scope list_scope.

Lemma install_loop_app (l1 l2 : list string) (n : nat) (w : world) :
  Install.install_loop (l1 ++ l2) n w =
  match Install.install_loop l1 n w with
  | (w1, inl n1) => Install.install_loop l2 n1 w1
  | (w1, inr e) => (w1, inr e)
  end.
Proof.
  revert n w. induction l1 as [|t l1 IH]; intros n w; simpl; auto.
  unfold bind. destruct (Install.install_skill t w) as [w1 [b|e]]; auto.
Qed.

Lemma install_loop_frame (l : list string) (n : nat) :
  keeps (frame (skills_outside l)) (Install.install_loop l n).
Proof.
  revert n. induction l as [|t l IH]; intros n; simpl.
  - frame_step.
  - apply keeps_bind; [apply frame_trans| |intros b].
    + intros w w' r H.
      apply (frame_weaken (other_skills t)); [|eapply install_skill_frame; eauto].
      intros p (u & q & Hu & ->). exists u, q. split; auto.
      intros ->. apply Hu. now left.
    + intros w w' r H.
      apply (frame_weaken (skills_outside l)); [|eapply IH; eauto].
      intros p (u & q & Hu & ->). exists u, q. split; auto.
      intros Hin. apply Hu. now right.
Qed.

End LoopFacts.

Section CopyFacts.

Local Open Scope list_scope.

Lemma copy2_ok (src d : path) (f : string) (v v' : world) :
  copy2 src (d ++ [f]) v = (v', inl tt) ->
  exists data c x,
    get src (script_dir v) = Some (File data) /\
    (exists es, get c (home v) = Some (Dir es)) /\
    v' = set_home (put (c ++ [x]) (File data) (home v)) v /\
    ((node_is_dir (get (d ++ [f]) (home v)) = false /\ c = d /\ x = f) \/
     (node_is_dir (get (d ++ [f]) (home v)) = true /\ c = d ++ [f] /\
      x = basename src)).
Proof.
  unfold copy2. intros H.
  destruct (get src (script_dir v)) as [[data|es]|]; try discriminate.
  exists data.
  destruct (node_is_dir (get (d ++ [f]) (home v))) eqn:Hd.
  - unfold parent in H. rewrite removelast_last in H.
    destruct (get (d ++ [f]) (home v)) as [[x|es]|] eqn:Hp; try discriminate.
    destruct (node_is_dir (get ((d ++ [f]) ++ [basename src]) (home v)));
      try discriminate.
    destruct (io_error v _); try discriminate.
    inversion H. exists (d ++ [f]), (basename src).
    split; [reflexivity|]. split; [eauto|]. split; [reflexivity|]. right. auto.
  - unfold parent in H. rewrite removelast_last in H.
    destruct (get d (home v)) as [[x|es]|] eqn:Hp; try discriminate.
    rewrite Hd in H.
    destruct (io_error v _); try discriminate.
    inversion H. exists d, f.
    split; [reflexivity|]. split; [eauto|]. split; [reflexivity|]. left. auto.
Qed.

(** Writing below a directory leaves it a directory. *)
Lemma put_keeps_dir (c : path) (x : string) (p : path) (new n : node) (es : dirents) :
  get c n = Some (Dir es) ->
  exists es', get c (put (c ++ x :: p) new n) = Some (Dir es').
Proof.
  revert n. induction c as [|z c IH]; intros n H.
  - simpl in H. inversion H; subst n. simpl.
    destruct p; [eauto|]. destruct (lookup x es); eauto.
  - destruct n as [d|fs]; [discriminate|]. simpl in H.
    destruct (lookup z fs) as [k|] eqn:L; [|discriminate].
    rewrite <- app_comm_cons, put_cons by apply app_cons_not_nil.
    rewrite L. simpl. rewrite lookup_update_same. now apply IH.
Qed.

Section OneItem.

Variables (src dest : path) (files : dirents).

Let body : string -> M unit := fun file =>
  regular <- is_file ScriptDir (src ++ [file]) ;;
  if regular then copy2 (src ++ [file]) (dest ++ [file]) else ret tt.

Lemma copy_files_spec (l : list string) (v v' : world) :
  NoDup l ->
  get src (script_dir v) = Some (Dir files) ->
  (exists cur, get dest (home v) = Some (Dir cur)) ->
  for_each l body v = (v', inl tt) ->
  script_dir v' = script_dir v /\
  stdout v' = stdout v /\
  (exists cur', get dest (home v') = Some (Dir cur')) /\
  (forall f data, In f l -> lookup f files = Some (File data) ->
     copied dest f data (home v) (home v')) /\
  (forall f q, ~ In f l \/ node_is_file (lookup f files) = false ->
     get (dest ++ f :: q) (home v') = get (dest ++ f :: q) (home v)).
Proof.
  revert v. induction l as [|g l IH]; intros v Hnd Hsrc Hdest H.
  - inversion H; subst. repeat split; auto. intros f data [].
  - simpl in H. inversion Hnd as [|? ? Hg Hnd']; subst.
    destruct (bind_inv _ _ _ _ _ H) as [(v1 & [] & H1 & H2)|(e & _ & He)];
      [|discriminate].
    unfold body in H1. unfold is_file in H1. rewrite bind_gets in H1. fields.
    rewrite (get_child _ _ _ _ Hsrc) in H1.
    destruct (node_is_file (lookup g files)) eqn:Hfile.
    + destruct (copy2_ok _ _ _ _ _ H1) as (data & c & x & Hdata & [es Hc] & -> & Hcase).
      rewrite (get_child _ _ _ _ Hsrc) in Hdata.
      assert (Hfr : forall f q, f <> g ->
                 get (dest ++ f :: q) (put (c ++ [x]) (File data) (home v))
                 = get (dest ++ f :: q) (home v)).
      { intros f q Hne. apply get_put_apart.
        destruct Hcase as [(_ & -> & ->)|(_ & -> & ->)].
        - apply apart_siblings. congruence.
        - rewrite <- app_assoc. apply apart_siblings. congruence. }
      assert (Hdest1 : exists cur1,
                 get dest (put (c ++ [x]) (File data) (home v)) = Some (Dir cur1)).
      { destruct Hdest as [cur Hcur].
        destruct Hcase as [(_ & -> & ->)|(_ & -> & ->)].
        - eapply put_keeps_dir; eauto.
        - rewrite <- app_assoc. eapply put_keeps_dir; eauto. }
      destruct (IH (set_home (put (c ++ [x]) (File data) (home v)) v)
                   Hnd' Hsrc Hdest1 H2) as (I1 & I0 & I2 & I3 & I4). fields.
      repeat split; auto.
      * intros f d [<-|Hin] Hf.
        -- rewrite Hdata in Hf. inversion Hf; subst d. unfold copied.
           destruct Hcase as [(Hd & -> & ->)|(Hd & -> & ->)]; rewrite Hd.
           ++ rewrite (I4 g [] (or_introl Hg)). eapply get_put_same; eauto.
           ++ rewrite (I4 g [g] (or_introl Hg)).
              unfold basename. rewrite last_last.
              change (dest ++ [g; g]) with (dest ++ [g] ++ [g]). rewrite app_assoc.
              eapply get_put_same; eauto.
        -- assert (f <> g) by (intros ->; contradiction).
           pose proof (I3 f d Hin Hf) as Hc3. unfold copied in *.
           now rewrite (Hfr f [] H0) in Hc3.
      * intros f q Hf. rewrite I4.
        -- apply Hfr. destruct Hf as [Hf|Hf]; [intros ->; apply Hf; now left|].
           intros ->. congruence.
        -- destruct Hf as [Hf|Hf]; auto. left. intros Hin. apply Hf. now right.
    + inversion H1; subst v1.
      destruct (IH _ Hnd' Hsrc Hdest H2) as (I1 & I0 & I2 & I3 & I4).
      repeat split; auto.
      * intros f d [<-|Hin] Hf; [|eauto].
        rewrite Hf in Hfile. discriminate.
      * intros f q Hf. apply I4. destruct Hf as [Hf|Hf]; auto.
        destruct (string_dec f g) as [->|Hne]; auto.
        left. intros Hin. apply Hf. now right.
Qed.

End OneItem.
End CopyFacts.

Section RemoveFacts.

Local Open Scope list_scope.

Lemma outcome_absent (p : path) (w : world) :
  rmtree_outcome p w = Absent <-> get p (home w) = None.
Proof.
  unfold rmtree_outcome.
  destruct (get p (home w)) as [[d|es]|]; [| |tauto];
    try destruct (wipe _ _ _) as [[msg rest]|];
    split; intros H; discriminate H.
Qed.

(** [rmtree] on an entry of a directory, by its outcome. *)
Lemma rmtree_outcome_run (c : path) (x : string) (w : world) :
  rmtree (c ++ [x]) w
  = match rmtree_outcome (c ++ [x]) w with
    | Absent => os_error ENOENT Home (c ++ [x]) w
    | Removed => (set_home (del (c ++ [x]) (home w)) w, inl tt)
    | Failed msg rest =>
        (set_home (put (c ++ [x]) rest (home w)) w, inr (Exception msg))
    end.
Proof.
  unfold rmtree, rmtree_outcome.
  destruct (get (c ++ [x]) (home w)) as [[d|es]|] eqn:E; [| |reflexivity].
  - now rewrite (put_same c x (File d) (home w) E), set_home_same.
  - destruct (wipe (io_error w) (c ++ [x]) (Dir es)) as [[msg rest]|]; reflexivity.
Qed.

(** What is at the path after [rmtree]. *)
Lemma get_after_outcome (c : path) (x : string) (w : world) :
  match rmtree_outcome (c ++ [x]) w with
  | Absent => get (c ++ [x]) (home w) = None
  | Removed => get (c ++ [x]) (del (c ++ [x]) (home w)) = None
  | Failed msg rest => get (c ++ [x]) (put (c ++ [x]) rest (home w)) = Some rest
  end.
Proof.
  destruct (rmtree_outcome (c ++ [x]) w) as [| |msg rest] eqn:O.
  - now apply outcome_absent.
  - exact (get_del_same c x [] (home w)).
  - assert (Hp : get (c ++ [x]) (home w) <> None).
    { intros E. apply outcome_absent in E. congruence. }
    destruct (get_child_dir c x (home w) Hp) as [es Hes].
    exact (get_put_same c x rest (home w) es Hes).
Qed.

(** The outcome depends on what is at the path, on the oracle and on
    the name of the home directory only. *)
Lemma outcome_same (p : path) (w w1 : world) :
  get p (home w1) = get p (home w) ->
  io_error w1 = io_error w ->
  home_name w1 = home_name w ->
  rmtree_outcome p w1 = rmtree_outcome p w.
Proof.
  intros Hg Hio Hn. unfold rmtree_outcome, show_path. cbn [root_name].
  now rewrite Hg, Hio, Hn.
Qed.

Lemma remove_skill_removal (s : string) (n : nat) (w : world) :
  Uninstall.remove_skill s n w
  = (fst (removal s n w), inl (snd (removal s n w))).
Proof.
  unfold Uninstall.remove_skill, path_exists. rewrite bind_gets. fields.
  unfold removal. cbv zeta.
  destruct (get (Uninstall.skills_dir ++ [s]) (home w)) as [k|] eqn:E.
  - cbn [is_some]. unfold try_except, bind at 1.
    rewrite (rmtree_outcome_run Uninstall.skills_dir s w).
    destruct (rmtree_outcome (Uninstall.skills_dir ++ [s]) w) as [| |msg rest] eqn:O.
    + apply outcome_absent in O. congruence.
    + reflexivity.
    + reflexivity.
  - cbn [is_some]. apply outcome_absent in E. now rewrite E.
Qed.

Lemma removal_frame (s : string) (n : nat) (w : world) :
  frame (other_skills s) w (fst (removal s n w)).
Proof.
  unfold removal. cbv zeta.
  destruct (rmtree_outcome (Uninstall.skills_dir ++ [s]) w) as [| |msg rest];
    [apply frame_refl| |];
    repeat split; fields; intros p (t & q & Hne & ->).
  - apply get_del_apart.
    apply (apart_siblings Install.skills_dest s t [] q). congruence.
  - apply get_put_apart.
    apply (apart_siblings Install.skills_dest s t [] q). congruence.
Qed.

Lemma removal_stdin (s : string) (n : nat) (w : world) :
  stdin (fst (removal s n w)) = stdin w.
Proof.
  unfold removal. cbv zeta.
  now destruct (rmtree_outcome (Uninstall.skills_dir ++ [s]) w).
Qed.

(** What one round of the loop prints, counts and leaves. *)
Lemma removal_report (s : string) (n : nat) (w : world) :
  stdout (fst (removal s n w)) = stdout w ++ skill_report s w.
Proof.
  unfold removal, skill_report. cbv zeta.
  destruct (rmtree_outcome (Uninstall.skills_dir ++ [s]) w); fields; auto.
  now rewrite app_nil_r.
Qed.

Lemma removal_count (s : string) (n : nat) (w : world) :
  snd (removal s n w) = if removed w s then S n else n.
Proof.
  unfold removal, removed. cbv zeta.
  now destruct (rmtree_outcome (Uninstall.skills_dir ++ [s]) w).
Qed.

Lemma removal_left (s : string) (n : nat) (w : world) :
  get (Uninstall.skills_dir ++ [s]) (home (fst (removal s n w)))
  = left_by (rmtree_outcome (Uninstall.skills_dir ++ [s]) w).
Proof.
  pose proof (get_after_outcome Uninstall.skills_dir s w) as H.
  unfold removal. cbv zeta.
  destruct (rmtree_outcome (Uninstall.skills_dir ++ [s]) w); exact H.
Qed.

(** A round of the loop makes no difference to the other names. *)
Lemma removal_other (s t : string) (n : nat) (w : world) :
  t <> s ->
  rmtree_outcome (Uninstall.skills_dir ++ [t]) (fst (removal s n w))
  = rmtree_outcome (Uninstall.skills_dir ++ [t]) w.
Proof.
  intros Hne. destruct (removal_frame s n w) as (_ & _ & Hn & Hio & F).
  apply outcome_same; auto. apply F. now exists t, [].
Qed.

Lemma removal_stdout (s : string) (n : nat) (w : world) (line : string) :
  In line (stdout w) -> In line (stdout (fst (removal s n w))).
Proof.
  intros H. rewrite removal_report. apply in_or_app. now left.
Qed.

Lemma removal_settled (s t : string) (n : nat) (w : world) :
  settled t w (fst (removal s n w)).
Proof.
  unfold settled. cbv zeta. intros Hnone.
  destruct (string_dec t s) as [->|Hne].
  - rewrite removal_left. apply outcome_absent in Hnone. now rewrite Hnone.
  - destruct (removal_frame s n w) as (_ & _ & _ & _ & F).
    rewrite F by (now exists t, []). exact Hnone.
Qed.

(** The loop never raises, and it settles nothing back. *)
Lemma remove_skills_effect (l : list string) (n : nat) (w : world) :
  exists w' n',
    Uninstall.remove_skills l n w = (w', inl n') /\
    frame (skills_outside l) w w' /\
    (forall line, In line (stdout w) -> In line (stdout w')) /\
    (forall t, settled t w w').
Proof.
  revert n w. induction l as [|s l IH]; intros n w.
  - exists w, n. repeat split; auto. intros t H. exact H.
  - destruct (IH (snd (removal s n w)) (fst (removal s n w)))
      as (w' & n' & Hrun & Hf & Hout & Hset).
    exists w', n'. split; [|split; [|split]].
    + simpl. now rewrite (bind_ok _ _ _ _ _ (remove_skill_removal s n w)).
    + eapply frame_trans.
      * apply (frame_weaken (other_skills s)); [|apply removal_frame].
        intros p (u & q & Hu & ->). exists u, q. split; auto.
        intros ->. apply Hu. now left.
      * apply (frame_weaken (skills_outside l)); [|exact Hf].
        intros p (u & q & Hu & ->). exists u, q. split; auto.
        intros Hin. apply Hu. now right.
    + intros line Hl. now apply Hout, removal_stdout.
    + intros t H. apply (Hset t), (removal_settled s t n w), H.
Qed.

Lemma flat_map_same {A B} (f g : A -> list B) (l : list A) :
  (forall x, In x l -> f x = g x) -> flat_map f l = flat_map g l.
Proof.
  induction l as [|x l IH]; intros H; simpl; auto.
  rewrite (H x) by (now left). f_equal. apply IH. intros y Hy. apply H. now right.
Qed.

(** The loop over names that are all different: every name is dealt
    with in the state the loop found it in. *)
Lemma remove_skills_distinct (l : list string) (n : nat) (w : world) :
  NoDup l ->
  exists w',
    Uninstall.remove_skills l n w
    = (w', inl (n + List.length (filter (removed w) l))) /\
    stdout w' = stdout w ++ flat_map (fun s => skill_report s w) l /\
    forall s, In s l ->
      get (Uninstall.skills_dir ++ [s]) (home w')
      = left_by (rmtree_outcome (Uninstall.skills_dir ++ [s]) w).
Proof.
  revert n w. induction l as [|s l IH]; intros n w Hnd.
  - exists w. simpl. rewrite Nat.add_0_r, app_nil_r.
    repeat split. intros s [].
  - inversion Hnd as [|? ? Hs Hnd']; subst.
    destruct (IH (snd (removal s n w)) (fst (removal s n w)) Hnd')
      as (w' & Hrun & Hout & Hleft).
    assert (Hother : forall t, In t l ->
      rmtree_outcome (Uninstall.skills_dir ++ [t]) (fst (removal s n w))
      = rmtree_outcome (Uninstall.skills_dir ++ [t]) w).
    { intros t Ht. apply removal_other. intros ->. contradiction. }
    exists w'. split; [|split].
    + cbn [Uninstall.remove_skills].
      rewrite (bind_ok _ _ _ _ _ (remove_skill_removal s n w)), Hrun.
      do 2 f_equal. rewrite removal_count. cbn [filter].
      rewrite (filter_ext_in (removed (fst (removal s n w))) (removed w))
        by (intros t Ht; unfold removed; now rewrite Hother).
      destruct (removed w s); cbn [Datatypes.length]; lia.
    + rewrite Hout, removal_report, <- app_assoc. f_equal.
      cbn [flat_map]. f_equal.
      apply flat_map_same. intros t Ht. unfold skill_report.
      now rewrite Hother.
    + intros t [<-|Ht].
      * rewrite <- removal_left with (n := n).
        pose proof (remove_skills_effect l (snd (removal s n w))
                      (fst (removal s n w))) as (w2 & n2 & Hrun2 & F & _).
        rewrite Hrun in Hrun2. inversion Hrun2; subst w2.
        destruct F as (_ & _ & _ & _ & F). apply F. now exists s, [].
      * rewrite (Hleft t Ht). now rewrite Hother.
Qed.

End RemoveFacts.

Section RemoveLoop.

Local Open Scope list_scope.

Lemma removal_clears (s : string) (n : nat) (w : world) :
  removable_name s w ->
  get (Uninstall.skills_dir ++ [s]) (home (fst (removal s n w))) = None.
Proof.
  intros Hr. rewrite removal_left. now destruct Hr as [-> | ->].
Qed.

Lemma removal_removable (s t : string) (n : nat) (w : world) :
  removable_name t w -> removable_name t (fst (removal s n w)).
Proof.
  intros Hr. destruct (string_dec t s) as [->|Hne].
  - left. apply outcome_absent. now apply removal_clears.
  - unfold removable_name, clearable. now rewrite removal_other.
Qed.

(** When every name of the list can be removed, none is left. *)
Lemma remove_skills_clears (l : list string) (n : nat) (w : world) :
  (forall t, In t l -> removable_name t w) ->
  exists w' n',
    Uninstall.remove_skills l n w = (w', inl n') /\
    forall t, In t l -> get (Uninstall.skills_dir ++ [t]) (home w') = None.
Proof.
  revert n w. induction l as [|s l IH]; intros n w Hr.
  - exists w, n. split; [reflexivity|]. intros t [].
  - destruct (IH (snd (removal s n w)) (fst (removal s n w)))
      as (w' & n' & Hrun & Hall).
    { intros t Ht. apply removal_removable, Hr. now right. }
    exists w', n'. split.
    + simpl. now rewrite (bind_ok _ _ _ _ _ (remove_skill_removal s n w)).
    + intros t [<-|Ht]; [|now apply Hall].
      destruct (remove_skills_effect l (snd (removal s n w)) (fst (removal s n w)))
        as (w2 & n2 & Hrun2 & _ & _ & Hset).
      rewrite Hrun in Hrun2. inversion Hrun2; subst w2 n2.
      apply (Hset s). apply removal_clears, Hr. now left.
Qed.

End RemoveLoop.

Section UninstallFacts.

Local Open Scope list_scope.

Lemma count_existing_pure (dir : path) (l : list string) (k : nat) (w : world) :
  Uninstall.count_existing dir l k w
  = (w, inl (k + List.length
                   (filter (fun x => is_some (get (dir ++ [x]) (home w))) l))).
Proof.
  revert k. induction l as [|x l IH]; intros k; simpl.
  - unfold ret. now rewrite Nat.add_0_r.
  - unfold path_exists. rewrite bind_gets, IH. fields.
    destruct (is_some (get (dir ++ [x]) (home w))); simpl; auto.
    now rewrite Nat.add_succ_r.
Qed.

Lemma count_block (dir : path) (l : list string) (w : world) :
  (present <- path_exists Home dir ;;
   if present then Uninstall.count_existing dir l 0 else ret 0) w
  = (w, inl (installed dir l w)).
Proof.
  unfold path_exists, installed. rewrite bind_gets. fields.
  destruct (is_some (get dir (home w))); auto.
  now rewrite count_existing_pure.
Qed.

Lemma installed_zero (dir : path) (l : list string) (w : world) (t : string) :
  installed dir l w = 0 -> In t l -> get (dir ++ [t]) (home w) = None.
Proof.
  unfold installed. intros H Hin.
  destruct (get dir (home w)) as [n|] eqn:E; simpl in H.
  - destruct (get (dir ++ [t]) (home w)) eqn:Et; auto. exfalso.
    assert (Hf : In t (filter (fun x => is_some (get (dir ++ [x]) (home w))) l)).
    { apply filter_In. split; auto. now rewrite Et. }
    destruct (filter _ l); [destruct Hf|discriminate].
  - now rewrite get_app, E.
Qed.

Section Kept.

Variable keep : path -> Prop.
Hypothesis keep_in : forall p, keep p -> in_skills_dir p.

Lemma apart_from_skills (x : string) (p q : path) :
  x <> "skills"%string -> keep q -> apart (".claude"%string :: x :: p) q.
Proof.
  intros Hx Hq. destruct (keep_in q Hq) as [q' ->].
  apply (apart_siblings [".claude"%string] x "skills"%string p q'). exact Hx.
Qed.

Lemma count_existing_frame (dir : path) (l : list string) (k : nat) :
  keeps (frame keep) (Uninstall.count_existing dir l k).
Proof.
  revert k. induction l as [|x l IH]; intros k; simpl; repeat frame_step.
  apply IH.
Qed.

Lemma remove_commands_frame (l : list string) (k : nat) :
  keeps (frame keep) (Uninstall.remove_commands l k).
Proof.
  revert k. induction l as [|x l IH]; intros k; simpl.
  - frame_step.
  - frame_step; [|apply IH].
    unfold Uninstall.remove_command. repeat frame_step.
    intros q Hq. apply apart_from_skills; auto. discriminate.
Qed.

Lemma clean_cache_frame : keeps (frame keep) Uninstall.clean_cache.
Proof.
  unfold Uninstall.clean_cache. repeat frame_step;
    intros q Hq; apply apart_from_skills; auto; discriminate.
Qed.

(** Lines 102-131: what follows the loop that removes skills. *)
Lemma after_skills_frame (removed_skills : nat) :
  keeps (frame keep)
    (removed_legacy <-
       (present <- path_exists Home Uninstall.commands_dir ;;
        if present
        then Uninstall.remove_commands Uninstall.legacy_commands 0
        else ret 0) ;;
     Uninstall.clean_cache ;;
     print (nl ++ "[SUCCESS] Uninstalled " ++ str_nat removed_skills
               ++ " skills and " ++ str_nat removed_legacy
               ++ " legacy commands (" ++ str_nat (removed_skills + removed_legacy)
               ++ " total)")%string ;;
     print "Thanks for trying Claude DevStudio!"%string).
Proof.
  repeat frame_step.
  - apply remove_commands_frame.
  - apply clean_cache_frame.
Qed.

End Kept.

Lemma remove_skills_frame (l : list string) (n : nat) :
  keeps (frame (skills_outside l)) (Uninstall.remove_skills l n).
Proof.
  intros w w' r H.
  destruct (remove_skills_effect l n w) as (w2 & n2 & H2 & F & _).
  rewrite H in H2. now inversion H2.
Qed.

Lemma skills_outside_in (l : list string) (p : path) :
  skills_outside l p -> in_skills_dir p.
Proof. intros (t & q & _ & ->). now exists (t :: q). Qed.

Lemma under_skill_in (t : string) (p : path) : under_skill t p -> in_skills_dir p.
Proof. intros (q & ->). now exists (t :: q). Qed.

Lemma remove_all_frame :
  keeps (frame (skills_outside Uninstall.skills)) Uninstall.remove_all.
Proof.
  unfold Uninstall.remove_all.
  apply keeps_bind; [apply frame_trans| |intros n].
  - repeat frame_step. apply remove_skills_frame.
  - apply after_skills_frame. apply skills_outside_in.
Qed.

Lemma main_frame :
  keeps (frame (skills_outside Uninstall.skills)) Uninstall.main.
Proof.
  unfold Uninstall.main.
  repeat (frame_step
          || apply count_existing_frame
          || apply remove_all_frame).
Qed.

Lemma run_frame (w : world) :
  frame (skills_outside Uninstall.skills) w (fst (Uninstall.run w)).
Proof.
  unfold Uninstall.run, interpreter, Uninstall.dunder_main.
  destruct (Uninstall.main w) as [w1 r] eqn:E.
  pose proof (main_frame _ _ _ E) as F.
  destruct r as [u|[c| |msg]]; simpl; exact F.
Qed.

Lemma remove_all_clears (w w' : world) (r : unit + pyexn) (t : string) :
  removable w -> In t Uninstall.skills ->
  Uninstall.remove_all w = (w', r) ->
  get (Uninstall.skills_dir ++ [t]) (home w') = None.
Proof.
  intros Hr Ht H. unfold Uninstall.remove_all in H.
  assert (Hfirst : exists w1 n1,
    (present <- path_exists Home Uninstall.skills_dir ;;
     if present then Uninstall.remove_skills Uninstall.skills 0 else ret 0) w
    = (w1, inl n1) /\ get (Uninstall.skills_dir ++ [t]) (home w1) = None).
  { unfold path_exists. rewrite bind_gets. fields.
    destruct (get Uninstall.skills_dir (home w)) as [n|] eqn:E; fields.
    - destruct (remove_skills_clears Uninstall.skills 0 w Hr)
        as (w1 & n1 & Hrun & Hall).
      exists w1, n1. split; auto.
    - exists w, 0. split; auto. now rewrite get_app, E. }
  destruct Hfirst as (w1 & n1 & Hrun & Hnone).
  rewrite (bind_ok _ _ _ _ _ Hrun) in H.
  destruct (after_skills_frame (under_skill t) (under_skill_in t) n1 _ _ _ H)
    as (_ & _ & _ & _ & F).
  rewrite <- Hnone. apply F. now exists [].
Qed.

Lemma input_line {B} (prompt : string) (k : string -> M B) (w : world)
      (a : string) (rest : list tty) :
  stdin w = Line a :: rest ->
  bind (input prompt) k w
  = k a (set_stdin rest (set_stdout (stdout w ++ [prompt]) w)).
Proof. unfold bind, input. now intros ->. Qed.

Lemma main_clears (w w' : world) (r : unit + pyexn) (a : string)
      (rest : list tty) (t : string) :
  stdin w = Line a :: rest ->
  lower a = "y"%string ->
  removable w -> In t Uninstall.skills ->
  Uninstall.main w = (w', r) ->
  get (Uninstall.skills_dir ++ [t]) (home w') = None.
Proof.
  intros Hin Ha Hr Ht H. unfold Uninstall.main in H.
  rewrite !bind_print in H.
  rewrite (bind_ok _ _ _ _ _ (count_block _ _ _)) in H.
  rewrite (bind_ok _ _ _ _ _ (count_block _ _ _)) in H.
  set (w0 := set_stdout _ (set_stdout _ w)) in H.
  destruct (Nat.eqb (installed Uninstall.skills_dir Uninstall.skills w0) 0
            && Nat.eqb (installed Uninstall.commands_dir Uninstall.legacy_commands w0) 0)
    eqn:Ez.
  - inversion H; subst w'. fields.
    apply andb_prop in Ez. destruct Ez as [Ez _]. apply Nat.eqb_eq in Ez.
    apply (installed_zero _ _ w0 t Ez Ht).
  - assert (Hprompt : exists w3,
        stdin w3 = stdin w /\ home w3 = home w /\ io_error w3 = io_error w /\
        home_name w3 = home_name w /\
        (response <-
           input (nl ++ "Remove all Claude DevStudio skills and commands? (y/N): ")%string ;;
         if negb (String.eqb (lower response) "y")
         then print "[CANCELLED] Uninstall cancelled."%string
         else Uninstall.remove_all) w3 = (w', r)).
    { revert H.
      destruct (Nat.ltb 0 (installed Uninstall.skills_dir Uninstall.skills w0));
        destruct (Nat.ltb 0 (installed Uninstall.commands_dir
                                       Uninstall.legacy_commands w0));
        rewrite ?bind_print, ?bind_ret; intros H;
        eexists; (split; [|split; [|split; [|split; [|exact H]]]]); reflexivity. }
    destruct Hprompt as (w3 & H3in & H3home & H3io & H3name & Hall).
    rewrite (input_line _ _ _ a rest) in Hall by congruence.
    rewrite Ha in Hall. simpl in Hall.
    eapply remove_all_clears; [|exact Ht|exact Hall].
    intros u Hu. unfold removable_name, clearable.
    rewrite (outcome_same (Uninstall.skills_dir ++ [u]) w) by (fields; congruence).
    now apply Hr.
Qed.

End UninstallFacts.

(** ** The claims *)

Section Claims.

Local Open Scope list_scope.

(** C10.  When the source root exists but none of its entries is a
    directory, the installer prints an error line and ends with exit
    status 1; the home directory is not touched. *)
Theorem no_skill_directories_is_fatal (w : world) (es : dirents) :
  get Install.skills_source (script_dir w) = Some (Dir es) ->
  (forall x sub, ~ In (x, Dir sub) es) ->
  Install.run w =
  (set_stdout
     (stdout w ++
      ["Claude DevStudio Installer"; str_repeat "=" 40;
       ("[ERROR] No skill directories found in "
          ++ joinpath (script_dir_name w) "skills")%string]) w,
   Exit 1).
Proof.
  intros H Hfiles.
  assert (E : source_dirs w es = []).
  { destruct (source_dirs w es) as [|d ds] eqn:E; auto. exfalso.
    assert (Hd : In d (source_dirs w es)) by (rewrite E; now left).
    apply (source_dirs_spec _ _ _ H) in Hd. destruct Hd as [_ Hd].
    destruct (lookup d es) as [[x|sub]|] eqn:L; try discriminate.
    eapply Hfiles, lookup_in, L. }
  unfold Install.run, interpreter, Install.dunder_main, try_except, Install.main.
  rewrite (bind_raise _ _ _ _ _ (eq_trans (plan_discovers w es H) ltac:(rewrite E; reflexivity))).
  unfold banner. fields. now rewrite <- app_assoc.
Qed.

(** C2.  When an item of the source is already present in the target and
    the user answers the overwrite prompt with anything but y or Y, the
    installer ends with exit status 0 and the home directory, the target
    included, is exactly what it was before the run. *)
Theorem decline_leaves_target_unchanged
        (w : world) (es : dirents) (d r : string) (rest : list tty) :
  get Install.skills_source (script_dir w) = Some (Dir es) ->
  node_is_dir (lookup d es) = true ->
  get (Install.skills_dest ++ [d]) (home w) <> None ->
  stdin w = Line r :: rest ->
  lower r <> "y"%string ->
  exists w',
    Install.run w = (w', Exit 0) /\
    home w' = home w /\
    script_dir w' = script_dir w /\
    In "[CANCELLED] Installation cancelled."%string (stdout w').
Proof.
  intros Hsrc Hd Hpresent Hin Hr.
  assert (Hdirs : In d (source_dirs w es)).
  { apply (source_dirs_spec _ _ _ Hsrc). split; auto.
    apply lookup_names. destruct (lookup d es); [congruence|discriminate]. }
  destruct (get_child_dir _ _ _ Hpresent) as [tgt Htgt].
  pose proof (plan_discovers w es Hsrc) as Hplan.
  destruct (source_dirs w es) as [|d0 ds] eqn:E; [destruct Hdirs|].
  rewrite (bind_ok _ _ _ _ _ (mkdir_present _ (banner w) tgt Htgt)) in Hplan.
  rewrite bind_gets, bind_print in Hplan. unfold path_exists in Hplan.
  unfold bind at 1 in Hplan. rewrite filter_m_gets in Hplan. fields.
  set (existing := filter _ (d0 :: ds)) in Hplan.
  assert (Hex : existing <> []).
  { assert (In d existing).
    { apply filter_In. split; auto.
      destruct (get (Install.skills_dest ++ [d]) (home w)); [reflexivity|congruence]. }
    intros Hnil. now rewrite Hnil in *. }
  match type of Hplan with context [bind (Install.confirm_overwrite _) _ ?v] =>
    destruct (confirm_decline existing v r rest Hex Hin Hr) as [out [Hc Hout]] end.
  rewrite (bind_raise _ _ _ _ _ Hc) in Hplan.
  unfold Install.run, interpreter, Install.dunder_main, try_except, Install.main.
  rewrite (bind_raise _ _ _ _ _ Hplan).
  eexists. split; [reflexivity|]. fields. repeat split.
  apply in_or_app. now right.
Qed.


(** C1, as the code has it.  An exception raised while an item is
    processed, a copy error on one of its files included, is not kept to
    that item.  It leaves the loop and reaches the entry point, which
    prints one line, [ERROR] Installation failed with the reason, and
    ends with exit status 1.  The items before it in discovery order
    have been processed; of the items that come after it, none is
    visited: nothing at or below their place in the target changes, and
    nothing is printed after the failure but the error line. *)
Theorem copy_error_aborts_install
        (w w0 w1 w2 : world) (pre post : list string) (s : string) (n : nat)
        (msg : string) :
  Install.plan w = (w0, inl (pre ++ s :: post)) ->
  Install.install_loop pre 0 (loop_header (pre ++ s :: post) w0) = (w1, inl n) ->
  Install.install_skill s w1 = (w2, inr (Exception msg)) ->
  Install.run w
  = (set_stdout (stdout w2 ++ [(nl ++ "[ERROR] Installation failed: " ++ msg)%string]) w2,
     Exit 1) /\
  forall t q, ~ In t pre -> t <> s ->
    get (Install.skills_dest ++ t :: q) (home w2)
    = get (Install.skills_dest ++ t :: q) (home w0).
Proof.
  intros Hplan Hpre Hs. split.
  - unfold Install.run, interpreter, Install.dunder_main, try_except, Install.main.
    rewrite (bind_ok _ _ _ _ _ Hplan).
    unfold Install.install_all. rewrite bind_print.
    fold (loop_header (pre ++ s :: post) w0).
    assert (Hloop : Install.install_loop (pre ++ s :: post) 0
                      (loop_header (pre ++ s :: post) w0)
                    = (w2, inr (Exception msg))).
    { rewrite install_loop_app, Hpre. simpl.
      now rewrite (bind_raise _ _ _ _ _ Hs). }
    now rewrite (bind_raise _ _ _ _ _ Hloop).
  - intros t q Hpre' Hne.
    destruct (install_loop_frame _ _ _ _ _ Hpre) as (_ & _ & _ & _ & F1).
    destruct (install_skill_frame _ _ _ _ Hs) as (_ & _ & _ & _ & F2).
    rewrite F2 by (now exists t, q).
    rewrite F1 by (now exists t, q).
    reflexivity.
Qed.

(** C6, as the code has it.  Installing an item over a directory that is
    already in the target lays the source files over it: every regular
    file of the source item is afterwards in the target with the content
    of the source, and every entry of the target directory that is not a
    regular file of the source item, a stale file of an earlier
    installation included, is still there unchanged.  The directory is
    not emptied first. *)
Theorem reinstall_overlays_item (w w' : world) (s : string) (files old : dirents) :
  get (Install.skills_source ++ [s]) (script_dir w) = Some (Dir files) ->
  NoDup (names files) ->
  get (Install.skills_dest ++ [s]) (home w) = Some (Dir old) ->
  Install.install_skill s w = (w', inl true) ->
  (forall f data, lookup f files = Some (File data) ->
     copied (Install.skills_dest ++ [s]) f data (home w) (home w')) /\
  (forall f q, node_is_file (lookup f files) = false ->
     get (Install.skills_dest ++ s :: f :: q) (home w')
     = get (Install.skills_dest ++ s :: f :: q) (home w)).
Proof.
  intros Hsrc Hnd Hold H.
  unfold Install.install_skill, path_exists in H. rewrite bind_gets in H.
  destruct (negb _); [discriminate|].
  rewrite (bind_ok _ _ _ _ _ (mkdir_present _ _ _ Hold)) in H.
  unfold bind at 1 in H. unfold iterdir at 1 in H. fields. rewrite Hsrc in H.
  destruct (bind_inv _ _ _ _ _ H) as [(v & [] & H1 & H2)|(e & _ & He)];
    [|discriminate].
  rewrite bind_print in H2. inversion H2; subst w'. fields.
  destruct (copy_files_spec _ _ _ _ _ _ Hnd Hsrc (ex_intro _ old Hold) H1)
    as (_ & _ & _ & I3 & I4).
  split.
  - intros f data Hf. apply I3; auto. apply lookup_names. congruence.
  - intros f q Hf.
    change (Install.skills_dest ++ s :: f :: q)
      with ((Install.skills_dest ++ [s]) ++ f :: q).
    apply I4. now right.
Qed.

(** C8.  The loop that removes skills never raises: whatever the names
    and whatever fails, it returns.  When the names are all different,
    every name gets its outcome from the state the loop was started in,
    and nothing else is printed or counted.  A directory that is there
    and can be deleted is deleted with all it holds, reported as removed
    and counted.  A name that is not there is passed over: no line, no
    change.  A deletion that raises is reported as failed with the
    reason, and the names after it are processed all the same; what
    [rmtree] had deleted before the error stays deleted and the rest of
    the entry stays in place.  A regular file under the name is such a
    failure, and is left as it is. *)
Theorem remove_skills_reports (l : list string) (n : nat) (w : world) :
  exists w' n',
    Uninstall.remove_skills l n w = (w', inl n') /\
    (NoDup l ->
     stdout w' = stdout w ++ flat_map (fun s => skill_report s w) l /\
     n' = n + List.length (filter (removed w) l) /\
     forall s, In s l ->
       get (Uninstall.skills_dir ++ [s]) (home w')
       = left_by (rmtree_outcome (Uninstall.skills_dir ++ [s]) w)).
Proof.
  destruct (remove_skills_effect l n w) as (w' & n' & Hrun & _).
  exists w', n'. split; [exact Hrun|]. intros Hnd.
  destruct (remove_skills_distinct l n w Hnd) as (w2 & Hrun2 & Hout & Hleft).
  rewrite Hrun in Hrun2. inversion Hrun2; subst w2.
  split; [exact Hout|]. split; [reflexivity|exact Hleft].
Qed.

(** C5, as the code has it.  The uninstaller does not look at what was
    installed: it goes through its own fixed list of thirty names.  When
    the confirmation is accepted and every name of the list that is
    there can be deleted (it is a directory in which no deletion is
    refused), every name of the list is gone from the target root
    afterwards, whether the installer had put it there or not.  Whatever
    the answers and the errors, every entry of the target root under a
    name outside the list, an installed item included, is left exactly
    as it was. *)
Theorem uninstall_removes_listed_names (w : world) :
  (forall a rest,
     stdin w = Line a :: rest ->
     lower a = "y"%string ->
     removable w ->
     forall t, In t Uninstall.skills ->
       get (Uninstall.skills_dir ++ [t]) (home (fst (Uninstall.run w))) = None) /\
  (forall t q, ~ In t Uninstall.skills ->
     get (Uninstall.skills_dir ++ t :: q) (home (fst (Uninstall.run w)))
     = get (Uninstall.skills_dir ++ t :: q) (home w)).
Proof.
  split.
  - intros a rest Hin Ha Hr t Ht.
    unfold Uninstall.run, interpreter, Uninstall.dunder_main.
    destruct (Uninstall.main w) as [w1 r] eqn:E.
    pose proof (main_clears _ _ _ _ _ _ Hin Ha Hr Ht E) as Hnone.
    destruct r as [u|[c| |msg]]; simpl; exact Hnone.
  - intros t q Ht. destruct (run_frame w) as (_ & _ & _ & _ & F).
    apply F. now exists t, q.
Qed.

(** C9.  The example of the specification.  The source holds a with
    SKILL.md, b with SKILL.md and extra.txt, and c with nothing; the
    target is empty.  In whichever order the three are listed, the run
    ends with status 0, a and b are in the target, b with both of its
    files, c is not, c is reported as skipped, and the summary says
    Installed 2 skills. *)
Theorem example_a_b_c (sa sb extra : string) :
  Forall
    (fun src =>
       let r := Install.run (sample_world src [] []) in
       snd r = Exit 0 /\
       get [".claude"; "skills"; "a"]%string (home (fst r))
       = Some (Dir [("SKILL.md", File sa)]%string) /\
       get [".claude"; "skills"; "b"]%string (home (fst r))
       = Some (Dir [("SKILL.md", File sb); ("extra.txt", File extra)]%string) /\
       get [".claude"; "skills"; "c"]%string (home (fst r)) = None /\
       In "  ⚠ Skipping c (no SKILL.md)"%string (stdout (fst r)) /\
       In (nl ++ "[SUCCESS] Installation complete! Installed 2 skills.")%string
          (stdout (fst r)))
    (orders3 ("a", Dir [("SKILL.md", File sa)])
             ("b", Dir [("SKILL.md", File sb); ("extra.txt", File extra)])
             ("c", Dir []))%string.
Proof.
  unfold orders3.
  repeat (apply Forall_cons; [|]); [..|apply Forall_nil];
    cbv zeta;
    (split; [reflexivity|]); (split; [reflexivity|]); (split; [reflexivity|]);
    (split; [reflexivity|]);
    split; cbv; repeat (first [left; reflexivity|right]).
Qed.

(** C3, at an input where the code departs from it.  A skill of the list
    is installed and the terminal is closed: the prompt of the
    uninstaller raises EOFError, the entry point prints its error line,
    and the exit status is 0, not 1. *)
Theorem uninstaller_failure_exits_0 :
  snd (Uninstall.run closed_terminal_world) = Exit 0 /\
  last (stdout (fst (Uninstall.run closed_terminal_world))) EmptyString
  = (nl ++ "[ERROR] Uninstall failed: EOF when reading a line")%string.
Proof. split; reflexivity. Qed.

(** C4, at an input where the code departs from it.  The interrupt key at
    the overwrite prompt of the installer is caught by nothing: the
    exception reaches the interpreter, which reports it with a
    traceback.  The uninstaller, at its own prompt, prints its
    cancellation line and ends with status 0. *)
Theorem installer_interrupt_is_not_caught :
  snd (Install.run interrupted_world) = Traceback KeyboardInterrupt /\
  ~ In "[CANCELLED] Installation cancelled."%string
       (stdout (fst (Install.run interrupted_world))) /\
  Uninstall.run (sample_world [] [("commit", Dir [])]%string [CtrlC])
  = (set_stdout
       ["Claude DevStudio Uninstaller"; str_repeat "=" 40;
        "[FOUND] 1 Claude DevStudio skills (new format)";
        nl ++ "Remove all Claude DevStudio skills and commands? (y/N): ";
        nl ++ "[CANCELLED] Uninstall cancelled."]%string
       (sample_world [] [("commit", Dir [])]%string []),
     Exit 0).
Proof.
  split; [reflexivity|]. split; [|reflexivity].
  cbv. intuition discriminate.
Qed.

End Claims.

(** ** The claims at concrete inputs *)

(** C1 as the specification states it fails: the copy of the first item
    is refused, the second item is complete and never installed, and the
    report is one error line, with no count of failures or successes. *)
Lemma one_failure_stops_the_batch :
  snd (Install.run stuck_world) = Exit 1 /\
  get [".claude"; "skills"; "b"] (home (fst (Install.run stuck_world))) = None /\
  stdout (fst (Install.run stuck_world))
  = ["Claude DevStudio Installer"; str_repeat "=" 40;
     "[OK] Target directory: /home/user/.claude/skills";
     nl ++ "[WARNING] Found 1 existing skills:"; "  ! a";
     nl ++ "Overwrite existing skills? (y/N): ";
     nl ++ "[INSTALL] Installing 2 skills:";
     nl ++ "[ERROR] Installation failed: [Errno 13] Permission denied: '/home/user/.claude/skills/a/SKILL.md'"].
Proof. repeat split; reflexivity. Qed.

(** C5 as the specification states it fails both ways: after install and
    uninstall the installed item is still in the target, and a
    directory that the installer never wrote is gone. *)
Lemma uninstall_misses_and_oversteps :
  let installed := fst (Install.run unlisted_world) in
  let after := fst (Uninstall.run installed) in
  snd (Install.run unlisted_world) = Exit 0 /\
  get [".claude"; "skills"; "tdd-red-green"] (home after)
  = Some (Dir [("SKILL.md", File "tdd")]) /\
  get [".claude"; "skills"; "commit"] (home installed)
  = Some (Dir [("notes.md", File "my own")]) /\
  get [".claude"; "skills"; "commit"] (home after) = None.
Proof. repeat split; reflexivity. Qed.

(** C6 as the specification states it fails: after a confirmed reinstall
    the target directory of the item still holds the stale file. *)
Lemma reinstall_keeps_stale_file :
  snd (Install.run stale_world) = Exit 0 /\
  get [".claude"; "skills"; "a"] (home (fst (Install.run stale_world)))
  = Some (Dir [("SKILL.md", File "new"); ("stale.txt", File "left over")]) /\
  get [".claude"; "skills"; "a"] (home (fst (Install.run stale_world)))
  <> get ["skills"; "a"] (script_dir stale_world).
Proof. repeat split; try reflexivity. cbv. discriminate. Qed.

(** ** The theorems at concrete inputs *)

Lemma no_skill_directories_witness :
  get Install.skills_source (script_dir readme_world)
  = Some (Dir [("README.md", File "soon")]) /\
  (forall x sub, ~ In (x, Dir sub) [("README.md", File "soon")]) /\
  Install.run readme_world
  = (set_stdout
       ["Claude DevStudio Installer"; str_repeat "=" 40;
        "[ERROR] No skill directories found in /opt/claude-devstudio/skills"]
       readme_world,
     Exit 1).
Proof.
  assert (H : forall x sub, ~ In (x, Dir sub) [("README.md", File "soon")]).
  { intros x sub [E|[]]. discriminate E. }
  split; [reflexivity|]. split; [exact H|].
  exact (no_skill_directories_is_fatal readme_world _ eq_refl H).
Defined.

Lemma decline_witness :
  get Install.skills_source (script_dir declined_world)
  = Some (Dir [("a", Dir [("SKILL.md", File "new")])]) /\
  stdin declined_world = [Line "n"] /\
  lower "n" <> "y" /\
  exists w',
    Install.run declined_world = (w', Exit 0) /\
    home w' = home declined_world /\
    script_dir w' = script_dir declined_world /\
    In "[CANCELLED] Installation cancelled." (stdout w').
Proof.
  assert (Hn : lower "n" <> "y") by (cbv; discriminate).
  split; [reflexivity|]. split; [reflexivity|]. split; [exact Hn|].
  apply (decline_leaves_target_unchanged
           declined_world [("a", Dir [("SKILL.md", File "new")])] "a" "n" []);
    try reflexivity; try exact Hn.
  cbv. discriminate.
Defined.


Lemma copy_error_aborts_witness :
  let w0 := fst (Install.plan stuck_world) in
  let w1 := loop_header ["a"; "b"] w0 in
  let w2 := fst (Install.install_skill "a" w1) in
  let msg := "[Errno 13] Permission denied: '/home/user/.claude/skills/a/SKILL.md'" in
  Install.plan stuck_world = (w0, inl ["a"; "b"]) /\
  Install.install_loop [] 0 w1 = (w1, inl 0) /\
  Install.install_skill "a" w1 = (w2, inr (Exception msg)) /\
  Install.run stuck_world
  = (set_stdout
       (stdout w2 ++ [(nl ++ "[ERROR] Installation failed: " ++ msg)%string])%list w2,
     Exit 1) /\
  get [".claude"; "skills"; "b"] (home w2) = get [".claude"; "skills"; "b"] (home w0).
Proof.
  intros w0 w1 w2 msg.
  split; [reflexivity|]. split; [reflexivity|]. split; [reflexivity|].
  destruct (copy_error_aborts_install stuck_world w0 w1 w2 [] ["b"] "a" 0 msg
              eq_refl eq_refl eq_refl) as [Hrun Hlater].
  split; [exact Hrun|].
  apply (Hlater "b" []).
  - intros [].
  - discriminate.
Defined.

Lemma reinstall_overlays_witness :
  let w' := fst (Install.install_skill "a" stale_world) in
  NoDup (names [("SKILL.md", File "new")]) /\
  Install.install_skill "a" stale_world = (w', inl true) /\
  copied [".claude"; "skills"; "a"] "SKILL.md" "new" (home stale_world) (home w') /\
  get [".claude"; "skills"; "a"; "stale.txt"] (home w') = Some (File "left over").
Proof.
  intros w'.
  assert (Hnd : NoDup (names [("SKILL.md", File "new")])).
  { constructor; [intros []|constructor]. }
  split; [exact Hnd|]. split; [reflexivity|].
  destruct (reinstall_overlays_item
              stale_world w' "a" [("SKILL.md", File "new")]
              [("SKILL.md", File "old"); ("stale.txt", File "left over")]
              eq_refl Hnd eq_refl eq_refl) as [Hnew Hold].
  split.
  - apply Hnew. reflexivity.
  - exact (eq_trans (Hold "stale.txt" [] eq_refl) eq_refl).
Defined.

Lemma remove_skills_witness :
  NoDup ["commit"; "docs"; "format"; "undo"] /\
  exists w' n',
    Uninstall.remove_skills ["commit"; "docs"; "format"; "undo"] 0 mixed_world
    = (w', inl n') /\
    stdout w'
    = ["  - Removed skill: commit";
       "  ! Failed to remove skill docs: [Errno 13] Permission denied: 'b.txt'";
       "  ! Failed to remove skill format: [Errno 20] Not a directory: "
         ++ "PosixPath('/home/user/.claude/skills/format')"] /\
    n' = 1 /\
    get [".claude"; "skills"; "commit"] (home w') = None /\
    get [".claude"; "skills"; "docs"] (home w')
    = Some (Dir [("locked", Dir [("b.txt", File "2")]); ("c.txt", File "3")]) /\
    get [".claude"; "skills"; "format"] (home w') = Some (File "not a directory") /\
    get [".claude"; "skills"; "undo"] (home w') = None.
Proof.
  assert (Hnd : NoDup ["commit"; "docs"; "format"; "undo"]).
  { repeat constructor; simpl; intuition discriminate. }
  split; [exact Hnd|].
  destruct (remove_skills_reports ["commit"; "docs"; "format"; "undo"] 0 mixed_world)
    as (w' & n' & Hrun & Hall).
  destruct (Hall Hnd) as (Hout & Hn & Hleft).
  exists w', n'. split; [exact Hrun|].
  split; [exact Hout|]. split; [exact Hn|].
  split; [exact (Hleft "commit" (or_introl eq_refl))|].
  split; [exact (Hleft "docs" (or_intror (or_introl eq_refl)))|].
  split; [exact (Hleft "format" (or_intror (or_intror (or_introl eq_refl))))|].
  exact (Hleft "undo" (or_intror (or_intror (or_intror (or_introl eq_refl))))).
Defined.

Lemma uninstall_witness :
  stdin confirmed_world = [Line "Y"] /\
  lower "Y" = "y" /\
  removable confirmed_world /\
  get [".claude"; "skills"; "commit"] (home (fst (Uninstall.run confirmed_world)))
  = None /\
  get [".claude"; "skills"; "mine"] (home (fst (Uninstall.run confirmed_world)))
  = Some (Dir [("SKILL.md", File "mine")]).
Proof.
  assert (Hr : removable confirmed_world).
  { intros t Ht. simpl in Ht.
    repeat (destruct Ht as [<-|Ht];
            [first [left; reflexivity | right; reflexivity]|]).
    destruct Ht. }
  split; [reflexivity|]. split; [reflexivity|]. split; [exact Hr|].
  destruct (uninstall_removes_listed_names confirmed_world) as [Hgone Hkept].
  split.
  - apply (Hgone "Y" [] eq_refl eq_refl Hr "commit"). simpl. auto.
  - refine (eq_trans (Hkept "mine" [] _) eq_refl).
    simpl. intuition discriminate.
Defined.

(** * Further properties of the two scripts *)

(** ** The installer and the rest of the home directory *)

Section InstallerReach.

Local Open Scope list_scope.

Lemma install_skill_outside (s : string) :
  keeps (frame outside_target) (Install.install_skill s).
Proof.
  unfold Install.install_skill. repeat frame_step.
  - intros q Hq. left. now apply apart_app.
  - intros q Hq. now apply apart_app, apart_app.
Qed.

Lemma install_loop_outside (l : list string) (n : nat) :
  keeps (frame outside_target) (Install.install_loop l n).
Proof.
  revert n. induction l as [|t l IH]; intros n; simpl; repeat frame_step.
  - apply install_skill_outside.
  - apply IH.
Qed.

Lemma main_outside : keeps (frame outside_target) Install.main.
Proof.
  unfold Install.main, Install.plan, Install.confirm_overwrite, Install.install_all.
  repeat (frame_step || apply install_loop_outside).
  intros q Hq. now left.
Qed.

(** X1.  Whatever it is given and however it ends, the installer leaves
    its own directory as it was, and in the home directory it changes
    nothing on a path that does not lead into the target
    [.claude/skills]. *)
Theorem installer_stays_in_target (w : world) (q : path) :
  outside_target q ->
  script_dir (fst (Install.run w)) = script_dir w /\
  get q (home (fst (Install.run w))) = get q (home w).
Proof.
  intros Hq. unfold Install.run, interpreter, Install.dunder_main, try_except.
  destruct (Install.main w) as [w1 r] eqn:E.
  destruct (main_outside _ _ _ E) as (F1 & _ & _ & _ & F).
  destruct r as [u|[c| |msg]]; simpl; split; auto.
Qed.

End InstallerReach.

Lemma installer_stays_in_target_witness :
  outside_target [".claude"; "commands"; "commit.md"] /\
  get [".claude"; "commands"; "commit.md"]
      (home (fst (Install.run (set_home
         (Dir [(".claude", Dir [("commands", Dir [("commit.md", File "mine")])])])
         stuck_world))))
  = Some (File "mine").
Proof.
  assert (H : outside_target [".claude"; "commands"; "commit.md"]).
  { exists [".claude"], "skills", "commands", [], ["commit.md"].
    repeat split. discriminate. }
  split; [exact H|].
  refine (eq_trans (proj2 (installer_stays_in_target _ _ H)) eq_refl).
Defined.

(** ** A source that cannot be used *)

Ltac run_steps :=
  repeat first [ rewrite bind_assoc | rewrite bind_print | rewrite bind_gets
               | rewrite bind_ret | progress cbv beta ].

Section UnusableSource.

Local Open Scope list_scope.

(** X2.  When the directory [skills] beside the script does not exist,
    the installer says so and ends with exit status 1; nothing is
    created, not even the target directory. *)
Theorem missing_source_is_fatal (w : world) :
  get Install.skills_source (script_dir w) = None ->
  Install.run w
  = (set_stdout
       (stdout w ++
        ["Claude DevStudio Installer"; str_repeat "=" 40;
         ("[ERROR] Skills directory not found at "
            ++ joinpath (script_dir_name w) "skills")%string]) w,
     Exit 1).
Proof.
  intros H.
  unfold Install.run, interpreter, Install.dunder_main, try_except, Install.main,
    Install.plan, path_exists.
  run_steps. fields. rewrite H. fields. run_steps.
  unfold sys_exit, raise, bind. fields. now rewrite <- !app_assoc.
Qed.

(** X3.  When [skills] beside the script is a regular file, listing it
    raises; the entry point reports the failure in one line and ends
    with exit status 1, and the home directory is not touched. *)
Theorem source_file_is_fatal (w : world) (data : string) :
  get Install.skills_source (script_dir w) = Some (File data) ->
  Install.run w
  = (set_stdout
       (stdout w ++
        ["Claude DevStudio Installer"; str_repeat "=" 40;
         (nl ++ "[ERROR] Installation failed: [Errno 20] Not a directory: '"
             ++ joinpath (script_dir_name w) "skills" ++ "'")%string]) w,
     Exit 1).
Proof.
  intros H.
  unfold Install.run, interpreter, Install.dunder_main, try_except, Install.main,
    Install.plan, path_exists.
  run_steps. fields. rewrite H. fields. run_steps.
  unfold bind at 1. unfold iterdir. fields. rewrite H.
  unfold os_error. run_steps. unfold sys_exit, raise. fields.
  now rewrite <- !app_assoc.
Qed.

End UnusableSource.

Lemma missing_source_witness :
  get Install.skills_source
      (script_dir (mkWorld (Dir []) (Dir []) "/opt/x" "/home/user" no_io_error [] []))
  = None /\
  snd (Install.run (mkWorld (Dir []) (Dir []) "/opt/x" "/home/user" no_io_error [] []))
  = Exit 1.
Proof.
  split; [reflexivity|].
  exact (f_equal snd (missing_source_is_fatal
           (mkWorld (Dir []) (Dir []) "/opt/x" "/home/user" no_io_error [] [])
           eq_refl)).
Defined.

Lemma source_file_witness :
  get Install.skills_source
      (script_dir (mkWorld (Dir [("skills", File "oops")]) (Dir [])
                           "/opt/x" "/home/user" no_io_error [] []))
  = Some (File "oops") /\
  snd (Install.run (mkWorld (Dir [("skills", File "oops")]) (Dir [])
                            "/opt/x" "/home/user" no_io_error [] []))
  = Exit 1.
Proof.
  split; [reflexivity|].
  exact (f_equal snd (source_file_is_fatal
           (mkWorld (Dir [("skills", File "oops")]) (Dir [])
                    "/opt/x" "/home/user" no_io_error [] [])
           "oops" eq_refl)).
Defined.

(** ** Which exceptions leave a computation *)

Section Raises.

Variable E : pyexn -> Prop.
Hypothesis E_exception : forall msg, E (Exception msg).
Hypothesis E_interrupt : E KeyboardInterrupt.

Lemma raises_ret {A} (a : A) : raises E (ret a).
Proof. intros w w' e H. discriminate H. Qed.

Lemma raises_gets {A} (f : world -> A) : raises E (gets f).
Proof. intros w w' e H. discriminate H. Qed.

Lemma raises_print (s : string) : raises E (print s).
Proof. intros w w' e H. discriminate H. Qed.

Lemma raises_raise {A} (e : pyexn) : E e -> raises E (@raise A e).
Proof. intros He w w' e' H. inversion H. now subst. Qed.

Lemma raises_os_error {A} (n : errno) (r : root) (p : path) :
  raises E (@os_error A n r p).
Proof. intros w w' e H. inversion H. apply E_exception. Qed.

Lemma raises_input (s : string) : raises E (input s).
Proof.
  intros w w' e H. unfold input in H.
  destruct (stdin w) as [|[l|] rest]; inversion H; auto.
Qed.

Lemma raises_iterdir (r : root) (p : path) : raises E (iterdir r p).
Proof.
  intros w w' e H. unfold iterdir in H.
  destruct (get p (tree r w)) as [[d|es]|]; inversion H; apply E_exception.
Qed.

Lemma raises_mkdir (p : path) : raises E (mkdir p).
Proof.
  intros w w' e H. unfold mkdir in H.
  destruct (mkdir_p p (home w)); inversion H. apply E_exception.
Qed.

Lemma raises_copy2 (src dst : path) : raises E (copy2 src dst).
Proof.
  intros w w' e H. unfold copy2, os_error in H.
  repeat match type of H with
         | context [match ?x with _ => _ end] => destruct x
         end; inversion H; apply E_exception.
Qed.

Lemma raises_rmtree (p : path) : raises E (rmtree p).
Proof.
  intros w w' e H. unfold rmtree, os_error in H.
  repeat match type of H with
         | context [match ?x with _ => _ end] => destruct x
         end; inversion H; apply E_exception.
Qed.

Lemma raises_os_remove (p : path) : raises E (os_remove p).
Proof.
  intros w w' e H. unfold os_remove, os_error in H.
  repeat match type of H with
         | context [match ?x with _ => _ end] => destruct x
         end; inversion H; apply E_exception.
Qed.

Lemma raises_bind {A B} (m : M A) (k : A -> M B) :
  raises E m -> (forall a, raises E (k a)) -> raises E (bind m k).
Proof.
  intros Hm Hk w w' e H.
  destruct (bind_inv _ _ _ _ _ H) as [(w1 & a & H1 & H2)|(e' & H1 & He)].
  - eapply Hk; eauto.
  - inversion He; subst. eapply Hm; eauto.
Qed.

Lemma raises_try_except {A} (m : M A) (h : string -> M A) :
  raises E m -> (forall msg, raises E (h msg)) -> raises E (try_except m h).
Proof.
  intros Hm Hh w w' e H. unfold try_except in H.
  destruct (m w) as [w1 [a|[c| |msg]]] eqn:Em.
  - discriminate H.
  - inversion H; subst. eapply Hm; eauto.
  - inversion H; subst. eapply Hm; eauto.
  - eapply Hh; eauto.
Qed.

Lemma raises_for_each {A} (l : list A) (body : A -> M unit) :
  (forall x, raises E (body x)) -> raises E (for_each l body).
Proof.
  intros Hb. induction l as [|x l IH]; simpl.
  - apply raises_ret.
  - apply raises_bind; auto.
Qed.

Lemma raises_filter_m {A} (f : A -> M bool) (l : list A) :
  (forall x, raises E (f x)) -> raises E (filter_m f l).
Proof.
  intros Hf. induction l as [|x l IH]; simpl.
  - apply raises_ret.
  - apply raises_bind; auto. intros b.
    apply raises_bind; auto. intros rest. apply raises_ret.
Qed.

End Raises.

(** One step of a proof about the exceptions of a computation. *)
Ltac raises_step :=
  lazymatch goal with
  | |- raises _ (if ?b then _ else _) => destruct b
  | |- raises _ (match ?l with [] => _ | _ :: _ => _ end) => destruct l
  | |- raises _ (bind _ _) => apply raises_bind; [|intros ?]
  | |- raises _ (try_except _ _) => apply raises_try_except; [|intros ?]
  | |- raises _ (for_each _ _) => apply raises_for_each; intros ?
  | |- raises _ (filter_m _ _) => apply raises_filter_m; intros ?
  | |- raises _ (ret _) => apply raises_ret
  | |- raises _ (gets _) => apply raises_gets
  | |- raises _ (path_exists _ _) => apply raises_gets
  | |- raises _ (is_dir _ _) => apply raises_gets
  | |- raises _ (is_file _ _) => apply raises_gets
  | |- raises _ (print _) => apply raises_print
  | |- raises _ (input _) => apply raises_input
  | |- raises _ (iterdir _ _) => apply raises_iterdir
  | |- raises _ (mkdir _) => apply raises_mkdir
  | |- raises _ (copy2 _ _) => apply raises_copy2
  | |- raises _ (rmtree _) => apply raises_rmtree
  | |- raises _ (os_remove _) => apply raises_os_remove
  end.

(** ** Exit statuses *)

Section ExitStatus.

Lemma not_exit_exception (msg : string) : not_exit (Exception msg).
Proof. intros c. discriminate. Qed.

Lemma not_exit_interrupt : not_exit KeyboardInterrupt.
Proof. intros c. discriminate. Qed.

Lemma count_existing_raises (dir : path) (l : list string) (k : nat) :
  raises not_exit (Uninstall.count_existing dir l k).
Proof.
  intros w w' e H. rewrite count_existing_pure in H. discriminate H.
Qed.

Lemma remove_skills_raises (l : list string) (k : nat) :
  raises not_exit (Uninstall.remove_skills l k).
Proof.
  intros w w' e H.
  destruct (remove_skills_effect l k w) as (w2 & n2 & H2 & _).
  rewrite H in H2. discriminate H2.
Qed.

Lemma remove_commands_raises (l : list string) (k : nat) :
  raises not_exit (Uninstall.remove_commands l k).
Proof.
  revert k. induction l as [|x l IH]; intros k; simpl.
  - apply raises_ret.
  - apply raises_bind; [|intros n; apply IH].
    unfold Uninstall.remove_command.
    repeat (raises_step; auto using not_exit_exception).
Qed.

Lemma uninstall_main_raises : raises not_exit Uninstall.main.
Proof.
  unfold Uninstall.main, Uninstall.remove_all, Uninstall.clean_cache.
  repeat first [ apply count_existing_raises | apply remove_skills_raises
               | apply remove_commands_raises
               | raises_step; auto using not_exit_exception, not_exit_interrupt ].
Qed.

(** X4.  The uninstaller ends with exit status 0 in every world: an
    answer, an interrupt, a closed terminal or a deletion that fails
    makes no difference to the status, and no traceback is ever shown. *)
Theorem uninstaller_always_exits_0 (w : world) : snd (Uninstall.run w) = Exit 0.
Proof.
  unfold Uninstall.run, interpreter, Uninstall.dunder_main.
  destruct (Uninstall.main w) as [w1 [u|[c| |msg]]] eqn:E; try reflexivity.
  exfalso. exact (uninstall_main_raises _ _ _ E c eq_refl).
Qed.

Lemma installer_exn_exception (msg : string) : installer_exn (Exception msg).
Proof. exact I. Qed.

Lemma install_loop_raises (l : list string) (n : nat) :
  raises installer_exn (Install.install_loop l n).
Proof.
  revert n. induction l as [|t l IH]; intros n; simpl.
  - apply raises_ret.
  - apply raises_bind; [|intros b; apply IH].
    unfold Install.install_skill.
    repeat (raises_step; auto using installer_exn_exception).
Qed.

Lemma install_main_raises : raises installer_exn Install.main.
Proof.
  unfold Install.main, Install.plan, Install.confirm_overwrite, Install.install_all,
    sys_exit.
  repeat first [ apply install_loop_raises
               | apply raises_raise; simpl; auto
               | raises_step; try exact installer_exn_exception; try exact I ].
Qed.

(** X5.  The installer ends in one of three ways only: exit status 0,
    exit status 1, or the traceback of a keyboard interrupt.  No other
    exception reaches the interpreter and no other status is set. *)
Theorem installer_endings (w : world) :
  snd (Install.run w) = Exit 0 \/
  snd (Install.run w) = Exit 1 \/
  snd (Install.run w) = Traceback KeyboardInterrupt.
Proof.
  unfold Install.run, interpreter, Install.dunder_main, try_except.
  destruct (Install.main w) as [w1 [u|[c| |msg]]] eqn:E; simpl; auto.
  destruct (install_main_raises _ _ _ E) as [->| ->]; auto.
Qed.

End ExitStatus.

(** ** What the uninstaller leaves alone *)

Section UninstallerReach.

Local Open Scope list_scope.

Lemma remove_skills_spared (l : list string) (n : nat) :
  (forall x, In x l -> In x Uninstall.skills) ->
  keeps (frame spared) (Uninstall.remove_skills l n).
Proof.
  revert n. induction l as [|s l IH]; intros n Hl; simpl.
  - frame_step.
  - frame_step; [|apply IH; intros x Hx; apply Hl; now right].
    unfold Uninstall.remove_skill. repeat frame_step.
    intros q (H & _). apply H, Hl. now left.
Qed.

Lemma remove_commands_spared (l : list string) (n : nat) :
  (forall x, In x l -> In x Uninstall.legacy_commands) ->
  keeps (frame spared) (Uninstall.remove_commands l n).
Proof.
  revert n. induction l as [|s l IH]; intros n Hl; simpl.
  - frame_step.
  - frame_step; [|apply IH; intros x Hx; apply Hl; now right].
    unfold Uninstall.remove_command. repeat frame_step.
    intros q (_ & H & _). apply H, Hl. now left.
Qed.

Lemma uninstall_main_spared : keeps (frame spared) Uninstall.main.
Proof.
  unfold Uninstall.main, Uninstall.remove_all, Uninstall.clean_cache.
  repeat first [ apply count_existing_frame
               | apply remove_skills_spared; auto
               | apply remove_commands_spared; auto
               | frame_step ];
    intros q (_ & _ & Hc & Hb); assumption.
Qed.

(** X6.  However it is answered and whatever fails, the uninstaller
    changes nothing in the home directory on a path that leads neither
    to a skill of its list, nor to a command file of its list, nor to
    the cache or the backups; and it never changes the directory of the
    script. *)
Theorem uninstaller_spares_the_rest (w : world) (q : path) :
  spared q ->
  script_dir (fst (Uninstall.run w)) = script_dir w /\
  get q (home (fst (Uninstall.run w))) = get q (home w).
Proof.
  intros Hq. unfold Uninstall.run, interpreter, Uninstall.dunder_main.
  destruct (Uninstall.main w) as [w1 r] eqn:E.
  destruct (uninstall_main_spared _ _ _ E) as (F1 & _ & _ & _ & F).
  destruct r as [u|[c| |msg]]; simpl; split; auto.
Qed.

End UninstallerReach.

Lemma uninstaller_spares_witness :
  spared [".claude"; "settings.json"] /\
  get [".claude"; "settings.json"]
      (home (fst (Uninstall.run
         (set_home (Dir [(".claude", Dir [("settings.json", File "{}");
                                          ("skills", Dir [("commit", Dir [])])])])
                   confirmed_world))))
  = Some (File "{}").
Proof.
  assert (H : spared [".claude"; "settings.json"]).
  { repeat split.
    - intros t _. exists [".claude"], "skills", "settings.json", [t], [].
      repeat split. discriminate.
    - intros c _. exists [".claude"], "commands", "settings.json", [c], [].
      repeat split. discriminate.
    - exists [".claude"], ".ccplugins_cache", "settings.json", [], [].
      repeat split. discriminate.
    - exists [".claude"], ".ccplugins_backups", "settings.json", [], [].
      repeat split. discriminate. }
  split; [exact H|].
  refine (eq_trans (proj2 (uninstaller_spares_the_rest _ _ H)) eq_refl).
Defined.

(** ** Answers that stop the uninstaller *)

Section UninstallerStops.

Local Open Scope list_scope.

Lemma installed_absent (dir : path) (l : list string) (w : world) :
  (forall t, In t l -> get (dir ++ [t]) (home w) = None) ->
  installed dir l w = 0.
Proof.
  intros H. unfold installed. destruct (is_some (get dir (home w))); auto.
  induction l as [|x l IH]; simpl; auto.
  rewrite (H x) by (now left). simpl. apply IH. intros t Ht. apply H. now right.
Qed.

(** X7.  When none of the listed skills and none of the listed command
    files is there, the uninstaller says that it found nothing and ends
    with status 0: it asks no question, reads nothing from the terminal
    and changes nothing. *)
Theorem nothing_to_uninstall (w : world) :
  (forall t, In t Uninstall.skills ->
             get (Uninstall.skills_dir ++ [t]) (home w) = None) ->
  (forall c, In c Uninstall.legacy_commands ->
             get (Uninstall.commands_dir ++ [c]) (home w) = None) ->
  Uninstall.run w
  = (set_stdout
       (stdout w ++
        ["Claude DevStudio Uninstaller"; str_repeat "=" 40;
         "[INFO] No Claude DevStudio skills or commands found."]%string) w,
     Exit 0).
Proof.
  intros Hs Hc.
  unfold Uninstall.run, interpreter, Uninstall.dunder_main, Uninstall.main.
  rewrite !bind_print.
  rewrite (bind_ok _ _ _ _ _ (count_block _ _ _)).
  rewrite (bind_ok _ _ _ _ _ (count_block _ _ _)).
  rewrite (installed_absent Uninstall.skills_dir) by (intros t Ht; apply Hs, Ht).
  rewrite (installed_absent Uninstall.commands_dir Uninstall.legacy_commands)
    by (intros t Ht; exact (Hc t Ht)).
  cbn [Nat.eqb andb]. unfold print. fields. now rewrite <- !app_assoc.
Qed.

(** X8.  When something was found and the answer to the question is
    anything but y or Y, the uninstaller prints that it was cancelled
    and ends with status 0; the home directory is what it was. *)
Theorem uninstall_declined (w : world) (a : string) (rest : list tty) :
  found w <> (0, 0) ->
  stdin w = Line a :: rest ->
  lower a <> "y"%string ->
  exists out,
    Uninstall.run w
    = (set_stdin rest (set_stdout (stdout w ++ out) w), Exit 0) /\
    last out EmptyString = "[CANCELLED] Uninstall cancelled."%string.
Proof.
  intros Hf Hin Ha.
  unfold Uninstall.run, interpreter, Uninstall.dunder_main, Uninstall.main.
  rewrite !bind_print.
  rewrite (bind_ok _ _ _ _ _ (count_block _ _ _)).
  rewrite (bind_ok _ _ _ _ _ (count_block _ _ _)).
  set (w0 := set_stdout _ (set_stdout _ w)).
  assert (E1 : installed Uninstall.skills_dir Uninstall.skills w0
               = installed Uninstall.skills_dir Uninstall.skills w) by reflexivity.
  assert (E2 : installed Uninstall.commands_dir Uninstall.legacy_commands w0
               = installed Uninstall.commands_dir Uninstall.legacy_commands w)
    by reflexivity.
  unfold found in Hf. rewrite E1, E2.
  destruct (Nat.eqb (installed Uninstall.skills_dir Uninstall.skills w) 0
            && Nat.eqb (installed Uninstall.commands_dir
                                  Uninstall.legacy_commands w) 0) eqn:Ez.
  { apply andb_prop in Ez. destruct Ez as [Z1 Z2].
    apply Nat.eqb_eq in Z1, Z2. rewrite Z1, Z2 in Hf. congruence. }
  apply String.eqb_neq in Ha.
  destruct (Nat.ltb 0 (installed Uninstall.skills_dir Uninstall.skills w));
    destruct (Nat.ltb 0 (installed Uninstall.commands_dir
                                   Uninstall.legacy_commands w));
    cbv iota; run_steps;
    (rewrite (input_line _ _ _ a rest) by exact Hin);
    rewrite Ha; unfold print, w0; fields;
    eexists; (split; [rewrite <- !app_assoc; reflexivity|reflexivity]).
Qed.

End UninstallerStops.

Lemma nothing_to_uninstall_witness :
  snd (Uninstall.run (sample_world [] [("mine", Dir [])] [Line "y"])) = Exit 0 /\
  stdin (fst (Uninstall.run (sample_world [] [("mine", Dir [])] [Line "y"])))
  = [Line "y"].
Proof.
  assert (Hs : forall t, In t Uninstall.skills ->
             get (Uninstall.skills_dir ++ [t])%list
                 (home (sample_world [] [("mine", Dir [])] [Line "y"])) = None).
  { intros t Ht. simpl in Ht.
    repeat (destruct Ht as [<-|Ht]; [reflexivity|]). destruct Ht. }
  assert (Hc : forall c, In c Uninstall.legacy_commands ->
             get (Uninstall.commands_dir ++ [c])%list
                 (home (sample_world [] [("mine", Dir [])] [Line "y"])) = None).
  { intros c _. reflexivity. }
  pose proof (nothing_to_uninstall _ Hs Hc) as H.
  split.
  - exact (f_equal snd H).
  - exact (f_equal (fun r => stdin (fst r)) H).
Defined.

Lemma uninstall_declined_witness :
  found (set_stdin [Line "no"] closed_terminal_world) <> (0, 0) /\
  lower "no" <> "y" /\
  snd (Uninstall.run (set_stdin [Line "no"] closed_terminal_world)) = Exit 0 /\
  home (fst (Uninstall.run (set_stdin [Line "no"] closed_terminal_world)))
  = home closed_terminal_world.
Proof.
  assert (Hf : found (set_stdin [Line "no"] closed_terminal_world) <> (0, 0))
    by (cbv; discriminate).
  assert (Hn : lower "no" <> "y") by (cbv; discriminate).
  split; [exact Hf|]. split; [exact Hn|].
  destruct (uninstall_declined (set_stdin [Line "no"] closed_terminal_world)
              "no" [] Hf eq_refl Hn) as (out & Hrun & _).
  rewrite Hrun. split; reflexivity.
Defined.

(** ** Installing twice *)


Section Again.

Local Open Scope list_scope.

Lemma update_absent (x : string) (n : node) (es : dirents) :
  lookup x es = None -> update x n es = es ++ [(x, n)].
Proof.
  induction es as [|[y m] es IH]; simpl; auto.
  destruct (String.eqb x y); [discriminate|]. intros H. now rewrite IH.
Qed.

Lemma get_put_parent (c : path) (x : string) (new n : node) (es : dirents) :
  get c n = Some (Dir es) ->
  get c (put (c ++ [x]) new n) = Some (Dir (update x new es)).
Proof.
  revert n. induction c as [|z c IH]; intros n H.
  - simpl in H. inversion H; subst. reflexivity.
  - destruct n as [d|fs]; [discriminate|]. simpl in H.
    destruct (lookup z fs) as [k|] eqn:L; [|discriminate].
    rewrite <- app_comm_cons, put_cons by apply app_cons_not_nil.
    rewrite L. simpl. rewrite lookup_update_same. now apply IH.
Qed.

Lemma copy2_io (src d : path) (f : string) (v v' : world) :
  copy2 src (d ++ [f]) v = (v', inl tt) ->
  io_error v (if node_is_dir (get (d ++ [f]) (home v))
              then (d ++ [f]) ++ [basename src] else d ++ [f]) = None.
Proof.
  unfold copy2. intros H.
  set (p := if node_is_dir (get (d ++ [f]) (home v))
            then (d ++ [f]) ++ [basename src] else d ++ [f]) in *.
  destruct (get src (script_dir v)) as [[data|es]|]; try discriminate.
  destruct (get (parent p) (home v)) as [[x|es]|]; try discriminate.
  destruct (node_is_dir (get p (home v))); try discriminate.
  destruct (io_error v p) eqn:E; [discriminate|]. exact E.
Qed.

Section ItemAgain.

Variables (src dest : path) (files : dirents).

Let body : string -> M unit := fun file =>
  regular <- is_file ScriptDir (src ++ [file]) ;;
  if regular then copy2 (src ++ [file]) (dest ++ [file]) else ret tt.

Lemma body_frame (g0 : string) :
  keeps (frame (names_outside dest [g0])) (body g0).
Proof.
  unfold body. repeat frame_step.
  intros q (g & q' & Hg & ->). apply apart_siblings.
  intros ->. apply Hg. now left.
Qed.

Lemma copy_loop_frame (l : list string) :
  keeps (frame (names_outside dest l)) (for_each l body).
Proof.
  induction l as [|g l IH]; simpl.
  - frame_step.
  - apply keeps_bind; [apply frame_trans| |intros u].
    + intros w w' r H.
      apply (frame_weaken (names_outside dest [g])); [|eapply body_frame; eauto].
      intros q (x & q' & Hx & ->). exists x, q'. split; auto.
      intros [->|[]]. apply Hx. now left.
    + intros w w' r H.
      apply (frame_weaken (names_outside dest l)); [|eapply IH; eauto].
      intros q (x & q' & Hx & ->). exists x, q'. split; auto.
      intros Hin. apply Hx. now right.
Qed.

Lemma landing_frame (g : string) (h h' : node) :
  (forall q, get (dest ++ g :: q) h' = get (dest ++ g :: q) h) ->
  landing dest g h' = landing dest g h /\
  get (landing dest g h') h' = get (landing dest g h) h.
Proof.
  intros F. unfold landing. rewrite (F []).
  destruct (node_is_dir (get (dest ++ [g]) h)); (split; [reflexivity|]).
  - rewrite <- app_assoc. apply F.
  - apply F.
Qed.

(** One file: where it lands, and that the write was allowed. *)
Lemma body_lands (g : string) (data : string) (v v1 : world) :
  get src (script_dir v) = Some (Dir files) ->
  lookup g files = Some (File data) ->
  body g v = (v1, inl tt) ->
  landing dest g (home v1) = landing dest g (home v) /\
  get (landing dest g (home v)) (home v1) = Some (File data) /\
  io_error v (landing dest g (home v)) = None.
Proof.
  intros Hsrc Hg H. unfold body, is_file in H. rewrite bind_gets in H. fields.
  rewrite (get_child _ _ _ _ Hsrc), Hg in H. fields.
  pose proof (copy2_io _ _ _ _ _ H) as Hio.
  destruct (copy2_ok _ _ _ _ _ H) as (d0 & c & x & Hd & [es Hc] & -> & Hcase).
  rewrite (get_child _ _ _ _ Hsrc), Hg in Hd. inversion Hd; subst d0.
  unfold basename in *. rewrite last_last in *. fields.
  assert (Hget : get (c ++ [x]) (put (c ++ [x]) (File data) (home v))
                 = Some (File data)) by (eapply get_put_same; eauto).
  unfold landing.
  destruct Hcase as [(Hdir & -> & ->)|(Hdir & -> & ->)]; rewrite Hdir in *.
  - rewrite Hget. fields. repeat split; auto.
  - assert (Hstill : node_is_dir (get (dest ++ [g])
                       (put ((dest ++ [g]) ++ [g]) (File data) (home v))) = true).
    { destruct (get (dest ++ [g]) (home v)) as [[y|es']|] eqn:E; try discriminate.
      rewrite (get_put_parent _ _ _ _ _ E). reflexivity. }
    rewrite Hstill. repeat split; auto.
Qed.

Lemma body_skips (g : string) (v v1 : world) :
  get src (script_dir v) = Some (Dir files) ->
  node_is_file (lookup g files) = false ->
  body g v = (v1, inl tt) -> v1 = v.
Proof.
  intros Hsrc Hg H. unfold body, is_file in H. rewrite bind_gets in H. fields.
  rewrite (get_child _ _ _ _ Hsrc), Hg in H. now inversion H.
Qed.

Lemma copy_loop_in_place (l : list string) (v v' : world) :
  NoDup l ->
  get src (script_dir v) = Some (Dir files) ->
  for_each l body v = (v', inl tt) ->
  forall g data, In g l -> lookup g files = Some (File data) ->
    get (landing dest g (home v')) (home v') = Some (File data) /\
    io_error v' (landing dest g (home v')) = None.
Proof.
  revert v. induction l as [|g0 l IH]; intros v Hnd Hsrc H g data Hin Hg;
    [destruct Hin|].
  inversion Hnd as [|? ? Hg0 Hnd']; subst. simpl in H.
  destruct (bind_inv _ _ _ _ _ H) as [(v1 & [] & H1 & H2)|(e & _ & He)];
    [|discriminate].
  destruct (body_frame g0 _ _ _ H1) as (S1 & _ & _ & Hio1 & _).
  destruct Hin as [<-|Hin].
  - destruct (body_lands _ _ _ _ Hsrc Hg H1) as (L1 & L2 & L3).
    destruct (copy_loop_frame l _ _ _ H2) as (_ & _ & _ & Hio2 & F2).
    destruct (landing_frame g0 (home v1) (home v')) as [E1 E2].
    { intros q. apply F2. now exists g0, q. }
    rewrite E2, E1, L1, Hio2, Hio1. split; [exact L2|exact L3].
  - apply (IH v1 Hnd' (eq_trans (f_equal (get src) S1) Hsrc) H2 g data Hin Hg).
Qed.

Lemma copy_loop_again (l : list string) (v : world) :
  get src (script_dir v) = Some (Dir files) ->
  in_place dest files v ->
  for_each l body v = (v, inl tt).
Proof.
  intros Hsrc Hp. induction l as [|g l IH]; [reflexivity|].
  simpl. assert (Hb : body g v = (v, inl tt)).
  { unfold body, is_file. rewrite bind_gets. fields.
    rewrite (get_child _ _ _ _ Hsrc).
    destruct (lookup g files) as [[data|es]|] eqn:Hg; fields; auto.
    destruct (Hp g data Hg) as [Hget Hio].
    unfold copy2. rewrite (get_child _ _ _ _ Hsrc), Hg.
    unfold basename. rewrite last_last.
    change (if node_is_dir (get (dest ++ [g]) (home v))
            then (dest ++ [g]) ++ [g] else dest ++ [g])
      with (landing dest g (home v)).
    assert (Hl : exists c x, landing dest g (home v) = c ++ [x]).
    { unfold landing. destruct (node_is_dir _); eauto. }
    destruct Hl as (c & x & Hl). rewrite Hl in *.
    unfold parent. rewrite removelast_last.
    destruct (get_child_dir c x (home v)) as [es Hc]; [congruence|].
    rewrite Hc, Hget, Hio. fields.
    now rewrite (put_same _ _ _ _ Hget), set_home_same. }
  now rewrite (bind_ok _ _ _ _ _ Hb).
Qed.

End ItemAgain.

End Again.

Section ItemTwice.

Local Open Scope list_scope.

Lemma mkdir_p_makes_dir (p : path) (n n' : node) :
  mkdir_p p n = inl n' -> exists es, get p n' = Some (Dir es).
Proof.
  revert n n'. induction p as [|x p IH]; intros n n' H.
  - destruct n as [d|es]; simpl in H; [discriminate|]. inversion H. simpl. eauto.
  - destruct n as [d|es]; simpl in H; [discriminate|].
    destruct (mkdir_p p _) as [c'|e] eqn:Hm; [|discriminate].
    inversion H; subst n'. simpl. rewrite lookup_update_same. eauto.
Qed.

Lemma same_frame (v v' : world) :
  frame (fun _ => True) v v' <->
  script_dir v' = script_dir v /\ script_dir_name v' = script_dir_name v /\
  home_name v' = home_name v /\ io_error v' = io_error v /\ home v' = home v.
Proof.
  split.
  - intros (H1 & H2 & H3 & H4 & H5). repeat split; auto.
    specialize (H5 [] I). simpl in H5. now inversion H5.
  - intros (H1 & H2 & H3 & H4 & H5). repeat split; auto.
    intros p _. now rewrite H5.
Qed.

(** A successful round of the installation loop, taken apart. *)
Lemma install_skill_done (s : string) (w w1 : world) :
  Install.install_skill s w = (w1, inl true) ->
  exists files wa v,
    get (Install.skills_source ++ [s; "SKILL.md"%string]) (script_dir w) <> None /\
    get (Install.skills_source ++ [s]) (script_dir w) = Some (Dir files) /\
    mkdir (Install.skills_dest ++ [s]) w = (wa, inl tt) /\
    for_each (names files)
      (fun file =>
         regular <- is_file ScriptDir ((Install.skills_source ++ [s]) ++ [file]) ;;
         if regular
         then copy2 ((Install.skills_source ++ [s]) ++ [file])
                    ((Install.skills_dest ++ [s]) ++ [file])
         else ret tt) wa = (v, inl tt) /\
    w1 = set_stdout (stdout v ++ [("  + " ++ s)%string]) v.
Proof.
  intros H. unfold Install.install_skill, path_exists in H. rewrite bind_gets in H.
  fields.
  destruct (get ((Install.skills_source ++ [s]) ++ ["SKILL.md"%string])
                (script_dir w)) eqn:Hskill; fields;
    [|rewrite bind_print in H; unfold ret in H; discriminate H].
  destruct (bind_inv _ _ _ _ _ H) as [(wa & [] & Hm & H2)|(e & _ & He)];
    [|discriminate].
  destruct (bind_inv _ _ _ _ _ H2) as [(wb & l & Hi & H3)|(e & _ & He)];
    [|discriminate].
  assert (Hs : script_dir wa = script_dir w).
  { unfold mkdir in Hm. destruct (mkdir_p _ _); inversion Hm; reflexivity. }
  unfold iterdir in Hi. fields. rewrite Hs in Hi.
  destruct (get (Install.skills_source ++ [s]) (script_dir w)) as [[d|files]|] eqn:Hsrc;
    inversion Hi; subst wb l.
  destruct (bind_inv _ _ _ _ _ H3) as [(v & [] & Hl & H4)|(e & _ & He)];
    [|discriminate].
  rewrite bind_print in H4. inversion H4.
  exists files, wa, v. repeat split; auto.
  change (Install.skills_source ++ [s; "SKILL.md"%string])
    with ((Install.skills_source ++ [s]) ++ ["SKILL.md"%string]).
  congruence.
Qed.

Lemma in_place_same (d : path) (files : dirents) (v v' : world) :
  home v' = home v -> io_error v' = io_error v ->
  in_place d files v -> in_place d files v'.
Proof. unfold in_place. intros -> ->. auto. Qed.

(** What is true of the target once a skill has been installed. *)
Lemma install_skill_settles (s : string) (w w1 : world) (files : dirents) :
  get (Install.skills_source ++ [s]) (script_dir w) = Some (Dir files) ->
  NoDup (names files) ->
  Install.install_skill s w = (w1, inl true) ->
  script_dir w1 = script_dir w /\
  (exists cur, get (Install.skills_dest ++ [s]) (home w1) = Some (Dir cur)) /\
  in_place (Install.skills_dest ++ [s]) files w1.
Proof.
  intros Hsrc Hnd H.
  destruct (install_skill_done _ _ _ H) as (files' & wa & v & _ & Hsrc' & Hm & Hl & ->).
  rewrite Hsrc in Hsrc'. inversion Hsrc'; subst files'. clear Hsrc'.
  assert (Ha : script_dir wa = script_dir w /\
               exists cur, get (Install.skills_dest ++ [s]) (home wa) = Some (Dir cur)).
  { unfold mkdir in Hm.
    destruct (mkdir_p _ (home w)) as [h|e] eqn:E; inversion Hm; subst wa.
    split; [reflexivity|]. fields. eapply mkdir_p_makes_dir; eauto. }
  destruct Ha as [Hs Hcur]. rewrite <- Hs in Hsrc.
  destruct (copy_files_spec _ _ _ _ _ _ Hnd Hsrc Hcur Hl) as (S1 & _ & Hcur' & _ & _).
  fields. split; [congruence|]. split; [exact Hcur'|].
  apply (in_place_same (Install.skills_dest ++ [s]) files v);
    [reflexivity|reflexivity|].
  intros g data Hg.
  apply (copy_loop_in_place (Install.skills_source ++ [s])
           (Install.skills_dest ++ [s]) files (names files) wa v Hnd Hsrc Hl g data);
    auto.
  apply lookup_names. congruence.
Qed.

(** A skill that is settled is installed again without a change. *)
Lemma install_skill_again (s : string) (v : world) (files : dirents) :
  get (Install.skills_source ++ [s; "SKILL.md"%string]) (script_dir v) <> None ->
  get (Install.skills_source ++ [s]) (script_dir v) = Some (Dir files) ->
  (exists cur, get (Install.skills_dest ++ [s]) (home v) = Some (Dir cur)) ->
  in_place (Install.skills_dest ++ [s]) files v ->
  Install.install_skill s v
  = (set_stdout (stdout v ++ [("  + " ++ s)%string]) v, inl true).
Proof.
  intros Hskill Hsrc [cur Hcur] Hp.
  unfold Install.install_skill, path_exists. rewrite bind_gets. fields.
  change ((Install.skills_source ++ [s]) ++ ["SKILL.md"%string])
    with (Install.skills_source ++ [s; "SKILL.md"%string]).
  destruct (get (Install.skills_source ++ [s; "SKILL.md"%string]) (script_dir v));
    [|congruence]. fields.
  rewrite (bind_ok _ _ _ _ _ (mkdir_present _ _ _ Hcur)).
  unfold bind at 1. unfold iterdir at 1. fields. rewrite Hsrc.
  rewrite (bind_ok _ _ _ _ _ (copy_loop_again _ _ _ (names files) v Hsrc Hp)).
  now rewrite bind_print.
Qed.

(** An item that was installed is installed again without a change, as
    long as nothing refuses the copies. *)
Lemma install_skill_twice (s : string) (w w1 : world) (files : dirents) :
  get (Install.skills_source ++ [s]) (script_dir w) = Some (Dir files) ->
  NoDup (names files) ->
  Install.install_skill s w = (w1, inl true) ->
  Install.install_skill s w1
  = (set_stdout (stdout w1 ++ [("  + " ++ s)%string]) w1, inl true).
Proof.
  intros Hsrc Hnd H.
  destruct (install_skill_settles _ _ _ _ Hsrc Hnd H) as (S1 & Hcur & Hp).
  destruct (install_skill_done _ _ _ H) as (_ & _ & _ & Hskill & _).
  apply (install_skill_again s w1 files); auto; now rewrite S1.
Qed.

(** X9.  Installing an item a second time.  When the item was installed
    and its second installation goes through as well, the second one
    changes nothing in the home directory: every file is written again
    with the content it has, and only the line that reports the item is
    printed once more.  That the second installation goes through is a
    hypothesis: [shutil.copy2] hands the mode of a source file on to its
    copy, and the copy of a read-only file cannot be written again. *)
Theorem item_install_is_idempotent (s : string) (w w1 w2 : world) (files : dirents) :
  get (Install.skills_source ++ [s]) (script_dir w) = Some (Dir files) ->
  NoDup (names files) ->
  Install.install_skill s w = (w1, inl true) ->
  Install.install_skill s w1 = (w2, inl true) ->
  home w2 = home w1 /\
  stdout w2 = stdout w1 ++ [("  + " ++ s)%string].
Proof.
  intros Hsrc Hnd H H2.
  rewrite (install_skill_twice s w w1 files Hsrc Hnd H) in H2.
  inversion H2. split; reflexivity.
Qed.

End ItemTwice.

Section TargetStays.

Local Open Scope list_scope.

Lemma target_stays_refl (w : world) : target_stays w w.
Proof. unfold target_stays. auto. Qed.

Lemma target_stays_trans (a b c : world) :
  target_stays a b -> target_stays b c -> target_stays a c.
Proof. unfold target_stays. auto. Qed.

Lemma target_stays_stdout (w : world) (o : list string) :
  target_stays w (set_stdout o w).
Proof. unfold target_stays. auto. Qed.

Lemma mkdir_p_keeps_dir (c : path) (x : string) (p : path) (n n' : node)
      (es : dirents) :
  get c n = Some (Dir es) ->
  mkdir_p (c ++ x :: p) n = inl n' ->
  exists es', get c n' = Some (Dir es').
Proof.
  revert n n'. induction c as [|z c IH]; intros n n' H Hm.
  - simpl in H. inversion H; subst n. simpl in Hm.
    destruct (mkdir_p p _); inversion Hm. simpl. eauto.
  - destruct n as [d|fs]; [discriminate|]. simpl in H, Hm.
    destruct (lookup z fs) as [k|] eqn:L; [|discriminate].
    destruct (mkdir_p (c ++ x :: p) k) as [k'|e] eqn:Hk; [|discriminate].
    inversion Hm; subst n'. simpl. rewrite lookup_update_same. eauto.
Qed.

Lemma copy2_cases (src d : path) (f : string) (v v1 : world) (r : unit + pyexn) :
  copy2 src (d ++ [f]) v = (v1, r) ->
  v1 = v \/
  exists data c x,
    v1 = set_home (put (c ++ [x]) (File data) (home v)) v /\
    (c = d \/ c = d ++ [f]).
Proof.
  unfold copy2, os_error. intros H.
  destruct (get src (script_dir v)) as [[data|es]|];
    try (inversion H; auto; fail).
  destruct (node_is_dir (get (d ++ [f]) (home v)));
    repeat match type of H with
           | context [match ?x with _ => _ end] => destruct x
           end; inversion H; auto; right.
  - exists data, (d ++ [f]), (basename src). auto.
  - exists data, d, f. auto.
Qed.

Lemma install_skill_target (s : string) :
  keeps target_stays (Install.install_skill s).
Proof.
  intros w w' r H [es Hes].
  destruct (Install.install_skill s w) as [w2 r2] eqn:E. inversion H; subst w2 r2.
  unfold Install.install_skill, path_exists in E. rewrite bind_gets in E.
  destruct (negb _).
  { rewrite bind_print in E. inversion E. fields. eauto. }
  destruct (bind_inv _ _ _ _ _ E) as [(wa & [] & Hm & E2)|(e & Hm & _)].
  2:{ unfold mkdir in Hm. destruct (mkdir_p _ _); inversion Hm. subst. eauto. }
  assert (Ha : exists es', get Install.skills_dest (home wa) = Some (Dir es')).
  { unfold mkdir in Hm.
    destruct (mkdir_p _ (home w)) as [h|e] eqn:Eh; inversion Hm; subst wa. fields.
    eapply (mkdir_p_keeps_dir Install.skills_dest s []); eauto. }
  clear Hm Hes es E.
  destruct (bind_inv _ _ _ _ _ E2) as [(wb & l & Hi & E3)|(e & Hi & _)].
  2:{ unfold iterdir in Hi. fields.
      destruct (get _ (script_dir wa)) as [[d|fs]|]; inversion Hi; subst; eauto. }
  assert (wb = wa).
  { unfold iterdir in Hi. fields.
    destruct (get _ (script_dir wa)) as [[d|fs]|]; inversion Hi; subst; eauto. }
  subst wb. clear Hi.
  assert (Hloop : forall v v' r',
            for_each l
              (fun file =>
                 regular <- is_file ScriptDir ((Install.skills_source ++ [s]) ++ [file]) ;;
                 if regular
                 then copy2 ((Install.skills_source ++ [s]) ++ [file])
                            ((Install.skills_dest ++ [s]) ++ [file])
                 else ret tt) v = (v', r') ->
            (exists es', get Install.skills_dest (home v) = Some (Dir es')) ->
            exists es', get Install.skills_dest (home v') = Some (Dir es')).
  { clear. induction l as [|f l IH]; intros v v' r' H Hv.
    - inversion H; subst. auto.
    - simpl in H.
      assert (Hstep : forall v1 r1,
                (regular <- is_file ScriptDir ((Install.skills_source ++ [s]) ++ [f]) ;;
                 if regular
                 then copy2 ((Install.skills_source ++ [s]) ++ [f])
                            ((Install.skills_dest ++ [s]) ++ [f])
                 else ret tt) v = (v1, r1) ->
                exists es', get Install.skills_dest (home v1) = Some (Dir es')).
      { intros v1 r1 H1. unfold is_file in H1. rewrite bind_gets in H1.
        destruct (node_is_file _); [|inversion H1; subst; auto].
        destruct (copy2_cases _ _ _ _ _ _ H1)
          as [->|(data & c & x & -> & [->| ->])]; auto;
          destruct Hv as [es' Hes']; fields; rewrite <- ?app_assoc;
          eapply (put_keeps_dir Install.skills_dest s); eauto. }
      destruct (bind_inv _ _ _ _ _ H) as [(v1 & [] & H1 & H2)|(e & H1 & _)].
      + eapply IH; eauto.
      + eapply Hstep; eauto. }
  destruct (bind_inv _ _ _ _ _ E3) as [(wc & [] & Hl & E4)|(e & Hl & _)].
  - rewrite bind_print in E4. inversion E4. fields. eapply Hloop; eauto.
  - eapply Hloop; eauto.
Qed.

Lemma install_loop_target (l : list string) (n : nat) :
  keeps target_stays (Install.install_loop l n).
Proof.
  revert n. induction l as [|t l IH]; intros n; simpl.
  - apply keeps_ret, target_stays_refl.
  - apply keeps_bind; [apply target_stays_trans|apply install_skill_target|].
    intros b. apply IH.
Qed.

End TargetStays.

Section RunTwice.

Local Open Scope list_scope.

Lemma install_skill_skipped (s : string) (w w1 : world) :
  Install.install_skill s w = (w1, inl false) -> lacks_skill_file s w.
Proof.
  intros H. unfold lacks_skill_file.
  destruct (get (Install.skills_source ++ [s; "SKILL.md"%string]) (script_dir w))
    eqn:E; auto. exfalso.
  unfold Install.install_skill, path_exists in H. rewrite bind_gets in H. fields.
  change ((Install.skills_source ++ [s]) ++ ["SKILL.md"%string])
    with (Install.skills_source ++ [s; "SKILL.md"%string]) in H.
  rewrite E in H. fields.
  destruct (bind_inv _ _ _ _ _ H) as [(wa & [] & _ & H2)|(e & _ & He)];
    [|discriminate].
  destruct (bind_inv _ _ _ _ _ H2) as [(wb & l & _ & H3)|(e & _ & He)];
    [|discriminate].
  destruct (bind_inv _ _ _ _ _ H3) as [(wc & [] & _ & H4)|(e & _ & He)];
    [|discriminate].
  rewrite bind_print in H4. discriminate H4.
Qed.

Lemma settled_after (s : string) (w w1 : world) (b : bool) :
  unique_names w ->
  Install.install_skill s w = (w1, inl b) ->
  settled_item s w1.
Proof.
  intros Hu H. destruct (install_skill_frame s _ _ _ H) as (S1 & _).
  destruct b.
  - right. destruct (install_skill_done _ _ _ H) as (files & _ & _ & Hk & Hsrc & _).
    destruct (install_skill_settles _ _ _ _ Hsrc (Hu _ _ Hsrc) H) as (_ & Hcur & Hp).
    exists files. rewrite S1. auto.
  - left. unfold lacks_skill_file. rewrite S1.
    eapply install_skill_skipped; eauto.
Qed.

Lemma settled_frame (s : string) (v v' : world) :
  frame (under_skill s) v v' -> settled_item s v -> settled_item s v'.
Proof.
  intros (S1 & _ & _ & Hio & F) [Hl|(files & Hk & Hsrc & [cur Hcur] & Hp)].
  - left. unfold lacks_skill_file in *. now rewrite S1.
  - right. exists files. rewrite S1. repeat split; auto.
    + exists cur. rewrite <- Hcur. apply F. now exists [].
    + destruct (landing_frame (Install.skills_dest ++ [s]) g (home v) (home v'))
        as [E1 E2].
      { intros q. rewrite <- app_assoc. apply F. now exists (g :: q). }
      rewrite E2. now apply (Hp g data).
    + destruct (landing_frame (Install.skills_dest ++ [s]) g (home v) (home v'))
        as [E1 E2].
      { intros q. rewrite <- app_assoc. apply F. now exists (g :: q). }
      rewrite E1, Hio. now apply (Hp g data).
Qed.

Lemma install_skill_rest (s : string) (v : world) :
  settled_item s v ->
  exists line b,
    Install.install_skill s v = (set_stdout (stdout v ++ [line]) v, inl b).
Proof.
  intros [Hl|(files & Hk & Hsrc & Hcur & Hp)].
  - eexists _, false. now apply install_skill_skips.
  - eexists _, true. now apply (install_skill_again s v files).
Qed.

Lemma step_keeps_settled (s t : string) (v v' : world) (r : bool + pyexn) :
  settled_item s v ->
  Install.install_skill t v = (v', r) ->
  settled_item s v'.
Proof.
  intros Hs H. apply (settled_frame s v); auto.
  destruct (string_dec t s) as [->|Hne].
  - destruct (install_skill_rest s v Hs) as (line & b & E).
    rewrite E in H. inversion H. apply frame_stdout.
  - apply (frame_weaken (other_skills t)); [|eapply install_skill_frame; eauto].
    intros p (q & ->). now exists s, q.
Qed.

Lemma loop_keeps_settled (s : string) (l : list string) (n : nat) (v v' : world)
      (r : nat + pyexn) :
  settled_item s v ->
  Install.install_loop l n v = (v', r) ->
  settled_item s v'.
Proof.
  revert n v. induction l as [|t l IH]; intros n v Hs H; simpl in H.
  - now inversion H; subst.
  - destruct (bind_inv _ _ _ _ _ H) as [(v1 & b & H1 & H2)|(e & H1 & _)].
    + eapply IH; [|exact H2]. eapply step_keeps_settled; eauto.
    + eapply step_keeps_settled; eauto.
Qed.

Lemma unique_names_frame (keep : path -> Prop) (v v' : world) :
  frame keep v v' -> unique_names v -> unique_names v'.
Proof. unfold unique_names. intros (-> & _). auto. Qed.

(** After the loop every skill it went through is settled. *)
Lemma loop_settles (l : list string) (n n' : nat) (w w' : world) :
  unique_names w ->
  Install.install_loop l n w = (w', inl n') ->
  forall s, In s l -> settled_item s w'.
Proof.
  revert n w. induction l as [|t l IH]; intros n w Hu H s Hs; [destruct Hs|].
  simpl in H.
  destruct (bind_inv _ _ _ _ _ H) as [(w1 & b & H1 & H2)|(e & _ & He)];
    [|discriminate].
  destruct (string_dec s t) as [->|Hne].
  - eapply loop_keeps_settled; [|exact H2]. eapply settled_after; eauto.
  - destruct Hs as [->|Hs]; [congruence|].
    eapply IH; [|exact H2|exact Hs].
    eapply unique_names_frame; [eapply install_skill_frame; exact H1|exact Hu].
Qed.

(** A loop over settled skills prints and changes nothing else. *)
Lemma loop_again (l : list string) (n : nat) (v : world) :
  (forall s, In s l -> settled_item s v) ->
  exists out n',
    Install.install_loop l n v = (set_stdout (stdout v ++ out) v, inl n').
Proof.
  revert n v. induction l as [|t l IH]; intros n v Hs.
  - exists [], n. simpl. unfold ret. rewrite app_nil_r. now destruct v.
  - destruct (install_skill_rest t v (Hs t (or_introl eq_refl))) as (line & b & E).
    destruct (IH (if b then S n else n) (set_stdout (stdout v ++ [line]) v))
      as (out & n' & E').
    { intros s Hin. apply (settled_frame s v); [apply frame_stdout|].
      apply Hs. now right. }
    exists (line :: out), n'. simpl. rewrite (bind_ok _ _ _ _ _ E), E'.
    fields. now rewrite <- app_assoc.
Qed.

End RunTwice.

Section WholeRunTwice.

Local Open Scope list_scope.

Lemma confirm_same (ex : list string) :
  keeps (frame (fun _ => True)) (Install.confirm_overwrite ex).
Proof. unfold Install.confirm_overwrite. repeat frame_step. Qed.

Lemma confirm_accept (ex : list string) (v : world) (a : string) (rest : list tty) :
  stdin v = Line a :: rest ->
  lower a = "y"%string ->
  exists v', Install.confirm_overwrite ex v = (v', inl tt).
Proof.
  intros Hin Ha. destruct ex as [|e0 ex]; [now exists v|].
  unfold Install.confirm_overwrite.
  rewrite bind_print.
  rewrite (bind_ok _ _ _ _ _ (for_each_print _ _ _)).
  destruct (Nat.ltb 10 (List.length (e0 :: ex))); run_steps;
    (rewrite (input_line _ _ _ a rest) by exact Hin);
    rewrite Ha; eexists; reflexivity.
Qed.

Lemma plan_done (w w0 : world) (dirs : list string) :
  Install.plan w = (w0, inl dirs) ->
  exists es,
    get Install.skills_source (script_dir w) = Some (Dir es) /\
    dirs = source_dirs w es /\ dirs <> [] /\
    exists tgt, get Install.skills_dest (home w0) = Some (Dir tgt).
Proof.
  intros H.
  destruct (get Install.skills_source (script_dir w)) as [[d|es]|] eqn:E.
  - exfalso. revert H. unfold Install.plan, path_exists.
    run_steps. fields. rewrite E. fields.
    unfold bind at 1. unfold iterdir. fields. rewrite E. discriminate.
  - exists es. split; [reflexivity|].
    rewrite (plan_discovers _ _ E) in H.
    destruct (source_dirs w es) as [|d ds] eqn:Ed; [discriminate|].
    destruct (bind_inv _ _ _ _ _ H) as [(wm & [] & Hm & H2)|(e & _ & He)];
      [|discriminate].
    assert (Ht : exists tgt, get Install.skills_dest (home wm) = Some (Dir tgt)).
    { unfold mkdir in Hm. destruct (mkdir_p _ _) as [h|e] eqn:Eh; inversion Hm.
      fields. eapply mkdir_p_makes_dir; eauto. }
    rewrite bind_gets, bind_print in H2. unfold path_exists in H2.
    unfold bind at 1 in H2. rewrite filter_m_gets in H2.
    destruct (bind_inv _ _ _ _ _ H2) as [(wc & [] & Hc & H3)|(e & _ & He)];
      [|discriminate].
    apply confirm_same in Hc. apply same_frame in Hc.
    destruct Hc as (_ & _ & _ & _ & Hh). fields.
    inversion H3; subst. rewrite Hh. repeat split; auto. discriminate.
  - exfalso. revert H. unfold Install.plan, path_exists.
    run_steps. fields. rewrite E. fields. run_steps.
    unfold sys_exit, raise. discriminate.
Qed.

Lemma frame_true (keep : path -> Prop) (v v' : world) :
  frame (fun _ => True) v v' -> frame keep v v'.
Proof. apply frame_weaken. auto. Qed.

Lemma settled_same (s : string) (v v' : world) :
  frame (fun _ => True) v v' -> settled_item s v -> settled_item s v'.
Proof. intros F. apply settled_frame. now apply frame_true. Qed.

(** The closing lines of the installer (lines 79-84). *)
Lemma closing_lines (n : nat) (v v' : world) (r : unit + pyexn) :
  (print (nl ++ "[SUCCESS] Installation complete! Installed "
             ++ str_nat n ++ " skills.")%string ;;
   print (nl ++ "Usage:")%string ;;
   print "  1. Open Claude Code CLI"%string ;;
   print "  2. Type / to see available skills"%string ;;
   print "  3. Use /tdd-red-green, /ci-setup, /api-test-generate, etc."%string ;;
   print (nl ++ "Tip: With 46+ professional skills, Claude DevStudio will save you 8-10 hours per week!")%string)
    v = (v', r) ->
  r = inl tt /\ frame (fun _ => True) v v'.
Proof.
  rewrite !bind_print. unfold print. intros H. inversion H. split; auto.
  repeat split.
Qed.

Lemma install_twice_main (w w1 : world) (a : string) (rest : list tty) :
  unique_names w ->
  Install.main w = (w1, inl tt) ->
  lower a = "y"%string ->
  exists w2,
    Install.main (set_stdin (Line a :: rest) w1) = (w2, inl tt) /\
    home w2 = home w1.
Proof.
  intros Hu H Ha. unfold Install.main in H.
  destruct (bind_inv _ _ _ _ _ H) as [(w0 & dirs & Hplan & Hall)|(e & _ & He)];
    [|discriminate].
  destruct (plan_done _ _ _ Hplan) as (es & Hsrc & Hdirs & Hne & Htgt).
  pose proof (plan_leaves EmptyString _ _ _ Hplan) as F0.
  unfold Install.install_all in Hall. rewrite bind_print in Hall.
  fold (loop_header dirs w0) in Hall.
  destruct (bind_inv _ _ _ _ _ Hall) as [(wl & n & Hloop & Hend)|(e & _ & He)];
    [|discriminate].
  destruct (closing_lines _ _ _ _ Hend) as [_ Fend].
  assert (Hu0 : unique_names (loop_header dirs w0)).
  { apply (unique_names_frame (under_skill EmptyString) w); [|exact Hu].
    eapply frame_trans; [exact F0|apply frame_stdout]. }
  pose proof (loop_settles _ _ _ _ _ Hu0 Hloop) as Hset.
  pose proof (install_loop_target _ _ _ _ _ Hloop Htgt) as [tl Htl].
  pose proof (install_loop_frame _ _ _ _ _ Hloop) as Floop.
  apply same_frame in Fend. destruct Fend as (E1 & E2 & E3 & E4 & E5).
  assert (Es : script_dir w1 = script_dir w).
  { destruct Floop as (A & _). destruct F0 as (B & _).
    unfold loop_header in A. fields. congruence. }
  set (v := set_stdin (Line a :: rest) w1).
  assert (Fv : frame (fun _ => True) wl v).
  { apply same_frame. repeat split; auto. }
  (* the second run *)
  assert (Hsrc' : get Install.skills_source (script_dir v) = Some (Dir es)).
  { unfold v. fields. now rewrite Es. }
  assert (Hd' : source_dirs v es = dirs).
  { rewrite Hdirs. unfold source_dirs, v. fields. now rewrite Es. }
  pose proof (plan_discovers v es Hsrc') as Hplan'. rewrite Hd' in Hplan'.
  destruct dirs as [|d ds]; [congruence|].
  assert (Htv : get Install.skills_dest (home (banner v)) = Some (Dir tl)).
  { unfold v. fields. now rewrite E5. }
  rewrite (bind_ok _ _ _ _ _ (mkdir_present _ _ _ Htv)) in Hplan'.
  rewrite bind_gets, bind_print in Hplan'. unfold path_exists in Hplan'.
  unfold bind at 1 in Hplan'. rewrite filter_m_gets in Hplan'.
  match type of Hplan' with
  | context [bind (Install.confirm_overwrite ?ex) _ ?u] =>
      destruct (confirm_accept ex u a rest eq_refl Ha) as [vc Hc];
      pose proof (confirm_same ex _ _ _ Hc) as Fc
  end.
  rewrite (bind_ok _ _ _ _ _ Hc) in Hplan'.
  assert (Fvc : frame (fun _ => True) wl vc).
  { eapply frame_trans; [exact Fv|].
    eapply frame_trans; [|exact Fc].
    apply same_frame. repeat split. }
  destruct (loop_again (d :: ds) 0 (loop_header (d :: ds) vc)) as (out & n' & Hagain).
  { intros s Hs. apply (settled_same s wl); [|apply Hset, Hs].
    eapply frame_trans; [exact Fvc|apply frame_stdout]. }
  unfold Install.main. rewrite (bind_ok _ _ _ _ _ Hplan').
  unfold Install.install_all. rewrite bind_print.
  fold (loop_header (d :: ds) vc). rewrite (bind_ok _ _ _ _ _ Hagain).
  rewrite !bind_print. unfold print. eexists. split; [reflexivity|].
  unfold loop_header. fields.
  apply same_frame in Fvc. destruct Fvc as (_ & _ & _ & _ & Ev).
  now rewrite Ev, E5.
Qed.

End WholeRunTwice.

Section TwiceTheorem.

(** X10.  Idempotence of the installer.  When a run went through to its
    end and the installer, run again on what it left with the overwrite
    question answered y or Y, goes through to its end as well, the
    second run ends with status 0 and the home directory is exactly
    what the first run left.  That the second run goes through is a
    hypothesis, for the reason given at X9: a read-only file of the
    source makes its copy read-only, and the second run fails on it. *)
Theorem install_is_idempotent (w w1 w2 : world) (a : string) (rest : list tty) :
  unique_names w ->
  Install.main w = (w1, inl tt) ->
  lower a = "y"%string ->
  Install.main (set_stdin (Line a :: rest) w1) = (w2, inl tt) ->
  Install.run (set_stdin (Line a :: rest) w1) = (w2, Exit 0) /\
  home w2 = home w1.
Proof.
  intros Hu H Ha H2.
  destruct (install_twice_main w w1 a rest Hu H Ha) as (w3 & Hm & Hh).
  rewrite H2 in Hm. inversion Hm; subst w3.
  split; [|exact Hh].
  unfold Install.run, interpreter, Install.dunder_main, try_except.
  now rewrite H2.
Qed.

End TwiceTheorem.

Lemma item_install_twice_witness :
  let w1 := fst (Install.install_skill "a" stale_world) in
  let w2 := fst (Install.install_skill "a" w1) in
  NoDup (names [("SKILL.md", File "new")]) /\
  Install.install_skill "a" stale_world = (w1, inl true) /\
  Install.install_skill "a" w1 = (w2, inl true) /\
  home w2 = home w1 /\
  stdout w2 = (stdout w1 ++ ["  + a"])%list.
Proof.
  intros w1 w2.
  assert (Hnd : NoDup (names [("SKILL.md", File "new")])).
  { constructor; [intros []|constructor]. }
  split; [exact Hnd|]. split; [reflexivity|]. split; [reflexivity|].
  exact (item_install_is_idempotent "a" stale_world w1 w2
           [("SKILL.md", File "new")] eq_refl Hnd eq_refl eq_refl).
Defined.

Lemma install_twice_witness :
  let w := sample_world (abc_source "A" "B" "X") [] [] in
  let w1 := fst (Install.main w) in
  let w2 := fst (Install.main (set_stdin [Line "Y"] w1)) in
  unique_names w /\
  Install.main w = (w1, inl tt) /\
  lower "Y" = "y" /\
  Install.main (set_stdin [Line "Y"] w1) = (w2, inl tt) /\
  Install.run (set_stdin [Line "Y"] w1) = (w2, Exit 0) /\
  home w2 = home w1.
Proof.
  intros w w1 w2.
  assert (Hu : unique_names w).
  { intros s files.
    rewrite (get_child Install.skills_source s (script_dir w)
               (abc_source "A" "B" "X") eq_refl).
    simpl.
    destruct (String.eqb s "a");
      [intros H; inversion H; constructor; [intros []|constructor]|].
    destruct (String.eqb s "b");
      [intros H; inversion H; repeat constructor; simpl; intuition discriminate|].
    destruct (String.eqb s "c"); [intros H; inversion H; constructor|discriminate]. }
  assert (Hm : Install.main w = (w1, inl tt)) by (vm_compute; reflexivity).
  assert (Hm2 : Install.main (set_stdin [Line "Y"] w1) = (w2, inl tt))
    by (vm_compute; reflexivity).
  split; [exact Hu|]. split; [exact Hm|]. split; [reflexivity|].
  split; [exact Hm2|].
  exact (install_is_idempotent w w1 w2 "Y" [] Hu Hm eq_refl Hm2).
Defined.

(** ** A first installation *)

Section Fresh.

Local Open Scope list_scope.


Lemma lookup_app_none (x : string) (es es' : dirents) :
  lookup x es = None -> lookup x (es ++ es') = lookup x es'.
Proof.
  induction es as [|[y m] es IH]; simpl; auto.
  destruct (String.eqb x y); [discriminate|auto].
Qed.

Lemma lookup_not_in (x : string) (es : dirents) :
  ~ In x (names es) -> lookup x es = None.
Proof.
  intros H. destruct (lookup x es) eqn:E; auto.
  exfalso. apply H, lookup_names. congruence.
Qed.

Lemma picked_all (files : dirents) :
  NoDup (names files) -> picked files (names files) = regular files.
Proof.
  assert (G : forall pre l, NoDup (names (pre ++ l)) ->
                picked (pre ++ l) (names l) = regular l).
  { intros pre l. revert pre. induction l as [|[g n] l IH]; intros pre Hnd; auto.
    simpl. assert (Hg : lookup g (pre ++ (g, n) :: l) = Some n).
    { rewrite lookup_app_none; [simpl; now rewrite String.eqb_refl|].
      apply lookup_not_in. unfold names in *. rewrite map_app in Hnd.
      simpl in Hnd. apply NoDup_remove_2 in Hnd. intros Hin. apply Hnd.
      apply in_or_app. now left. }
    unfold picked in *. simpl. rewrite Hg.
    specialize (IH (pre ++ [(g, n)])). rewrite <- app_assoc in IH. simpl in IH.
    rewrite (IH Hnd). unfold regular. simpl. now destruct n. }
  intros Hnd. apply (G [] files Hnd).
Qed.

Lemma mkdir_p_child (c : path) (x : string) (n : node) (es : dirents) :
  get c n = Some (Dir es) -> lookup x es = None ->
  mkdir_p (c ++ [x]) n = inl (put (c ++ [x]) (Dir []) n).
Proof.
  revert n. induction c as [|z c IH]; intros n H Hx.
  - simpl in H. inversion H; subst. simpl. now rewrite Hx.
  - destruct n as [d|fs]; [discriminate|]. simpl in H.
    destruct (lookup z fs) as [k|] eqn:L; [|discriminate].
    rewrite <- app_comm_cons, put_cons by apply app_cons_not_nil.
    simpl. rewrite L, (IH _ H Hx). reflexivity.
Qed.

Section OneFreshItem.

Variables (src dest : path) (files : dirents).

Let body : string -> M unit := fun file =>
  regular <- is_file ScriptDir (src ++ [file]) ;;
  if regular then copy2 (src ++ [file]) (dest ++ [file]) else ret tt.

Lemma copy_loop_fresh (l : list string) (v : world) (cur : dirents) :
  NoDup l ->
  get src (script_dir v) = Some (Dir files) ->
  get dest (home v) = Some (Dir cur) ->
  (forall g, In g l -> lookup g cur = None) ->
  (forall g, io_error v (dest ++ [g]) = None) ->
  exists h,
    for_each l body v = (set_home h v, inl tt) /\
    get dest h = Some (Dir (cur ++ picked files l)).
Proof.
  revert v cur. induction l as [|g l IH]; intros v cur Hnd Hsrc Hd Hfree Hio.
  - exists (home v). simpl. rewrite set_home_same, app_nil_r. auto.
  - inversion Hnd as [|? ? Hg Hnd']; subst.
    assert (Hnone : get (dest ++ [g]) (home v) = None).
    { rewrite (get_child _ _ _ _ Hd). apply Hfree. now left. }
    destruct (lookup g files) as [[data|es]|] eqn:Eg.
    + set (h1 := put (dest ++ [g]) (File data) (home v)).
      assert (Hb : body g v = (set_home h1 v, inl tt)).
      { unfold body, is_file. rewrite bind_gets. fields.
        rewrite (get_child _ _ _ _ Hsrc), Eg. fields.
        unfold copy2. rewrite (get_child _ _ _ _ Hsrc), Eg, Hnone. fields.
        unfold parent. rewrite removelast_last, Hd, Hnone, Hio. reflexivity. }
      destruct (IH (set_home h1 v) (cur ++ [(g, File data)])) as (h & Hrun & Hh);
        auto.
      * fields. unfold h1. rewrite (get_put_parent _ _ _ _ _ Hd).
        now rewrite update_absent by (apply Hfree; now left).
      * intros g' Hg'. rewrite lookup_app_none by (apply Hfree; now right).
        simpl. destruct (String.eqb g' g) eqn:E; auto.
        apply String.eqb_eq in E. subst. contradiction.
      * exists h. split.
        -- simpl. rewrite (bind_ok _ _ _ _ _ Hb). exact Hrun.
        -- rewrite Hh. unfold picked. simpl. rewrite Eg. now rewrite <- app_assoc.
    + assert (Hb : body g v = (v, inl tt)).
      { unfold body, is_file. rewrite bind_gets. fields.
        now rewrite (get_child _ _ _ _ Hsrc), Eg. }
      destruct (IH v cur) as (h & Hrun & Hh); auto.
      { intros g' Hg'. apply Hfree. now right. }
      exists h. split.
      * simpl. now rewrite (bind_ok _ _ _ _ _ Hb).
      * rewrite Hh. unfold picked. simpl. now rewrite Eg.
    + assert (Hb : body g v = (v, inl tt)).
      { unfold body, is_file. rewrite bind_gets. fields.
        now rewrite (get_child _ _ _ _ Hsrc), Eg. }
      destruct (IH v cur) as (h & Hrun & Hh); auto.
      { intros g' Hg'. apply Hfree. now right. }
      exists h. split.
      * simpl. now rewrite (bind_ok _ _ _ _ _ Hb).
      * rewrite Hh. unfold picked. simpl. now rewrite Eg.
Qed.

End OneFreshItem.

End Fresh.

Section FirstRun.

Local Open Scope list_scope.

Lemma install_skill_fresh (s : string) (w : world) (files tgt : dirents) :
  get (Install.skills_source ++ [s; "SKILL.md"%string]) (script_dir w) <> None ->
  get (Install.skills_source ++ [s]) (script_dir w) = Some (Dir files) ->
  NoDup (names files) ->
  get Install.skills_dest (home w) = Some (Dir tgt) ->
  lookup s tgt = None ->
  (forall g, io_error w ((Install.skills_dest ++ [s]) ++ [g]) = None) ->
  exists h,
    Install.install_skill s w
    = (set_stdout (stdout w ++ [("  + " ++ s)%string]) (set_home h w), inl true) /\
    get (Install.skills_dest ++ [s]) h = Some (Dir (regular files)).
Proof.
  intros Hskill Hsrc Hnd Hd Hs Hio.
  set (h1 := put (Install.skills_dest ++ [s]) (Dir []) (home w)).
  assert (Hm : mkdir (Install.skills_dest ++ [s]) w = (set_home h1 w, inl tt)).
  { unfold mkdir. now rewrite (mkdir_p_child _ _ _ _ Hd Hs). }
  destruct (copy_loop_fresh (Install.skills_source ++ [s]) (Install.skills_dest ++ [s])
              files (names files) (set_home h1 w) []) as (h & Hrun & Hh); auto.
  { fields. unfold h1. exact (get_put_same _ _ _ _ _ Hd). }
  exists h. split.
  - unfold Install.install_skill, path_exists. rewrite bind_gets. fields.
    change ((Install.skills_source ++ [s]) ++ ["SKILL.md"%string])
      with (Install.skills_source ++ [s; "SKILL.md"%string]).
    destruct (get (Install.skills_source ++ [s; "SKILL.md"%string]) (script_dir w));
      [|contradiction]. fields.
    rewrite (bind_ok _ _ _ _ _ Hm). cbv beta.
    unfold iterdir at 1. unfold bind at 1. fields. rewrite Hsrc.
    rewrite (bind_ok _ _ _ _ _ Hrun). reflexivity.
  - rewrite Hh. simpl. now rewrite picked_all.
Qed.

Lemma mkdir_p_child_none (p : path) (x : string) (n h : node) :
  mkdir_p p n = inl h -> get (p ++ [x]) n = None -> get (p ++ [x]) h = None.
Proof.
  intros Hm Hn. destruct (mkdir_p_fresh _ _ _ Hm) as [[_ ->]|[_ Hd]]; auto.
  now rewrite (get_child _ _ _ _ Hd).
Qed.

Lemma install_loop_fresh (l : list string) (n : nat) (v : world) :
  NoDup l ->
  unique_names v ->
  (forall s, In s l ->
     exists files, get (Install.skills_source ++ [s]) (script_dir v) = Some (Dir files)) ->
  (exists tgt, get Install.skills_dest (home v) = Some (Dir tgt)) ->
  (forall s, In s l -> get (Install.skills_dest ++ [s]) (home v) = None) ->
  (forall p, io_error v p = None) ->
  exists v',
    Install.install_loop l n v
    = (v', inl (n + List.length (filter (complete v) l))) /\
    stdin v' = stdin v /\
    forall s, In s l -> delivered s v v'.
Proof.
  revert n v. induction l as [|s l IH]; intros n v Hnd Hu Hsrc Ht Hfree Hio.
  - exists v. simpl. rewrite Nat.add_0_r. repeat split; auto. intros s [].
  - inversion Hnd as [|? ? Hs Hnd']; subst.
    destruct (Hsrc s (or_introl eq_refl)) as (files & Hfiles).
    destruct Ht as (tgt & Ht).
    assert (Hnone : lookup s tgt = None).
    { rewrite <- (get_child _ _ _ _ Ht). apply Hfree. now left. }
    assert (Hstep : exists w1 b,
      Install.install_skill s v = (w1, inl b) /\ b = complete v s /\
      stdin w1 = stdin v /\ delivered s v w1).
    { destruct (complete v s) eqn:Ec.
      - assert (Hsk : get (Install.skills_source ++ [s; "SKILL.md"%string])
                          (script_dir v) <> None).
        { unfold complete in Ec.
          destruct (get (Install.skills_source ++ [s; "SKILL.md"%string]) (script_dir v));
            [discriminate|discriminate Ec]. }
        destruct (install_skill_fresh s v files tgt) as (h & Hrun & Hh); auto.
        { exact (Hu _ _ Hfiles). }
        eexists _, true. split; [exact Hrun|]. repeat split; auto.
        intros files' Hf. rewrite Ec. fields. congruence.
      - assert (Hl : lacks_skill_file s v).
        { unfold lacks_skill_file. unfold complete in Ec.
          destruct (get (Install.skills_source ++ [s; "SKILL.md"%string]) (script_dir v));
            [discriminate Ec|reflexivity]. }
        eexists _, false. split; [exact (install_skill_skips s v Hl)|].
        repeat split; auto. intros files' _. rewrite Ec. fields.
        apply Hfree. now left. }
    destruct Hstep as (w1 & b & Hrun & Hb & Hin & Hdel).
    pose proof (install_skill_frame s _ _ _ Hrun) as (Hsd & _ & _ & Hioe & Hget).
    pose proof (install_skill_target s _ _ _ Hrun) as Htgt.
    assert (Hc : forall t, complete w1 t = complete v t).
    { intros t. unfold complete. now rewrite Hsd. }
    destruct (IH (if b then S n else n) w1) as (v' & Hloop & Hin' & Hall); auto.
    + unfold unique_names. rewrite Hsd. exact Hu.
    + intros t Hin1. rewrite Hsd. apply Hsrc. now right.
    + apply Htgt. eauto.
    + intros t Hin1. rewrite Hget; [apply Hfree; now right|].
      exists t, []. split; [|reflexivity]. intros ->. contradiction.
    + intros p. rewrite Hioe. apply Hio.
    + exists v'. split; [|split].
      * simpl. rewrite (bind_ok _ _ _ _ _ Hrun), Hloop.
        rewrite (filter_ext _ _ Hc). subst b.
        destruct (complete v s); simpl; do 2 f_equal; lia.
      * congruence.
      * intros t [<-|Hin1].
        -- intros files' Hf.
           pose proof (install_loop_frame l _ _ _ _ Hloop) as (_ & _ & _ & _ & Hg).
           rewrite Hg; [exact (Hdel files' Hf)|].
           exists s, []. split; auto.
        -- intros files' Hf. rewrite <- Hc, <- Hsd in *. rewrite Hc.
           assert (Hx := Hall t Hin1 files'). rewrite Hc in Hx. apply Hx.
           exact Hf.
Qed.

Lemma filter_none {A} (f : A -> bool) (l : list A) :
  (forall x, In x l -> f x = false) -> filter f l = [].
Proof.
  induction l as [|x l IH]; intros H; auto. simpl.
  rewrite (H x (or_introl eq_refl)). apply IH. intros y Hy. apply H. now right.
Qed.


(** X12.  The first run of the installer.  When the source directory
    lists at least one directory, no name is listed twice, the target
    directory can be created, none of the source directories has an
    entry in the target yet and no write is refused, the run ends with
    status 0 without asking anything; the summary counts the items that
    have a SKILL.md; every such item is in the target with exactly its
    regular files, and the items without SKILL.md have no entry in the
    target. *)
Theorem first_install (w : world) (es : dirents) (h0 : node) :
  get Install.skills_source (script_dir w) = Some (Dir es) ->
  source_dirs w es <> [] ->
  NoDup (names es) ->
  unique_names w ->
  mkdir_p Install.skills_dest (home w) = inl h0 ->
  (forall s, In s (source_dirs w es) ->
             get (Install.skills_dest ++ [s]) (home w) = None) ->
  (forall p, io_error w p = None) ->
  exists w',
    Install.run w = (w', Exit 0) /\
    stdin w' = stdin w /\
    In (nl ++ "[SUCCESS] Installation complete! Installed "
           ++ str_nat (List.length (filter (complete w) (source_dirs w es)))
           ++ " skills.")%string (stdout w') /\
    forall s, In s (source_dirs w es) -> delivered s w w'.
Proof.
  intros Hsrc Hne Hnd Hu Hm Hfree Hio.
  pose proof (plan_discovers w es Hsrc) as Hplan.
  destruct (source_dirs w es) as [|d ds] eqn:Ed; [congruence|]. clear Hne.
  assert (Hmk : mkdir Install.skills_dest (banner w) = (set_home h0 (banner w), inl tt)).
  { unfold mkdir. fields. now rewrite Hm. }
  rewrite (bind_ok _ _ _ _ _ Hmk) in Hplan.
  rewrite bind_gets, bind_print in Hplan. unfold path_exists in Hplan.
  unfold bind at 1 in Hplan. rewrite filter_m_gets in Hplan.
  match type of Hplan with
  | context [filter ?f ?l] =>
      assert (Hex : filter f l = []); [|rewrite Hex in Hplan]
  end.
  { apply filter_none. intros s Hs.
    fields. now rewrite (mkdir_p_child_none _ _ _ _ Hm (Hfree s Hs)). }
  unfold Install.confirm_overwrite in Hplan. rewrite bind_ret in Hplan.
  unfold ret in Hplan.
  match type of Hplan with _ = (?u, _) => set (w0 := u) in * end.
  destruct (install_loop_fresh (d :: ds) 0 (loop_header (d :: ds) w0))
    as (v' & Hloop & Hin & Hall).
  - rewrite <- Ed. unfold source_dirs. apply NoDup_filter. exact Hnd.
  - exact Hu.
  - intros s Hs. rewrite <- Ed in Hs.
    apply (source_dirs_spec _ _ _ Hsrc) in Hs. destruct Hs as [_ Hs].
    change (script_dir (loop_header (d :: ds) w0)) with (script_dir w).
    rewrite (get_child _ _ _ _ Hsrc).
    destruct (lookup s es) as [[?|files]|]; try discriminate. eauto.
  - change (home (loop_header (d :: ds) w0)) with h0.
    exact (mkdir_p_makes_dir _ _ _ Hm).
  - intros s Hs. change (home (loop_header (d :: ds) w0)) with h0.
    exact (mkdir_p_child_none _ _ _ _ Hm (Hfree s Hs)).
  - exact Hio.
  - eexists. split; [|split; [|split]].
    + unfold Install.run, interpreter, Install.dunder_main, try_except, Install.main.
      rewrite (bind_ok _ _ _ _ _ Hplan).
      unfold Install.install_all. rewrite bind_print.
      fold (loop_header (d :: ds) w0). rewrite (bind_ok _ _ _ _ _ Hloop).
      rewrite !bind_print. unfold print. reflexivity.
    + fields. exact Hin.
    + fields. rewrite !in_app_iff. simpl. 
      change (complete (loop_header (d :: ds) w0)) with (complete w). intuition.
    + intros s Hs files Hf. fields. exact (Hall s Hs files Hf).
Qed.

End FirstRun.


Lemma first_install_witness :
  let w := sample_world (abc_source "A" "B" "X") [] [] in
  exists w',
    Install.run w = (w', Exit 0) /\
    stdin w' = [] /\
    In (nl ++ "[SUCCESS] Installation complete! Installed 2 skills.")%string
       (stdout w') /\
    forall s, In s ["a"; "b"; "c"]%string -> delivered s w w'.
Proof.
  intros w.
  assert (Hu : unique_names w).
  { intros s files.
    rewrite (get_child Install.skills_source s (script_dir w)
               (abc_source "A" "B" "X") eq_refl).
    simpl.
    destruct (String.eqb s "a");
      [intros H; inversion H; constructor; [intros []|constructor]|].
    destruct (String.eqb s "b");
      [intros H; inversion H; repeat constructor; simpl; intuition discriminate|].
    destruct (String.eqb s "c"); [intros H; inversion H; constructor|discriminate]. }
  assert (Hnd : NoDup (names (abc_source "A" "B" "X"))).
  { repeat constructor; simpl; intuition discriminate. }
  assert (Hfree : forall s, In s (source_dirs w (abc_source "A" "B" "X")) ->
                            get (Install.skills_dest ++ [s])%list (home w) = None).
  { intros s _. now rewrite (get_child Install.skills_dest s (home w) [] eq_refl). }
  exact (first_install w (abc_source "A" "B" "X") (home w) eq_refl
           (fun H => ltac:(discriminate H)) Hnd Hu eq_refl Hfree (fun _ => eq_refl)).
Defined.

(** ** The uninstaller after the confirmation *)

Section Accepted.

Local Open Scope list_scope.

Lemma remove_command_removal (c : string) (n : nat) (w : world) :
  Uninstall.remove_command c n w
  = (fst (command_removal c n w), inl (snd (command_removal c n w))).
Proof.
  unfold Uninstall.remove_command, command_removal, path_exists, try_except, bind,
    os_remove, gets, os_error, print, ret.
  cbv beta zeta. fields.
  destruct (get (Uninstall.commands_dir ++ [c]) (home w)) as [[d|es]|] eqn:E;
    fields; cbv beta; rewrite ?E; try reflexivity.
  destruct (io_error w (Uninstall.commands_dir ++ [c])); reflexivity.
Qed.

Lemma command_removal_stdin (c : string) (n : nat) (w : world) :
  stdin (fst (command_removal c n w)) = stdin w.
Proof.
  unfold command_removal. cbv zeta.
  destruct (get (Uninstall.commands_dir ++ [c]) (home w)) as [[d|es]|]; auto.
  destruct (io_error w (Uninstall.commands_dir ++ [c])); auto.
Qed.

Lemma remove_skills_returns (l : list string) (n : nat) (w : world) :
  exists w' n',
    Uninstall.remove_skills l n w = (w', inl n') /\ stdin w' = stdin w.
Proof.
  revert n w. induction l as [|s l IH]; intros n w.
  - now exists w, n.
  - destruct (IH (snd (removal s n w)) (fst (removal s n w))) as (w' & n' & H & Hin).
    exists w', n'. split.
    + simpl. now rewrite (bind_ok _ _ _ _ _ (remove_skill_removal s n w)).
    + now rewrite Hin, removal_stdin.
Qed.

Lemma remove_commands_returns (l : list string) (n : nat) (w : world) :
  exists w' n',
    Uninstall.remove_commands l n w = (w', inl n') /\ stdin w' = stdin w.
Proof.
  revert n w. induction l as [|s l IH]; intros n w.
  - now exists w, n.
  - destruct (IH (snd (command_removal s n w)) (fst (command_removal s n w)))
      as (w' & n' & H & Hin).
    exists w', n'. split.
    + simpl. now rewrite (bind_ok _ _ _ _ _ (remove_command_removal s n w)).
    + now rewrite Hin, command_removal_stdin.
Qed.

Lemma skills_block_returns (w : world) :
  exists w' n', skills_block w = (w', inl n') /\ stdin w' = stdin w.
Proof.
  unfold skills_block, path_exists. rewrite bind_gets.
  destruct (is_some (get Uninstall.skills_dir (tree Home w))).
  - apply remove_skills_returns.
  - now exists w, 0.
Qed.

Lemma commands_block_returns (w : world) :
  exists w' n', commands_block w = (w', inl n') /\ stdin w' = stdin w.
Proof.
  unfold commands_block, path_exists. rewrite bind_gets.
  destruct (is_some (get Uninstall.commands_dir (tree Home w))).
  - apply remove_commands_returns.
  - now exists w, 0.
Qed.

(** Lines 89-131 once the two loops are through. *)
Lemma remove_all_loops (w ws w1 : world) (n1 n2 : nat) :
  skills_block w = (ws, inl n1) ->
  commands_block ws = (w1, inl n2) ->
  Uninstall.remove_all w = (Uninstall.clean_cache ;; farewell n1 n2) w1.
Proof.
  intros Hs Hc. unfold Uninstall.remove_all.
  fold skills_block. fold commands_block.
  rewrite (bind_ok _ _ _ _ _ Hs), (bind_ok _ _ _ _ _ Hc). reflexivity.
Qed.

(** Lines 59-87 when something is found and the answer is y or Y. *)
Lemma main_accepted (w : world) (a : string) (rest : list tty) :
  found w <> (0, 0) ->
  stdin w = Line a :: rest ->
  lower a = "y"%string ->
  exists out,
    Uninstall.main w
    = Uninstall.remove_all (set_stdin rest (set_stdout (stdout w ++ out) w)).
Proof.
  intros Hf Hin Ha.
  unfold Uninstall.main.
  rewrite !bind_print.
  rewrite (bind_ok _ _ _ _ _ (count_block _ _ _)).
  rewrite (bind_ok _ _ _ _ _ (count_block _ _ _)).
  set (w0 := set_stdout _ (set_stdout _ w)).
  assert (E1 : installed Uninstall.skills_dir Uninstall.skills w0
               = installed Uninstall.skills_dir Uninstall.skills w) by reflexivity.
  assert (E2 : installed Uninstall.commands_dir Uninstall.legacy_commands w0
               = installed Uninstall.commands_dir Uninstall.legacy_commands w)
    by reflexivity.
  unfold found in Hf. rewrite E1, E2.
  destruct (Nat.eqb (installed Uninstall.skills_dir Uninstall.skills w) 0
            && Nat.eqb (installed Uninstall.commands_dir
                                  Uninstall.legacy_commands w) 0) eqn:Ez.
  { apply andb_prop in Ez. destruct Ez as [Z1 Z2].
    apply Nat.eqb_eq in Z1, Z2. rewrite Z1, Z2 in Hf. congruence. }
  destruct (Nat.ltb 0 (installed Uninstall.skills_dir Uninstall.skills w));
    destruct (Nat.ltb 0 (installed Uninstall.commands_dir
                                   Uninstall.legacy_commands w));
    cbv iota; run_steps;
    (rewrite (input_line _ _ _ a rest) by exact Hin);
    rewrite Ha; unfold print, w0; fields;
    eexists; rewrite <- !app_assoc; reflexivity.
Qed.

End Accepted.

Section Apart.

Local Open Scope list_scope.

Lemma claude_apart (x y : string) (p q : path) :
  x <> y -> apart (".claude"%string :: x :: p) (".claude"%string :: y :: q).
Proof. exact (apart_siblings [".claude"%string] x y p q). Qed.

Variable keep : path -> Prop.

Lemma remove_skills_apart (l : list string) (n : nat) :
  (forall x q, In x l -> keep q -> apart (Uninstall.skills_dir ++ [x]) q) ->
  keeps (frame keep) (Uninstall.remove_skills l n).
Proof.
  revert n. induction l as [|s l IH]; intros n Hl; simpl.
  - frame_step.
  - frame_step; [|apply IH; intros x q Hx; apply Hl; now right].
    unfold Uninstall.remove_skill. repeat frame_step.
    intros q Hq. apply Hl; auto. now left.
Qed.

Lemma remove_commands_apart (l : list string) (n : nat) :
  (forall x q, In x l -> keep q -> apart (Uninstall.commands_dir ++ [x]) q) ->
  keeps (frame keep) (Uninstall.remove_commands l n).
Proof.
  revert n. induction l as [|s l IH]; intros n Hl; simpl.
  - frame_step.
  - frame_step; [|apply IH; intros x q Hx; apply Hl; now right].
    unfold Uninstall.remove_command. repeat frame_step.
    intros q Hq. apply Hl; auto. now left.
Qed.

Lemma skills_block_apart :
  (forall x q, In x Uninstall.skills -> keep q ->
               apart (Uninstall.skills_dir ++ [x]) q) ->
  keeps (frame keep) skills_block.
Proof.
  intros H. unfold skills_block. repeat frame_step.
  now apply remove_skills_apart.
Qed.

Lemma commands_block_apart :
  (forall x q, In x Uninstall.legacy_commands -> keep q ->
               apart (Uninstall.commands_dir ++ [x]) q) ->
  keeps (frame keep) commands_block.
Proof.
  intros H. unfold commands_block. repeat frame_step.
  now apply remove_commands_apart.
Qed.

Lemma clean_cache_apart :
  (forall q, keep q -> apart Uninstall.cache_dir q) ->
  (forall q, keep q -> apart Uninstall.backup_dir q) ->
  keeps (frame keep) Uninstall.clean_cache.
Proof.
  intros Hc Hb. unfold Uninstall.clean_cache. repeat frame_step; assumption.
Qed.

Lemma farewell_frame (n1 n2 : nat) : keeps (frame keep) (farewell n1 n2).
Proof. unfold farewell. repeat frame_step. Qed.

End Apart.

Section Commands.

Local Open Scope list_scope.

Variable c : string.

Let p : path := Uninstall.commands_dir ++ [c].

Lemma command_removal_io (x : string) (n : nat) (w : world) :
  io_error (fst (command_removal x n w)) = io_error w.
Proof.
  unfold command_removal. cbv zeta.
  destruct (get (Uninstall.commands_dir ++ [x]) (home w)) as [[d|es]|]; auto.
  destruct (io_error w (Uninstall.commands_dir ++ [x])); auto.
Qed.

Lemma command_removal_other (x : string) (n : nat) (w : world) (r : path) :
  x <> c ->
  get (Uninstall.commands_dir ++ c :: r) (home (fst (command_removal x n w)))
  = get (Uninstall.commands_dir ++ c :: r) (home w).
Proof.
  intros Hne. unfold command_removal. cbv zeta.
  destruct (get (Uninstall.commands_dir ++ [x]) (home w)) as [[d|es]|]; auto.
  destruct (io_error w (Uninstall.commands_dir ++ [x])); auto.
  fields. apply get_del_apart.
  exact (apart_siblings Uninstall.commands_dir x c [] r Hne).
Qed.

Lemma command_removal_goes (x : string) (n : nat) (w : world) :
  goes c w ->
  goes c (fst (command_removal x n w)) /\
  (x = c -> get p (home (fst (command_removal x n w))) = None).
Proof.
  intros Hg. destruct (string_dec x c) as [->|Hne].
  - assert (Hnone : get p (home (fst (command_removal c n w))) = None).
    { unfold command_removal. cbv zeta. fold p.
      destruct Hg as [Hg|[[d Hg] Hio]]; fold p in Hg; rewrite Hg; auto.
      fold p in Hio. rewrite Hio. fields.
      exact (get_del_same Uninstall.commands_dir c [] (home w)). }
    split; [left; exact Hnone|auto].
  - split; [|congruence]. unfold goes. cbv zeta.
    rewrite command_removal_io.
    rewrite (command_removal_other x n w [] Hne). exact Hg.
Qed.

Lemma command_removal_none (x : string) (n : nat) (w : world) :
  get p (home w) = None -> get p (home (fst (command_removal x n w))) = None.
Proof.
  intros Hn. destruct (string_dec x c) as [->|Hne].
  - unfold command_removal. cbv zeta. fold p. now rewrite Hn.
  - unfold p. now rewrite (command_removal_other x n w [] Hne).
Qed.

Lemma command_removal_dir (x : string) (n : nat) (w : world) (es : dirents) :
  get p (home w) = Some (Dir es) ->
  get p (home (fst (command_removal x n w))) = Some (Dir es).
Proof.
  intros Hd. destruct (string_dec x c) as [->|Hne].
  - unfold command_removal. cbv zeta. fold p. now rewrite Hd.
  - unfold p. now rewrite (command_removal_other x n w [] Hne).
Qed.

Lemma remove_commands_clears (l : list string) (n : nat) (w : world) :
  goes c w ->
  exists w' n',
    Uninstall.remove_commands l n w = (w', inl n') /\
    goes c w' /\
    (get p (home w) = None -> get p (home w') = None) /\
    (In c l -> get p (home w') = None).
Proof.
  revert n w. induction l as [|x l IH]; intros n w Hg.
  - exists w, n. repeat split; auto. intros [].
  - destruct (command_removal_goes x n w Hg) as [Hg1 Hx].
    destruct (IH (snd (command_removal x n w)) (fst (command_removal x n w)) Hg1)
      as (w' & n' & Hrun & Hg' & Hnone & Hin).
    exists w', n'. split; [|split; [exact Hg'|split]].
    + simpl. now rewrite (bind_ok _ _ _ _ _ (remove_command_removal x n w)).
    + intros Hn. apply Hnone. now apply command_removal_none.
    + intros [->|Hc]; auto.
Qed.

Lemma remove_commands_dir (l : list string) (n : nat) (w : world) (es : dirents) :
  get p (home w) = Some (Dir es) ->
  exists w' n',
    Uninstall.remove_commands l n w = (w', inl n') /\
    get p (home w') = Some (Dir es).
Proof.
  revert n w. induction l as [|x l IH]; intros n w Hd.
  - now exists w, n.
  - destruct (IH (snd (command_removal x n w)) (fst (command_removal x n w))
                (command_removal_dir x n w es Hd)) as (w' & n' & Hrun & Hd').
    exists w', n'. split; auto.
    simpl. now rewrite (bind_ok _ _ _ _ _ (remove_command_removal x n w)).
Qed.

Lemma below_command_skills (x : string) (q : path) :
  below p q -> apart (Uninstall.skills_dir ++ [x]) q.
Proof.
  intros [r ->]. unfold p. rewrite <- app_assoc.
  apply claude_apart. discriminate.
Qed.

Lemma below_command_cache (q : path) :
  below p q -> apart Uninstall.cache_dir q /\ apart Uninstall.backup_dir q.
Proof.
  intros [r ->]. unfold p. rewrite <- app_assoc.
  split; apply claude_apart; discriminate.
Qed.

(** The command file [c] through lines 59-131. *)
Lemma main_command (w w' : world) (res : unit + pyexn) (a : string)
      (rest : list tty) :
  stdin w = Line a :: rest ->
  lower a = "y"%string ->
  In c Uninstall.legacy_commands ->
  Uninstall.main w = (w', res) ->
  (goes c w -> get p (home w) <> None -> get p (home w') = None) /\
  (forall es, get p (home w) = Some (Dir es) -> get p (home w') = Some (Dir es)).
Proof.
  intros Hin Ha Hc Hmain.
  assert (Hcase : get p (home w) <> None ->
    exists w3 ws n1,
      Uninstall.main w = Uninstall.remove_all w3 /\
      skills_block w3 = (ws, inl n1) /\
      get p (home ws) = get p (home w) /\ io_error ws = io_error w /\
      get Uninstall.commands_dir (home ws) <> None).
  { intros Hsome.
    assert (Hf : found w <> (0, 0)).
    { unfold found. intros E.
      assert (E2 := f_equal snd E). simpl in E2.
      apply Hsome. exact (installed_zero _ _ w c E2 Hc). }
    destruct (main_accepted w a rest Hf Hin Ha) as [out Hm].
    destruct (skills_block_returns (set_stdin rest (set_stdout (stdout w ++ out) w)))
      as (ws & n1 & Hs & _).
    pose proof (skills_block_apart (below p)
                  (fun x q _ Hq => below_command_skills x q Hq) _ _ _ Hs)
      as (_ & _ & _ & Hio & F).
    assert (Hp : get p (home ws) = get p (home w)).
    { rewrite F; [reflexivity|]. exists []. now rewrite app_nil_r. }
    eexists _, ws, n1. repeat split; eauto.
    intros E. apply Hsome. rewrite <- Hp. unfold p. now rewrite get_app, E. }
  assert (Hafter : forall w1 n1 n2,
    (Uninstall.clean_cache ;; farewell n1 n2) w1 = (w', res) ->
    get p (home w') = get p (home w1)).
  { intros w1 n1 n2 H.
    assert (K : keeps (frame (below p)) (Uninstall.clean_cache ;; farewell n1 n2)).
    { apply keeps_bind; [apply frame_trans| |intros _; apply farewell_frame].
      apply clean_cache_apart; intros q Hq; now apply below_command_cache. }
    destruct (K _ _ _ H) as (_ & _ & _ & _ & F).
    apply F. exists []. now rewrite app_nil_r. }
  assert (Hblock : forall ws, get Uninstall.commands_dir (home ws) <> None ->
    commands_block ws = Uninstall.remove_commands Uninstall.legacy_commands 0 ws).
  { intros ws Hd. unfold commands_block, path_exists. rewrite bind_gets. fields.
    destruct (get Uninstall.commands_dir (home ws)); [reflexivity|congruence]. }
  split.
  - intros Hg Hsome.
    destruct (Hcase Hsome) as (w3 & ws & n1 & Hm & Hs & Hp & Hio & Hd).
    assert (Hg' : goes c ws).
    { unfold goes. cbv zeta. fold p. rewrite Hp, Hio. exact Hg. }
    destruct (remove_commands_clears Uninstall.legacy_commands 0 ws Hg')
      as (w1 & n2 & Hrun & _ & _ & Hnone).
    rewrite <- (Hblock ws Hd) in Hrun.
    rewrite Hm, (remove_all_loops _ _ _ _ _ Hs Hrun) in Hmain.
    rewrite (Hafter _ _ _ Hmain). exact (Hnone Hc).
  - intros es Hdir.
    assert (Hsome : get p (home w) <> None) by congruence.
    destruct (Hcase Hsome) as (w3 & ws & n1 & Hm & Hs & Hp & Hio & Hd).
    rewrite Hdir in Hp.
    destruct (remove_commands_dir Uninstall.legacy_commands 0 ws es Hp)
      as (w1 & n2 & Hrun & Hkeep).
    rewrite <- (Hblock ws Hd) in Hrun.
    rewrite Hm, (remove_all_loops _ _ _ _ _ Hs Hrun) in Hmain.
    rewrite (Hafter _ _ _ Hmain). exact Hkeep.
Qed.

(** X13.  The legacy command files.  When the confirmation is accepted,
    a listed command file that is a regular file and that the oracle
    does not refuse is gone after the run, whatever happens to the
    skills and to the cache.  A directory that stands under the name of
    a listed command file is never deleted: it is there after the run
    with all it holds. *)
Theorem legacy_commands_removed (w : world) (a : string) (rest : list tty) :
  stdin w = Line a :: rest ->
  lower a = "y"%string ->
  In c Uninstall.legacy_commands ->
  ((exists d, get (Uninstall.commands_dir ++ [c]) (home w) = Some (File d)) ->
   io_error w (Uninstall.commands_dir ++ [c]) = None ->
   get (Uninstall.commands_dir ++ [c]) (home (fst (Uninstall.run w))) = None) /\
  (forall es,
     get (Uninstall.commands_dir ++ [c]) (home w) = Some (Dir es) ->
     get (Uninstall.commands_dir ++ [c]) (home (fst (Uninstall.run w)))
     = Some (Dir es)).
Proof.
  intros Hin Ha Hc.
  unfold Uninstall.run, interpreter, Uninstall.dunder_main.
  destruct (Uninstall.main w) as [w1 r] eqn:E.
  destruct (main_command _ _ _ _ _ Hin Ha Hc E) as [H1 H2].
  split.
  - intros [d Hd] Hio.
    assert (G : get p (home w1) = None).
    { apply H1; [right; split; [now exists d|exact Hio]|]. unfold p. congruence. }
    destruct r as [u|[k| |msg]]; exact G.
  - intros es Hd. specialize (H2 es Hd).
    destruct r as [u|[k| |msg]]; exact H2.
Qed.

End Commands.

Section Cache.

Local Open Scope list_scope.

Lemma cache_paths_skills (x : string) (q : path) :
  cache_paths q -> apart (Uninstall.skills_dir ++ [x]) q.
Proof. intros [[r ->]|[r ->]]; apply claude_apart; discriminate. Qed.

Lemma cache_paths_commands (x : string) (q : path) :
  cache_paths q -> apart (Uninstall.commands_dir ++ [x]) q.
Proof. intros [[r ->]|[r ->]]; apply claude_apart; discriminate. Qed.

(** Lines 59-113 when something is found and the answer is y or Y: the
    two loops return, they read nothing, and they leave the cache and
    the backups alone. *)
Lemma main_loops (w : world) (a : string) (rest : list tty) :
  found w <> (0, 0) ->
  stdin w = Line a :: rest ->
  lower a = "y"%string ->
  exists w1 n1 n2,
    Uninstall.main w = (Uninstall.clean_cache ;; farewell n1 n2) w1 /\
    stdin w1 = rest /\
    frame cache_paths w w1.
Proof.
  intros Hf Hin Ha.
  destruct (main_accepted w a rest Hf Hin Ha) as [out Hm].
  set (w3 := set_stdin rest (set_stdout (stdout w ++ out) w)) in Hm.
  destruct (skills_block_returns w3) as (ws & n1 & Hs & Hsin).
  destruct (commands_block_returns ws) as (w1 & n2 & Hc & Hcin).
  exists w1, n1, n2. split; [|split].
  - rewrite Hm. exact (remove_all_loops _ _ _ _ _ Hs Hc).
  - now rewrite Hcin, Hsin.
  - apply (frame_trans _ w w3); [repeat split|].
    apply (frame_trans _ w3 ws).
    + exact (skills_block_apart cache_paths
               (fun x q _ Hq => cache_paths_skills x q Hq) _ _ _ Hs).
    + exact (commands_block_apart cache_paths
               (fun x q _ Hq => cache_paths_commands x q Hq) _ _ _ Hc).
Qed.

Lemma frame_has_cache (w w1 : world) :
  frame cache_paths w w1 ->
  get Uninstall.cache_dir (home w1) = get Uninstall.cache_dir (home w) /\
  get Uninstall.backup_dir (home w1) = get Uninstall.backup_dir (home w).
Proof.
  intros (_ & _ & _ & _ & F). split; apply F.
  - left. exists []. reflexivity.
  - right. exists []. reflexivity.
Qed.

Lemma clean_cache_absent (w : world) :
  has_cache w = false -> Uninstall.clean_cache w = (w, inl tt).
Proof.
  unfold has_cache, Uninstall.clean_cache, path_exists. intros H.
  rewrite !bind_gets. fields. now rewrite H.
Qed.

Lemma clean_cache_asks (w : world) :
  has_cache w = true ->
  Uninstall.clean_cache w
  = (response <- input cache_prompt ;;
     if String.eqb (lower response) "y" then
       (has_cache <- path_exists Home Uninstall.cache_dir ;;
        if has_cache
        then rmtree Uninstall.cache_dir ;; print "  - Removed cache directory"%string
        else ret tt) ;;
       (has_backup <- path_exists Home Uninstall.backup_dir ;;
        if has_backup
        then rmtree Uninstall.backup_dir ;; print "  - Removed backups directory"%string
        else ret tt)
     else ret tt) w.
Proof.
  unfold has_cache, Uninstall.clean_cache, path_exists. intros H.
  rewrite !bind_gets. fields. now rewrite H.
Qed.

Lemma clean_cache_declined (w : world) (b : string) (rest : list tty) :
  has_cache w = true ->
  stdin w = Line b :: rest ->
  lower b <> "y"%string ->
  Uninstall.clean_cache w
  = (set_stdin rest (set_stdout (stdout w ++ [cache_prompt]) w), inl tt).
Proof.
  intros H Hin Hb. rewrite (clean_cache_asks w H).
  rewrite (input_line _ _ _ b rest Hin).
  apply String.eqb_neq in Hb. now rewrite Hb.
Qed.

Lemma clean_cache_interrupted (w : world) (rest : list tty) :
  has_cache w = true ->
  stdin w = CtrlC :: rest ->
  Uninstall.clean_cache w
  = (set_stdin rest (set_stdout (stdout w ++ [cache_prompt]) w),
     inr KeyboardInterrupt).
Proof.
  intros H Hin. rewrite (clean_cache_asks w H).
  unfold bind, input. now rewrite Hin.
Qed.

Lemma farewell_last (n1 n2 : nat) (w : world) :
  exists w',
    farewell n1 n2 w = (w', inl tt) /\
    stdin w' = stdin w /\ home w' = home w /\
    last (stdout w') EmptyString = "Thanks for trying Claude DevStudio!"%string.
Proof.
  unfold farewell. rewrite bind_print. unfold print.
  eexists. split; [reflexivity|]. fields. repeat split. apply last_last.
Qed.

End Cache.

Section CacheRuns.

Local Open Scope list_scope.

Lemma run_of_main (w w' : world) (r : unit + pyexn) :
  Uninstall.main w = (w', r) ->
  Uninstall.run w
  = match r with
    | inl _ => (w', Exit 0)
    | inr (SystemExit code) => (w', Exit code)
    | inr KeyboardInterrupt =>
        (set_stdout (stdout w' ++ [(nl ++ "[CANCELLED] Uninstall cancelled.")%string]) w',
         Exit 0)
    | inr (Exception e) =>
        (set_stdout (stdout w' ++ [(nl ++ "[ERROR] Uninstall failed: " ++ e)%string]) w',
         Exit 0)
    end.
Proof.
  intros H. unfold Uninstall.run, interpreter, Uninstall.dunder_main. rewrite H.
  destruct r as [u|[c| |msg]]; reflexivity.
Qed.

Lemma has_cache_frame (w w1 : world) :
  frame cache_paths w w1 -> has_cache w1 = has_cache w.
Proof.
  intros F. destruct (frame_has_cache w w1 F) as [E1 E2].
  unfold has_cache. now rewrite E1, E2.
Qed.

(** X14.  The second question declined.  When the confirmation is
    accepted and the cache or the backups are there, the uninstaller
    asks a second question; any answer but y or Y leaves the cache and
    the backups as they were, and the run goes on to its summary and
    ends with status 0, having read two lines. *)
Theorem cache_question_declined (w : world) (a b : string) (rest : list tty) :
  found w <> (0, 0) ->
  stdin w = Line a :: Line b :: rest ->
  lower a = "y"%string ->
  lower b <> "y"%string ->
  has_cache w = true ->
  exists w',
    Uninstall.run w = (w', Exit 0) /\
    stdin w' = rest /\
    get Uninstall.cache_dir (home w') = get Uninstall.cache_dir (home w) /\
    get Uninstall.backup_dir (home w') = get Uninstall.backup_dir (home w) /\
    In cache_prompt (stdout w') /\
    last (stdout w') EmptyString = "Thanks for trying Claude DevStudio!"%string.
Proof.
  intros Hf Hin Ha Hb Hc.
  destruct (main_loops w a (Line b :: rest) Hf Hin Ha) as (w1 & n1 & n2 & Hm & Hin1 & F).
  destruct (frame_has_cache w w1 F) as [E1 E2].
  rewrite <- (has_cache_frame w w1 F) in Hc.
  pose proof (clean_cache_declined w1 b rest Hc Hin1 Hb) as Hq.
  rewrite (bind_ok _ _ _ _ _ Hq) in Hm.
  destruct (farewell_last n1 n2
              (set_stdin rest (set_stdout (stdout w1 ++ [cache_prompt]) w1)))
    as (w' & Hw & Hsin & Hhome & Hlast).
  rewrite Hw in Hm.
  exists w'. split; [exact (run_of_main _ _ _ Hm)|].
  split; [exact Hsin|]. rewrite Hhome. fields.
  split; [exact E1|]. split; [exact E2|]. split; [|exact Hlast].
  revert Hw. unfold farewell. rewrite bind_print. unfold print.
  intros Hw. inversion Hw. fields. rewrite !in_app_iff. simpl. tauto.
Qed.

(** X15.  No cache, no question.  When the confirmation is accepted and
    neither the cache nor the backups are there, no second question is
    asked: the run reads one line only, prints its summary and ends with
    status 0. *)
Theorem no_cache_no_question (w : world) (a : string) (rest : list tty) :
  found w <> (0, 0) ->
  stdin w = Line a :: rest ->
  lower a = "y"%string ->
  has_cache w = false ->
  exists w',
    Uninstall.run w = (w', Exit 0) /\
    stdin w' = rest /\
    last (stdout w') EmptyString = "Thanks for trying Claude DevStudio!"%string.
Proof.
  intros Hf Hin Ha Hc.
  destruct (main_loops w a rest Hf Hin Ha) as (w1 & n1 & n2 & Hm & Hin1 & F).
  rewrite <- (has_cache_frame w w1 F) in Hc.
  rewrite (bind_ok _ _ _ _ _ (clean_cache_absent w1 Hc)) in Hm.
  destruct (farewell_last n1 n2 w1) as (w' & Hw & Hsin & Hhome & Hlast).
  rewrite Hw in Hm.
  exists w'. split; [exact (run_of_main _ _ _ Hm)|].
  split; [congruence|exact Hlast].
Qed.

(** X16.  The interrupt key at the second question.  The loops have run
    by then: the uninstaller prints that the uninstallation was
    cancelled and ends with status 0, the cache and the backups are as
    they were, and when the listed names could all be removed none of
    them is left. *)
Theorem interrupt_at_cache_question (w : world) (a : string) (rest : list tty) :
  found w <> (0, 0) ->
  stdin w = Line a :: CtrlC :: rest ->
  lower a = "y"%string ->
  has_cache w = true ->
  exists w',
    Uninstall.run w = (w', Exit 0) /\
    last (stdout w') EmptyString = (nl ++ "[CANCELLED] Uninstall cancelled.")%string /\
    get Uninstall.cache_dir (home w') = get Uninstall.cache_dir (home w) /\
    get Uninstall.backup_dir (home w') = get Uninstall.backup_dir (home w) /\
    (removable w ->
     forall t, In t Uninstall.skills ->
               get (Uninstall.skills_dir ++ [t]) (home w') = None).
Proof.
  intros Hf Hin Ha Hc.
  destruct (main_loops w a (CtrlC :: rest) Hf Hin Ha)
    as (w1 & n1 & n2 & Hm & Hin1 & F).
  destruct (frame_has_cache w w1 F) as [E1 E2].
  rewrite <- (has_cache_frame w w1 F) in Hc.
  pose proof (clean_cache_interrupted w1 rest Hc Hin1) as Hq.
  rewrite (bind_raise _ _ _ _ _ Hq) in Hm.
  eexists. split; [exact (run_of_main _ _ _ Hm)|].
  fields. split; [apply last_last|]. split; [exact E1|]. split; [exact E2|].
  intros Hr t Ht.
  exact (main_clears _ _ _ _ _ _ Hin Ha Hr Ht Hm).
Qed.

End CacheRuns.

Section CacheGone.

Local Open Scope list_scope.

Lemma clearable_same (p : path) (w w1 : world) :
  get p (home w1) = get p (home w) ->
  io_error w1 = io_error w ->
  home_name w1 = home_name w ->
  clearable p w -> clearable p w1.
Proof.
  intros Hg Hio Hn. unfold clearable. now rewrite (outcome_same p w w1 Hg Hio Hn).
Qed.

(** Lines 121-123 and 124-126: one of the two deletions. *)
Lemma clear_step (c : path) (x line : string) (w : world) :
  clearable (c ++ [x]) w ->
  exists w',
    (present <- path_exists Home (c ++ [x]) ;;
     if present then rmtree (c ++ [x]) ;; print line else ret tt) w = (w', inl tt) /\
    get (c ++ [x]) (home w') = None /\
    stdin w' = stdin w /\ io_error w' = io_error w /\
    home_name w' = home_name w /\
    (forall q, apart (c ++ [x]) q -> get q (home w') = get q (home w)).
Proof.
  intros Hc. unfold path_exists. rewrite bind_gets. fields.
  destruct (get (c ++ [x]) (home w)) as [k|] eqn:E; cbn [is_some].
  - unfold bind at 1. rewrite (rmtree_outcome_run c x w).
    destruct Hc as [O|O]; [apply outcome_absent in O; congruence|].
    rewrite O. unfold print.
    eexists. split; [reflexivity|]. fields. repeat split.
    + exact (get_del_same c x [] (home w)).
    + intros q Hq. now apply get_del_apart.
  - exists w. repeat split; auto.
Qed.

Lemma clean_cache_accepted (w : world) (b : string) (rest : list tty) :
  has_cache w = true ->
  stdin w = Line b :: rest ->
  lower b = "y"%string ->
  clearable Uninstall.cache_dir w ->
  clearable Uninstall.backup_dir w ->
  exists w',
    Uninstall.clean_cache w = (w', inl tt) /\
    stdin w' = rest /\
    get Uninstall.cache_dir (home w') = None /\
    get Uninstall.backup_dir (home w') = None.
Proof.
  intros H Hin Hb Hc Hk. rewrite (clean_cache_asks w H).
  rewrite (input_line _ _ _ b rest Hin). rewrite Hb.
  change (String.eqb "y" "y") with true. cbv iota.
  set (w0 := set_stdin rest (set_stdout (stdout w ++ [cache_prompt]) w)).
  destruct (clear_step [".claude"%string] ".ccplugins_cache"
              "  - Removed cache directory" w0 Hc)
    as (w1 & H1 & Hn1 & Hs1 & Hio1 & Hnm1 & F1).
  assert (Ea : apart Uninstall.cache_dir Uninstall.backup_dir).
  { apply (claude_apart ".ccplugins_cache" ".ccplugins_backups" [] []). discriminate. }
  assert (Hk1 : clearable Uninstall.backup_dir w1).
  { apply (clearable_same Uninstall.backup_dir w w1); auto. }
  destruct (clear_step [".claude"%string] ".ccplugins_backups"
              "  - Removed backups directory" w1 Hk1)
    as (w2 & H2 & Hn2 & Hs2 & Hio2 & Hnm2 & F2).
  exists w2. split; [|split; [|split]].
  - rewrite (bind_ok _ _ _ _ _ H1). exact H2.
  - now rewrite Hs2, Hs1.
  - rewrite F2; [exact Hn1|].
    apply (claude_apart ".ccplugins_backups" ".ccplugins_cache" [] []). discriminate.
  - exact Hn2.
Qed.

(** X17.  The cache and the backups removed.  When both questions are
    answered y or Y and the cache and the backups are directories in
    which no deletion is refused, or are not there, neither is left
    after the run, which prints its summary and ends with status 0. *)
Theorem cache_removed_on_request (w : world) (a b : string) (rest : list tty) :
  found w <> (0, 0) ->
  stdin w = Line a :: Line b :: rest ->
  lower a = "y"%string ->
  lower b = "y"%string ->
  has_cache w = true ->
  clearable Uninstall.cache_dir w ->
  clearable Uninstall.backup_dir w ->
  exists w',
    Uninstall.run w = (w', Exit 0) /\
    stdin w' = rest /\
    get Uninstall.cache_dir (home w') = None /\
    get Uninstall.backup_dir (home w') = None /\
    last (stdout w') EmptyString = "Thanks for trying Claude DevStudio!"%string.
Proof.
  intros Hf Hin Ha Hb Hc Hcc Hcb.
  destruct (main_loops w a (Line b :: rest) Hf Hin Ha) as (w1 & n1 & n2 & Hm & Hin1 & F).
  destruct (frame_has_cache w w1 F) as [E1 E2].
  rewrite <- (has_cache_frame w w1 F) in Hc.
  destruct F as (_ & _ & Hnm & Hio & _).
  assert (Hcc1 : clearable Uninstall.cache_dir w1).
  { now apply (clearable_same Uninstall.cache_dir w w1). }
  assert (Hcb1 : clearable Uninstall.backup_dir w1).
  { now apply (clearable_same Uninstall.backup_dir w w1). }
  destruct (clean_cache_accepted w1 b rest Hc Hin1 Hb Hcc1 Hcb1)
    as (w2 & Hq & Hs2 & Hn1 & Hn2).
  rewrite (bind_ok _ _ _ _ _ Hq) in Hm.
  destruct (farewell_last n1 n2 w2) as (w' & Hw & Hsin & Hhome & Hlast).
  rewrite Hw in Hm.
  exists w'. split; [exact (run_of_main _ _ _ Hm)|].
  split; [congruence|]. rewrite Hhome. auto.
Qed.

Lemma clean_cache_fails (w : world) (b : string) (rest : list tty)
      (msg : string) (remains : node) :
  stdin w = Line b :: rest ->
  lower b = "y"%string ->
  rmtree_outcome Uninstall.cache_dir w = Failed msg remains ->
  Uninstall.clean_cache w
  = (set_home (put Uninstall.cache_dir remains (home w))
       (set_stdin rest (set_stdout (stdout w ++ [cache_prompt]) w)),
     inr (Exception msg)).
Proof.
  intros Hin Hb Hr.
  assert (Hsome : get Uninstall.cache_dir (home w) <> None).
  { intros E. apply outcome_absent in E. congruence. }
  assert (H : has_cache w = true).
  { unfold has_cache.
    destruct (get Uninstall.cache_dir (home w)); [reflexivity|congruence]. }
  rewrite (clean_cache_asks w H).
  rewrite (input_line _ _ _ b rest Hin). rewrite Hb.
  change (String.eqb "y" "y") with true. cbv iota.
  set (w0 := set_stdin rest (set_stdout (stdout w ++ [cache_prompt]) w)).
  assert (Hr0 : rmtree_outcome Uninstall.cache_dir w0 = Failed msg remains).
  { rewrite <- Hr. now apply outcome_same. }
  unfold path_exists. rewrite bind_assoc, bind_gets.
  change (tree Home w0) with (home w).
  destruct (get Uninstall.cache_dir (home w)); [|congruence]. cbn [is_some].
  pose proof (rmtree_outcome_run [".claude"%string] ".ccplugins_cache" w0) as Hrun.
  change ([".claude"%string] ++ [".ccplugins_cache"%string])
    with Uninstall.cache_dir in Hrun.
  rewrite Hr0 in Hrun.
  rewrite bind_assoc. exact (bind_raise _ _ _ _ _ Hrun).
Qed.

(** X18.  A cache that cannot be deleted.  The deletions of the cache
    and of the backups are not guarded as the two loops are.  When both
    questions are answered y or Y and the deletion of the cache raises,
    because the cache is a regular file or because a deletion in it is
    refused, the error ends the run: the last line printed is the
    failure with its reason, no summary follows, and the status is 0.
    What [rmtree] had deleted of the cache before the error is gone and
    the rest of it is in place; the backups, which come after the
    cache, are as they were. *)
Theorem cache_failure_ends_the_run (w : world) (a b : string) (rest : list tty)
        (msg : string) (remains : node) :
  found w <> (0, 0) ->
  stdin w = Line a :: Line b :: rest ->
  lower a = "y"%string ->
  lower b = "y"%string ->
  rmtree_outcome Uninstall.cache_dir w = Failed msg remains ->
  exists w',
    Uninstall.run w = (w', Exit 0) /\
    last (stdout w') EmptyString = (nl ++ "[ERROR] Uninstall failed: " ++ msg)%string /\
    get Uninstall.cache_dir (home w') = Some remains /\
    get Uninstall.backup_dir (home w') = get Uninstall.backup_dir (home w).
Proof.
  intros Hf Hin Ha Hb Hr.
  destruct (main_loops w a (Line b :: rest) Hf Hin Ha) as (w1 & n1 & n2 & Hm & Hin1 & F).
  destruct (frame_has_cache w w1 F) as [E1 E2].
  assert (Hr1 : rmtree_outcome Uninstall.cache_dir w1 = Failed msg remains).
  { destruct F as (_ & _ & Hn & Hio & _). rewrite <- Hr. now apply outcome_same. }
  pose proof (clean_cache_fails w1 b rest msg remains Hin1 Hb Hr1) as Hq.
  rewrite (bind_raise _ _ _ _ _ Hq) in Hm.
  eexists. split; [exact (run_of_main _ _ _ Hm)|].
  fields. split; [apply last_last|]. split.
  - pose proof (get_after_outcome [".claude"%string] ".ccplugins_cache" w1) as G.
    change ([".claude"%string] ++ [".ccplugins_cache"%string])
      with Uninstall.cache_dir in G.
    rewrite Hr1 in G. exact G.
  - rewrite <- E2. apply get_put_apart.
    apply (claude_apart ".ccplugins_cache" ".ccplugins_backups" [] []). discriminate.
Qed.

End CacheGone.

Section Counts.

Local Open Scope list_scope.

Lemma distinct_nodup (l : list string) : distinct l = true -> NoDup l.
Proof.
  induction l as [|x l IH]; simpl; intros H; constructor.
  - apply andb_prop in H. destruct H as [H _].
    intros Hin. apply negb_true_iff in H.
    assert (E : existsb (String.eqb x) l = true).
    { apply existsb_exists. exists x. split; auto. apply String.eqb_refl. }
    congruence.
  - apply IH. apply andb_prop in H. tauto.
Qed.

Lemma skills_nodup : NoDup Uninstall.skills.
Proof. apply distinct_nodup. vm_compute. reflexivity. Qed.

Lemma legacy_commands_nodup : NoDup Uninstall.legacy_commands.
Proof. apply distinct_nodup. vm_compute. reflexivity. Qed.

Lemma remove_skills_count (l : list string) (n : nat) (w : world) :
  NoDup l ->
  (forall t, In t l -> removable_name t w) ->
  exists w',
    Uninstall.remove_skills l n w
    = (w', inl (n + List.length
                      (filter (fun t => is_some (get (Uninstall.skills_dir ++ [t]) (home w)))
                              l))).
Proof.
  intros Hnd Hr. destruct (remove_skills_distinct l n w Hnd) as (w' & Hrun & _).
  exists w'. rewrite Hrun. do 4 f_equal.
  apply filter_ext_in. intros t Ht. unfold removed.
  destruct (Hr t Ht) as [O|O]; rewrite O.
  - apply outcome_absent in O. now rewrite O.
  - unfold rmtree_outcome in O.
    destruct (get (Uninstall.skills_dir ++ [t]) (home w)) as [[d|es]|];
      [discriminate O|reflexivity|discriminate O].
Qed.

Lemma remove_commands_count (l : list string) (n : nat) (w : world) :
  NoDup l ->
  (forall c, In c l -> goes c w) ->
  exists w',
    Uninstall.remove_commands l n w
    = (w', inl (n + List.length
                      (filter (fun c => is_some (get (Uninstall.commands_dir ++ [c]) (home w)))
                              l))).
Proof.
  revert n w. induction l as [|s l IH]; intros n w Hnd Hr.
  - exists w. simpl. now rewrite Nat.add_0_r.
  - inversion Hnd as [|? ? Hs Hnd']; subst.
    pose proof (Hr s (or_introl eq_refl)) as Hg.
    cbn [Uninstall.remove_commands]. rewrite (bind_ok _ _ _ _ _ (remove_command_removal s n w)).
    assert (Hsame : forall t, In t l ->
      get (Uninstall.commands_dir ++ [t]) (home (fst (command_removal s n w)))
      = get (Uninstall.commands_dir ++ [t]) (home w)).
    { intros t Ht. apply (command_removal_other t s n w []).
      intros ->. contradiction. }
    destruct (IH (snd (command_removal s n w)) (fst (command_removal s n w)) Hnd')
      as [w' Hrun].
    { intros t Ht. unfold goes. cbv zeta.
      rewrite command_removal_io, (Hsame t Ht). apply Hr. now right. }
    exists w'. rewrite Hrun. do 2 f_equal.
    rewrite (filter_ext_in _ (fun t => is_some (get (Uninstall.commands_dir ++ [t]) (home w))))
      by (intros t Ht; now rewrite (Hsame t Ht)).
    cbn [filter]. unfold command_removal. cbv zeta.
    destruct Hg as [Hg|[[d Hg] Hio]]; cbv zeta in Hg; rewrite Hg.
    + cbn [snd is_some Datatypes.length]. lia.
    + cbv zeta in Hio. rewrite Hio. cbn [snd is_some Datatypes.length]. lia.
Qed.

Lemma skills_block_count (w : world) :
  removable w ->
  exists w',
    skills_block w = (w', inl (installed Uninstall.skills_dir Uninstall.skills w)).
Proof.
  intros Hr. unfold skills_block, installed, path_exists. rewrite bind_gets.
  change (tree Home w) with (home w).
  destruct (is_some (get Uninstall.skills_dir (home w))); cbv iota.
  - destruct (remove_skills_count Uninstall.skills 0 w skills_nodup Hr) as [w' H].
    exists w'. rewrite H. rewrite Nat.add_0_l. reflexivity.
  - exists w. reflexivity.
Qed.

Lemma commands_block_count (w : world) :
  (forall c, In c Uninstall.legacy_commands -> goes c w) ->
  exists w',
    commands_block w
    = (w', inl (installed Uninstall.commands_dir Uninstall.legacy_commands w)).
Proof.
  intros Hr. unfold commands_block, installed, path_exists. rewrite bind_gets.
  change (tree Home w) with (home w).
  destruct (is_some (get Uninstall.commands_dir (home w))); cbv iota.
  - destruct (remove_commands_count Uninstall.legacy_commands 0 w
                legacy_commands_nodup Hr) as [w' H].
    exists w'. rewrite H. rewrite Nat.add_0_l. reflexivity.
  - exists w. reflexivity.
Qed.

Lemma below_commands_skills (x : string) (q : path) :
  below Uninstall.commands_dir q -> apart (Uninstall.skills_dir ++ [x]) q.
Proof. intros [r ->]. apply claude_apart. discriminate. Qed.

(** X19.  The summary agrees with the announcement.  When the
    confirmation is accepted, every listed skill that is there can be
    removed, every listed command file that is there can be deleted, and
    the run gets past the cache, the line of the summary gives the
    numbers of skills and of command files that were announced as found
    before the question. *)
Theorem summary_matches_found (w w' : world) (a : string) (rest : list tty) :
  found w <> (0, 0) ->
  stdin w = Line a :: rest ->
  lower a = "y"%string ->
  removable w ->
  (forall c, In c Uninstall.legacy_commands -> goes c w) ->
  Uninstall.main w = (w', inl tt) ->
  In (nl ++ "[SUCCESS] Uninstalled " ++ str_nat (fst (found w))
         ++ " skills and " ++ str_nat (snd (found w))
         ++ " legacy commands (" ++ str_nat (fst (found w) + snd (found w))
         ++ " total)")%string (stdout w').
Proof.
  intros Hf Hin Ha Hr Hg Hmain.
  destruct (main_accepted w a rest Hf Hin Ha) as [out Hm].
  set (w3 := set_stdin rest (set_stdout (stdout w ++ out) w)) in Hm.
  destruct (skills_block_count w3) as [ws Hs]; [exact Hr|].
  pose proof (skills_block_apart (below Uninstall.commands_dir)
                (fun x q _ Hq => below_commands_skills x q Hq) _ _ _ Hs)
    as (_ & _ & _ & Hio & F).
  assert (Hdir : get Uninstall.commands_dir (home ws)
                 = get Uninstall.commands_dir (home w)).
  { apply F. exists []. symmetry. apply app_nil_r. }
  assert (Hsame : forall c, get (Uninstall.commands_dir ++ [c]) (home ws)
                            = get (Uninstall.commands_dir ++ [c]) (home w)).
  { intros c. apply F. now exists [c]. }
  destruct (commands_block_count ws) as [w1 Hc].
  { intros c Hc. destruct (Hg c Hc) as [G|[G Gio]]; cbv zeta in G.
    - left. cbv zeta. now rewrite Hsame.
    - right. cbv zeta. rewrite Hsame, Hio. split; [exact G|exact Gio]. }
  assert (E2 : installed Uninstall.commands_dir Uninstall.legacy_commands ws
               = installed Uninstall.commands_dir Uninstall.legacy_commands w).
  { unfold installed. rewrite Hdir.
    now rewrite (filter_ext _ _ (fun x => f_equal is_some (Hsame x))). }
  rewrite E2 in Hc.
  rewrite Hm, (remove_all_loops _ _ _ _ _ Hs Hc) in Hmain.
  destruct (bind_inv _ _ _ _ _ Hmain) as [(w2 & [] & _ & Hfw)|(e & _ & He)];
    [|discriminate].
  unfold farewell in Hfw. rewrite bind_print in Hfw. unfold print in Hfw.
  inversion Hfw. unfold found. cbn [fst snd stdout set_stdout].
  rewrite !in_app_iff. left. right. left. reflexivity.
Qed.

End Counts.

Lemma legacy_commands_witness :
  let w := legacy_world (Dir []) [Line "y"; Line "n"] in
  get [".claude"; "commands"; "commit.md"] (home (fst (Uninstall.run w))) = None /\
  get [".claude"; "commands"; "review.md"] (home (fst (Uninstall.run w)))
  = Some (Dir [("x", File "1")]).
Proof.
  intros w.
  assert (H1 : In "commit.md" Uninstall.legacy_commands).
  { simpl. repeat (first [left; reflexivity | right]). }
  assert (H2 : In "review.md" Uninstall.legacy_commands).
  { simpl. repeat (first [left; reflexivity | right]). }
  split.
  - exact (proj1 (legacy_commands_removed "commit.md" w "y" [Line "n"]
                    eq_refl eq_refl H1)
                 (ex_intro _ "old" eq_refl) eq_refl).
  - exact (proj2 (legacy_commands_removed "review.md" w "y" [Line "n"]
                    eq_refl eq_refl H2)
                 [("x", File "1")] eq_refl).
Defined.

Lemma cache_question_declined_witness :
  let w := legacy_world (Dir [("k", File "v")]) [Line "Y"; Line "n"] in
  found w <> (0, 0) /\
  has_cache w = true /\
  exists w',
    Uninstall.run w = (w', Exit 0) /\
    stdin w' = [] /\
    get Uninstall.cache_dir (home w') = Some (Dir [("k", File "v")]) /\
    get Uninstall.backup_dir (home w') = Some (Dir []) /\
    In cache_prompt (stdout w') /\
    last (stdout w') EmptyString = "Thanks for trying Claude DevStudio!".
Proof.
  intros w.
  assert (Hf : found w <> (0, 0)) by (vm_compute; discriminate).
  assert (Hn : lower "n" <> "y") by (vm_compute; discriminate).
  split; [exact Hf|]. split; [reflexivity|].
  exact (cache_question_declined w "Y" "n" [] Hf eq_refl eq_refl Hn eq_refl).
Defined.

Lemma no_cache_no_question_witness :
  let w := sample_world [] [("commit", Dir [])] [Line "y"; Line "left"] in
  found w <> (0, 0) /\
  has_cache w = false /\
  exists w',
    Uninstall.run w = (w', Exit 0) /\
    stdin w' = [Line "left"] /\
    last (stdout w') EmptyString = "Thanks for trying Claude DevStudio!".
Proof.
  intros w.
  assert (Hf : found w <> (0, 0)) by (vm_compute; discriminate).
  split; [exact Hf|]. split; [reflexivity|].
  exact (no_cache_no_question w "y" [Line "left"] Hf eq_refl eq_refl eq_refl).
Defined.

Lemma cache_removed_witness :
  let w := legacy_world (Dir [("k", File "v")]) [Line "y"; Line "Y"] in
  found w <> (0, 0) /\
  clearable Uninstall.cache_dir w /\
  clearable Uninstall.backup_dir w /\
  exists w',
    Uninstall.run w = (w', Exit 0) /\
    stdin w' = [] /\
    get Uninstall.cache_dir (home w') = None /\
    get Uninstall.backup_dir (home w') = None /\
    last (stdout w') EmptyString = "Thanks for trying Claude DevStudio!".
Proof.
  intros w.
  assert (Hf : found w <> (0, 0)) by (vm_compute; discriminate).
  assert (Hc : clearable Uninstall.cache_dir w) by (right; reflexivity).
  assert (Hb : clearable Uninstall.backup_dir w) by (right; reflexivity).
  split; [exact Hf|]. split; [exact Hc|]. split; [exact Hb|].
  exact (cache_removed_on_request w "y" "Y" [] Hf eq_refl eq_refl eq_refl eq_refl
           Hc Hb).
Defined.

Lemma interrupt_at_cache_witness :
  let w := legacy_world (Dir []) [Line "y"; CtrlC] in
  found w <> (0, 0) /\
  exists w',
    Uninstall.run w = (w', Exit 0) /\
    last (stdout w') EmptyString = (nl ++ "[CANCELLED] Uninstall cancelled.") /\
    get Uninstall.cache_dir (home w') = Some (Dir []) /\
    get Uninstall.backup_dir (home w') = Some (Dir []) /\
    (removable w ->
     forall t, In t Uninstall.skills ->
               get (Uninstall.skills_dir ++ [t])%list (home w') = None).
Proof.
  intros w.
  assert (Hf : found w <> (0, 0)) by (vm_compute; discriminate).
  split; [exact Hf|].
  exact (interrupt_at_cache_question w "y" [] Hf eq_refl eq_refl eq_refl).
Defined.

Lemma cache_failure_witness :
  let w := locked_cache_world in
  let v := legacy_world (File "not a directory") [Line "y"; Line "y"] in
  found w <> (0, 0) /\
  (exists w',
     Uninstall.run w = (w', Exit 0) /\
     last (stdout w') EmptyString
     = (nl ++ "[ERROR] Uninstall failed: [Errno 13] Permission denied: 'b'") /\
     get Uninstall.cache_dir (home w')
     = Some (Dir [("b", File "2"); ("c", File "3")]) /\
     get Uninstall.backup_dir (home w') = Some (Dir [("old", File "o")])) /\
  (exists v',
     Uninstall.run v = (v', Exit 0) /\
     last (stdout v') EmptyString
     = (nl ++ "[ERROR] Uninstall failed: [Errno 20] Not a directory: "
           ++ "PosixPath('/home/user/.claude/.ccplugins_cache')") /\
     get Uninstall.cache_dir (home v') = Some (File "not a directory") /\
     get Uninstall.backup_dir (home v') = Some (Dir [])).
Proof.
  intros w v.
  assert (Hf : found w <> (0, 0)) by (vm_compute; discriminate).
  assert (Hv : found v <> (0, 0)) by (vm_compute; discriminate).
  split; [exact Hf|]. split.
  - exact (cache_failure_ends_the_run w "y" "y" []
             "[Errno 13] Permission denied: 'b'"
             (Dir [("b", File "2"); ("c", File "3")])
             Hf eq_refl eq_refl eq_refl eq_refl).
  - exact (cache_failure_ends_the_run v "y" "y" []
             "[Errno 20] Not a directory: PosixPath('/home/user/.claude/.ccplugins_cache')"
             (File "not a directory")
             Hv eq_refl eq_refl eq_refl eq_refl).
Defined.

Lemma summary_matches_witness :
  let w := plain_world [Line "y"] in
  let w' := fst (Uninstall.main w) in
  found w = (2, 1) /\
  In (nl ++ "[SUCCESS] Uninstalled 2 skills and 1 legacy commands (3 total)")
     (stdout w').
Proof.
  intros w w'.
  assert (Hf : found w <> (0, 0)) by (vm_compute; discriminate).
  assert (Hr : removable w).
  { intros t Ht. simpl in Ht.
    repeat (destruct Ht as [<-|Ht];
            [first [left; reflexivity | right; reflexivity]|]).
    destruct Ht. }
  assert (Hg : forall c, In c Uninstall.legacy_commands -> goes c w).
  { intros c Hc. simpl in Hc.
    repeat (destruct Hc as [<-|Hc];
            [first [left; reflexivity
                   |right; split; [eexists; reflexivity|reflexivity]]|]).
    destruct Hc. }
  assert (Hm : Uninstall.main w = (w', inl tt)) by (vm_compute; reflexivity).
  split; [vm_compute; reflexivity|].
  exact (summary_matches_found w w' "y" [] Hf eq_refl eq_refl Hr Hg Hm).
Defined.
